(** * Unilag Price Saver: alerts, filters, search, statistics and helpers

    A shallow embedding of the client-side logic of the price-comparison
    dashboards (user-dashboard.js, admin-dashboard.js, utils.js and the small
    utilities module), followed by the properties of that logic.

    JavaScript values are modelled as the code uses them:
    - a Number is an IEEE-754 binary64 value, Rocq's primitive [float];
    - a String is a [string]; every character stands for one UTF-16 code
      unit below 256 (Latin-1), and the naira sign, which lies outside that
      range, is written as the three characters of its UTF-8 encoding;
    - the 32-bit integer operators work on [Z] with the wrap-around of
      ToInt32 written out;
    - an optional object field ([null], absent) is an [option];
    - [localStorage] is a finite map from keys to strings. *)

From Stdlib Require Import ZArith List String Ascii Bool Lia Floats DecimalString.
From Stdlib Require DecimalPos DecimalFacts.
From stdpp Require Import gmap strings.
Import ListNotations.

#[local] Arguments String.append !s1 s2.

(** ** The JavaScript built-ins the code relies on *)

Module JS.

(** *** Strings *)

Definition charCode (c : ascii) : Z := Z.of_nat (nat_of_ascii c).

(** The code units of a string, [s.charCodeAt(0)], [s.charCodeAt(1)], ... *)
Definition charCodes (s : string) : list Z :=
  map charCode (list_ascii_of_string s).

(** The upper-case letters below 256: A to Z, and U+00C0 to U+00DE but for
    the multiplication sign U+00D7. *)
Definition is_upper (c : ascii) : bool :=
  let n := charCode c in
  ((65 <=? n)%Z && (n <=? 90)%Z) ||
  ((192 <=? n)%Z && (n <=? 222)%Z && negb (n =? 215)%Z).

Definition lower_char (c : ascii) : ascii :=
  if is_upper c then ascii_of_nat (nat_of_ascii c + 32) else c.

(** [String.prototype.toLowerCase]. *)
Fixpoint toLowerCase (s : string) : string :=
  match s with
  | EmptyString => EmptyString
  | String c s' => String (lower_char c) (toLowerCase s')
  end.

(** The WhiteSpace and LineTerminator code units below 256: TAB, LF, VT,
    FF, CR, SP and NBSP. *)
Definition is_space (c : ascii) : bool :=
  let n := charCode c in
  ((9 <=? n)%Z && (n <=? 13)%Z) || (n =? 32)%Z || (n =? 160)%Z.

Fixpoint trimStart (s : string) : string :=
  match s with
  | EmptyString => EmptyString
  | String c s' => if is_space c then trimStart s' else s
  end.

Fixpoint trimEnd (s : string) : string :=
  match s with
  | EmptyString => EmptyString
  | String c s' =>
      match trimEnd s' with
      | EmptyString => if is_space c then EmptyString else String c EmptyString
      | t => String c t
      end
  end.

(** [String.prototype.trim]. *)
Definition trim (s : string) : string := trimEnd (trimStart s).

(** [String.prototype.includes]: [sub] occurs somewhere in [s]. *)
Fixpoint includes (s sub : string) : bool :=
  String.prefix sub s ||
  match s with
  | EmptyString => false
  | String _ s' => includes s' sub
  end.

(** ToBoolean of a string: the empty string is falsy. *)
Definition truthy_string (s : string) : bool :=
  match s with EmptyString => false | _ => true end.

(** ToBoolean of an optional string field ([null] and absent are falsy). *)
Definition truthy_field (f : option string) : bool :=
  match f with Some s => truthy_string s | None => false end.

(** [Array.prototype.join] on strings. *)
Fixpoint join (sep : string) (l : list string) : string :=
  match l with
  | [] => EmptyString
  | [x] => x
  | x :: rest => x +:+ sep +:+ join sep rest
  end.

(** *** 32-bit integers *)

(** ToInt32: reduce modulo 2^32 into [-2^31, 2^31). *)
Definition ToInt32 (z : Z) : Z :=
  ((z + 2 ^ 31) mod 2 ^ 32 - 2 ^ 31)%Z.

(** [a << n]. *)
Definition shl (a n : Z) : Z :=
  ToInt32 (Z.shiftl (ToInt32 a) (n mod 32)).

(** [a & b]. *)
Definition band (a b : Z) : Z :=
  ToInt32 (Z.land (ToInt32 a) (ToInt32 b)).

(** The decimal rendering of an integer ([Number::toString] on an integral
    value below 10^21 in magnitude). *)
Definition Z_toString (z : Z) : string :=
  NilZero.string_of_int (Z.to_int z).

(** *** Numbers *)

(** ToBoolean of a Number: [0], [-0] and [NaN] are falsy. *)
Definition truthy_number (x : float) : bool :=
  negb (PrimFloat.is_zero x || PrimFloat.is_nan x).

(** [x || d] for a Number [x]. *)
Definition or_default (x d : float) : float :=
  if truthy_number x then x else d.

(** The magnitude [m * 2^e] of a finite float as a fraction [num / den] of
    positive integers. *)
Definition exact (m : positive) (e : Z) : Z * Z :=
  if (0 <=? e)%Z then (Z.pos m * 2 ^ e, 1)%Z else (Z.pos m, 2 ^ (- e))%Z.

(** The number of decimal digits of a non-negative integer. *)
Definition digits10 (z : Z) : Z :=
  Z.of_nat (String.length (Z_toString z)).

(** The binary64 value nearest to [s * 10^e10] (ties to even), for [0 <= s];
    [neg] is the sign.  Magnitudes beyond the binary64 range are cut off
    before the power of ten is computed. *)

Definition of_decimal (neg : bool) (s e10 : Z) : float :=
  if (s <=? 0)%Z then (if neg then PrimFloat.neg_zero else PrimFloat.zero)
  else if (310 <? e10 + digits10 s)%Z then
    (if neg then PrimFloat.neg_infinity else PrimFloat.infinity)
  else if (e10 + digits10 s <? -330)%Z then
    (if neg then PrimFloat.neg_zero else PrimFloat.zero)
  else if (0 <=? e10)%Z then
    SF2Prim (binary_normalize 53 1024
               (if neg then - (s * 10 ^ e10) else s * 10 ^ e10)%Z 0 false)
  else
    SF2Prim (SFdiv 53 1024
               (S754_finite neg (Z.to_pos s) 0)
               (S754_finite false (Z.to_pos (10 ^ (- e10))) 0)).

(** *** parseFloat *)

Definition is_digit (c : ascii) : bool :=
  (48 <=? charCode c)%Z && (charCode c <=? 57)%Z.

(** The longest prefix of decimal digits, and what follows it. *)
Fixpoint take_digits (s : string) : string * string :=
  match s with
  | EmptyString => (EmptyString, EmptyString)
  | String c s' =>
      if is_digit c
      then let '(d, r) := take_digits s' in (String c d, r)
      else (EmptyString, s)
  end.

Fixpoint digits_value (acc : Z) (s : string) : Z :=
  match s with
  | EmptyString => acc
  | String c s' => digits_value (10 * acc + (charCode c - 48))%Z s'
  end.

(** An optional leading [+] or [-]: whether it was [-], and the rest. *)
Definition take_sign (s : string) : bool * string :=
  match s with
  | String "-"%char r => (true, r)
  | String "+"%char r => (false, r)
  | _ => (false, s)
  end.

(** The ExponentPart after the mantissa, when one is there: [e] or [E], an
    optional sign and at least one digit. *)
Definition take_exponent (s : string) : Z :=
  match s with
  | String c r =>
      if (Ascii.eqb c "e" || Ascii.eqb c "E")%char then
        let '(eneg, r') := take_sign r in
        let '(ed, _) := take_digits r' in
        match ed with
        | EmptyString => 0%Z
        | _ => if eneg then (- digits_value 0 ed)%Z else digits_value 0 ed
        end
      else 0%Z
  | EmptyString => 0%Z
  end.

(** [parseFloat(s)]: leading white space is skipped, the longest prefix that
    is a StrDecimalLiteral is read and anything after it is ignored; [NaN]
    when there is no such prefix. *)
Definition parseFloat (s : string) : float :=
  let '(neg, t) := take_sign (trimStart s) in
  if String.prefix "Infinity" t then
    (if neg then PrimFloat.neg_infinity else PrimFloat.infinity)
  else
    let '(ip, r1) := take_digits t in
    let '(fp, r2) :=
      match r1 with
      | String "."%char r => take_digits r
      | _ => (EmptyString, r1)
      end in
    match ip +:+ fp with
    | EmptyString => PrimFloat.nan
    | ds => of_decimal neg (digits_value 0 ds)
              (take_exponent r2 - Z.of_nat (String.length fp))
    end.

(** *** Number::toString *)

Fixpoint zeros (n : nat) : string :=
  match n with O => EmptyString | S n' => String "0"%char (zeros n') end.

Fixpoint take (n : nat) (s : string) : string :=
  match n, s with
  | S n', String c s' => String c (take n' s')
  | _, _ => EmptyString
  end.

Fixpoint drop (n : nat) (s : string) : string :=
  match n, s with
  | S n', String _ s' => drop n' s'
  | _, _ => s
  end.

(** The [n] with [10^(n-1) <= num/den < 10^n], for a positive fraction. *)
Definition decimal_exponent (num den : Z) : Z :=
  if (den <=? num)%Z then digits10 (num / den)
  else
    let j0 := (digits10 den - digits10 num)%Z in
    if (den <=? num * 10 ^ j0)%Z then (1 - j0)%Z else (- j0)%Z.

(** One round of the search for the shortest digits: with [k] digits, the
    two [k]-digit neighbours of [num/den] at scale [10^(n-k)]; the result is
    the one that reads back as [x], the nearer of the two (the even one on a
    tie) when both do. *)
Definition shortest_at (x : float) (num den n : Z) (k : nat) : option (Z * Z) :=
  let p := (n - Z.of_nat k)%Z in
  let '(a, b) :=
    if (0 <=? p)%Z then (num, den * 10 ^ p)%Z else (num * 10 ^ (- p), den)%Z in
  let '(lo, r) := Z.div_eucl a b in
  let hi := (lo + 1)%Z in
  let ok_lo := PrimFloat.eqb (of_decimal false lo p) x in
  let ok_hi := PrimFloat.eqb (of_decimal false hi p) x in
  let pick (s : Z) :=
    if (s =? 10 ^ Z.of_nat k)%Z then Some (10 ^ (Z.of_nat k - 1), n + 1)%Z
    else Some (s, n) in
  match ok_lo, ok_hi with
  | true, true =>
      match (2 * r ?= b)%Z with
      | Lt => pick lo
      | Gt => pick hi
      | Eq => if Z.even lo then pick lo else pick hi
      end
  | true, false => pick lo
  | false, true => pick hi
  | false, false => None
  end.

(** The digits [s] and the exponent [n] of Number::toString: the least
    number of digits [k] for which some [s * 10^(n-k)] reads back as [x].
    Seventeen digits always read back, so the search ends before the fuel
    does. *)
Fixpoint shortest_from (x : float) (num den n : Z) (k fuel : nat) : Z * Z :=
  match fuel with
  | O => ((num * 10 ^ (17 - n)) / den, n)%Z
  | S fuel' =>
      match shortest_at x num den n k with
      | Some r => r
      | None => shortest_from x num den n (S k) fuel'
      end
  end.

(** Number::toString of a positive finite value [m * 2^e]. *)
Definition toString_pos (x : float) (m : positive) (e : Z) : string :=
  let '(num, den) := exact m e in
  let '(s, n) := shortest_from x num den (decimal_exponent num den) 1 17 in
  let ds := Z_toString s in
  let k := Z.of_nat (String.length ds) in
  if ((k <=? n) && (n <=? 21))%Z then
    ds +:+ zeros (Z.to_nat (n - k))
  else if ((0 <? n) && (n <=? 21))%Z then
    take (Z.to_nat n) ds +:+ "." +:+ drop (Z.to_nat n) ds
  else if ((-6 <? n) && (n <=? 0))%Z then
    "0." +:+ zeros (Z.to_nat (- n)) +:+ ds
  else
    let ex := (n - 1)%Z in
    let es := (if (ex <? 0)%Z then "-" else "+") +:+ Z_toString (Z.abs ex) in
    if (k =? 1)%Z then ds +:+ "e" +:+ es
    else take 1 ds +:+ "." +:+ drop 1 ds +:+ "e" +:+ es.

(** [Number::toString(x)] in radix 10. *)
Definition Number_toString (x : float) : string :=
  match Prim2SF x with
  | S754_nan => "NaN"
  | S754_zero _ => "0"
  | S754_infinity false => "Infinity"
  | S754_infinity true => "-Infinity"
  | S754_finite false m e => toString_pos x m e
  | S754_finite true m e => "-" +:+ toString_pos (PrimFloat.abs x) m e
  end.

(** *** Number.prototype.toFixed *)

(** The digits of the integer [n], at least [f + 1] of them, with a point
    before the last [f]. *)
Definition fixed_digits (n : Z) (f : nat) : string :=
  let m := Z_toString n in
  match f with
  | O => m
  | _ =>
      let m' := zeros (S f - String.length m) +:+ m in
      let k := String.length m' in
      take (k - f) m' +:+ "." +:+ drop (k - f) m'
  end.

(** [x.toFixed(f)] for [0 <= f <= 100]: below 10^21 the integer [n] nearest
    to [|x| * 10^f] (the larger one on a tie) is printed with [f] decimals;
    from 10^21 on, and for a value that is not finite, the result is that of
    Number::toString. *)
Definition toFixed (x : float) (f : nat) : string :=
  match Prim2SF x with
  | S754_nan => "NaN"
  | S754_infinity false => "Infinity"
  | S754_infinity true => "-Infinity"
  | S754_zero _ => fixed_digits 0 f
  | S754_finite neg m e =>
      let '(num, den) := exact m e in
      (if neg then "-" else "") +:+
      (if (10 ^ 21 * den <=? num)%Z then toString_pos (PrimFloat.abs x) m e
       else fixed_digits ((2 * num * 10 ^ Z.of_nat f + den) / (2 * den))%Z f)
  end.

(** *** The thousands-separator replacement *)

(** A word character of a regular expression: a letter, a digit or [_]. *)
Definition is_word (c : ascii) : bool :=
  let n := charCode c in
  is_digit c || ((65 <=? n)%Z && (n <=? 90)%Z) ||
  ((97 <=? n)%Z && (n <=? 122)%Z) || (n =? 95)%Z.

Definition is_word_at (c : option ascii) : bool :=
  match c with Some c => is_word c | None => false end.

Definition head (s : string) : option ascii :=
  match s with String c _ => Some c | EmptyString => None end.

Fixpoint digit_run (s : string) : nat :=
  match s with
  | String c s' => if is_digit c then S (digit_run s') else O
  | EmptyString => O
  end.

(** The lookahead [(?=(\d{3})+(?!\d))]: the digits that follow form one or
    more groups of three and then stop. *)
Definition groups_of_three_ahead (s : string) : bool :=
  let r := digit_run s in
  (3 <=? r)%nat && (r mod 3 =? 0)%nat.

(** [\B]: not at a word boundary; [prev] is the character before the
    position and [s] what follows it. *)
Definition not_word_boundary (prev : option ascii) (s : string) : bool :=
  Bool.eqb (is_word_at prev) (is_word_at (head s)).

(** [s.replace(/\B(?=(\d{3})+(?!\d))/g, ',')]: a comma is inserted at every
    position where the (empty) pattern matches. *)
Fixpoint replace_thousands (prev : option ascii) (s : string) : string :=
  match s with
  | EmptyString => EmptyString
  | String c s' =>
      (if not_word_boundary prev s && groups_of_three_ahead s
       then "," else "") +:+
      String c (replace_thousands (Some c) s')
  end.

(** *** Values of any type *)

(** The JavaScript values a formatting helper is handed here: the
    primitive values but for Symbol and BigInt.  Objects are left out too;
    [parseFloat] of a Symbol, or of an object that cannot be converted to a
    string, throws. *)
Inductive value :=
| Undefined
| Null
| Bool (b : bool)
| Num (x : float)
| Str (s : string).

(** ToString of a value. *)
Definition ToString (v : value) : string :=
  match v with
  | Undefined => "undefined"
  | Null => "null"
  | Bool true => "true"
  | Bool false => "false"
  | Num x => Number_toString x
  | Str s => s
  end.

End JS.

(** ** The data model *)

(** The [price] field of a record as the API delivers it: a JSON number,
    [null], or absent. *)
Inductive price_value :=
| PNum (x : float)
| PNull
| PUndefined.

(** The [category_id] field of a record: a number, [null], or absent. *)
Inductive id_value :=
| IdNum (z : Z)
| IdNull
| IdUndefined.

(** A price record.  The fields the logic never reads (pack size, status,
    submission data) are left out. *)
Record PriceRecord := {
  record_id : Z;
  category_id : id_value;
  name : option string;
  brand : option string;
  retailer : option string;
  location : option string;
  price : price_value
}.

Record Category := {
  cat_id : Z;
  cat_name : string
}.

(** An alert rule as [savePriceAlert] creates it; only the admin dashboard
    records [createdAt]. *)
Record AlertRule := {
  alert_id : Z;
  itemName : string;
  threshold : float;
  triggered : bool;
  createdAt : option string
}.

(** [alert.triggered = true] *)
Definition set_triggered (a : AlertRule) : AlertRule :=
  {| alert_id := alert_id a; itemName := itemName a;
     threshold := threshold a; triggered := true;
     createdAt := createdAt a |}.

(** [typeof p.price === 'number'] *)
Definition is_number (v : price_value) : bool :=
  match v with PNum _ => true | _ => false end.

(** ToNumber of a price: [null] is [0], an absent field is [NaN]. *)
Definition price_number (v : price_value) : float :=
  match v with
  | PNum x => x
  | PNull => PrimFloat.zero
  | PUndefined => PrimFloat.nan
  end.

(** [p.price || 0] *)
Definition price_or_zero (v : price_value) : float :=
  match v with
  | PNum x => JS.or_default x PrimFloat.zero
  | _ => PrimFloat.zero
  end.

Definition price_to_value (v : price_value) : JS.value :=
  match v with
  | PNum x => JS.Num x
  | PNull => JS.Null
  | PUndefined => JS.Undefined
  end.

(** [String(id)] for the id of a category. *)
Definition String_of_id (i : id_value) : string :=
  match i with
  | IdNum z => JS.Z_toString z
  | IdNull => "null"
  | IdUndefined => "undefined"
  end.

(** [array.length] as a Number. *)
Definition length_number {A} (l : list A) : float :=
  PrimFloat.of_uint63 (Uint63.of_Z (Z.of_nat (length l))).

(** ** Timers: [setTimeout] and [clearTimeout] *)

Module EventLoop.

Section Timers.
Context {C : Type}.   (* what a scheduled callback is made of *)

Record timer := { handle : nat; due : Z; callback : C }.

(** The clock (in ms), the next timer handle and the timers not yet run. *)
Record loop := { clock : Z; next_handle : nat; pending : list timer }.

(** [setTimeout(cb, wait)]: the handle, and the loop with the timer added. *)
Definition setTimeout (cb : C) (wait : Z) (l : loop) : nat * loop :=
  (next_handle l,
   {| clock := clock l;
      next_handle := S (next_handle l);
      pending := pending l ++
                 [{| handle := next_handle l; due := (clock l + wait)%Z;
                     callback := cb |}] |}).

Definition without (h : nat) (ts : list timer) : list timer :=
  List.filter (fun t => negb (handle t =? h)%nat) ts.

(** [clearTimeout(h)]; [h] is [None] while the variable is [undefined]. *)
Definition clearTimeout (h : option nat) (l : loop) : loop :=
  match h with
  | Some n => {| clock := clock l; next_handle := next_handle l;
                 pending := without n (pending l) |}
  | None => l
  end.

(** The timer that is due first; among equals, the one set first. *)
Fixpoint earliest (ts : list timer) : option timer :=
  match ts with
  | [] => None
  | t :: rest =>
      match earliest rest with
      | Some t' => if (due t' <? due t)%Z then Some t' else Some t
      | None => Some t
      end
  end.

(** The timer to run next when time has moved on to [t], if any. *)
Definition next_due (t : Z) (l : loop) : option timer :=
  match earliest (pending l) with
  | Some tm => if (due tm <=? t)%Z then Some tm else None
  | None => None
  end.

(** The loop at the moment the callback of [tm] starts. *)
Definition fire (tm : timer) (l : loop) : loop :=
  {| clock := Z.max (clock l) (due tm); next_handle := next_handle l;
     pending := without (handle tm) (pending l) |}.

(** The loop once time has moved on to [t]. *)
Definition settle (t : Z) (l : loop) : loop :=
  {| clock := Z.max (clock l) t; next_handle := next_handle l;
     pending := pending l |}.

Definition fresh : loop :=
  {| clock := 0; next_handle := 1; pending := [] |}.
End Timers.

Arguments timer : clear implicits.
Arguments loop : clear implicits.

End EventLoop.

(** ** utils.js *)

Module Utils.

(** [formatCurrency(amount)] *)
Definition formatCurrency (amount : JS.value) : string :=
  let amount :=
    match amount with
    | JS.Num x => x
    | other => JS.or_default (JS.parseFloat (JS.ToString other)) PrimFloat.zero
    end in
  "₦" +:+ JS.replace_thousands None (JS.toFixed amount 2).

(** [hashPassword(password)]: one turn of the loop on the code unit [char],
    the loop over the code units of the password, and the whole call. *)
Definition hash_step (hash : Z) (char : Z) : Z :=
  let hash := (JS.shl hash 5 - hash + char)%Z in
  JS.band hash hash.

Definition hash_units (units : list Z) : string :=
  let hash := fold_left hash_step units 0%Z in
  JS.Z_toString hash.

Definition hashPassword (password : string) : string :=
  hash_units (JS.charCodes password).

(** [debounce(func, wait)]: the state of one debounced function.  [func]
    acts on a target of type [U] and cannot reach the timers. *)
Section Debounce.
Context {A U : Type}.
Variable func : A -> U -> U.
Variable wait : Z.

(** The timers, the captured variable [timeout] and what [func] acts on.
    A scheduled [later] is determined by the arguments it captured. *)
Record debounced := {
  loop : EventLoop.loop A;
  timeout : option nat;
  target : U
}.

(** [later] *)
Definition later (args : A) (d : debounced) : debounced :=
  {| loop := EventLoop.clearTimeout (timeout d) (loop d);
     timeout := timeout d;
     target := func args (target d) |}.

(** [executedFunction(...args)] *)
Definition executedFunction (args : A) (d : debounced) : debounced :=
  let l := EventLoop.clearTimeout (timeout d) (loop d) in
  let '(h, l) := EventLoop.setTimeout args wait l in
  {| loop := l; timeout := Some h; target := target d |}.

(** Run the timers that are due by [t], earliest first. *)
Fixpoint run_due (fuel : nat) (t : Z) (d : debounced) : debounced :=
  match fuel with
  | O => d
  | S fuel' =>
      match EventLoop.next_due t (loop d) with
      | Some tm =>
          run_due fuel' t
            (later (EventLoop.callback tm)
               {| loop := EventLoop.fire tm (loop d);
                  timeout := timeout d; target := target d |})
      | None => d
      end
  end.

(** Time moves on to [t]: no callback adds a timer, so the timers pending
    now bound the number of callbacks to run. *)
Definition advance (t : Z) (d : debounced) : debounced :=
  let d := run_due (length (EventLoop.pending (loop d))) t d in
  {| loop := EventLoop.settle t (loop d); timeout := timeout d;
     target := target d |}.

(** A call of the debounced function at time [t], or time passing until
    [t] with no call. *)
Inductive call := Call (t : Z) (args : A) | Idle (t : Z).

Definition step (d : debounced) (c : call) : debounced :=
  match c with
  | Call t args => executedFunction args (advance t d)
  | Idle t => advance t d
  end.

Definition run (cs : list call) (d : debounced) : debounced :=
  fold_left step cs d.

Definition start (u : U) : debounced :=
  {| loop := EventLoop.fresh; timeout := None; target := u |}.
End Debounce.

End Utils.

(** ** The small utilities module *)

Module SmallUtils.

(** [hashPassword(password)], as in utils.js. *)
Definition hash_step (hash : Z) (char : Z) : Z :=
  let hash := (JS.shl hash 5 - hash + char)%Z in
  JS.band hash hash.

Definition hash_units (units : list Z) : string :=
  let hash := fold_left hash_step units 0%Z in
  JS.Z_toString hash.

Definition hashPassword (password : string) : string :=
  hash_units (JS.charCodes password).

End SmallUtils.

(** ** JSON.stringify of the alert rules *)

Module JSON.

Definition dquote : string := String (ascii_of_nat 34) EmptyString.
Definition backslash : string := String (ascii_of_nat 92) EmptyString.

Definition hex_digit (n : nat) : ascii :=
  if (n <? 10)%nat then ascii_of_nat (48 + n) else ascii_of_nat (87 + n).

(** The escape of one code unit inside a JSON string. *)
Definition escape (c : ascii) : string :=
  let n := nat_of_ascii c in
  if (n =? 34)%nat then backslash +:+ dquote
  else if (n =? 92)%nat then backslash +:+ backslash
  else if (n =? 8)%nat then backslash +:+ "b"
  else if (n =? 12)%nat then backslash +:+ "f"
  else if (n =? 10)%nat then backslash +:+ "n"
  else if (n =? 13)%nat then backslash +:+ "r"
  else if (n =? 9)%nat then backslash +:+ "t"
  else if (n <? 32)%nat then
    backslash +:+ "u00" +:+
    String (hex_digit (n / 16)) (String (hex_digit (n mod 16)) EmptyString)
  else String c EmptyString.

Fixpoint escape_all (s : string) : string :=
  match s with
  | EmptyString => EmptyString
  | String c s' => escape c +:+ escape_all s'
  end.

Definition quote (s : string) : string := dquote +:+ escape_all s +:+ dquote.

(** A Number: its digits when finite, [null] otherwise. *)
Definition number (x : float) : string :=
  if PrimFloat.is_finite x then JS.Number_toString x else "null".

Definition key (k : string) : string := dquote +:+ k +:+ dquote +:+ ":".

Definition alert (a : AlertRule) : string :=
  "{" +:+ key "id" +:+ JS.Z_toString (alert_id a) +:+
  "," +:+ key "itemName" +:+ quote (itemName a) +:+
  "," +:+ key "threshold" +:+ number (threshold a) +:+
  "," +:+ key "triggered" +:+ (if triggered a then "true" else "false") +:+
  match createdAt a with
  | Some d => "," +:+ key "createdAt" +:+ quote d
  | None => ""
  end +:+
  "}".

(** [JSON.stringify(priceAlerts)] *)
Definition stringify (alerts : list AlertRule) : string :=
  "[" +:+ JS.join "," (map alert alerts) +:+ "]".

(** *** Reading the rules back *)



(** The value of a hexadecimal digit. *)
Definition hex_value (c : ascii) : option nat :=
  let n := nat_of_ascii c in
  if ((48 <=? n) && (n <=? 57))%nat then Some (n - 48)%nat
  else if ((97 <=? n) && (n <=? 102))%nat then Some (n - 87)%nat
  else if ((65 <=? n) && (n <=? 70))%nat then Some (n - 55)%nat
  else None.







(** Digits without a superfluous leading zero. *)
Definition is_int (ds : string) : bool :=
  match ds with
  | EmptyString => false
  | String "0"%char EmptyString => true
  | String c _ => negb (Ascii.eqb c "0")
  end.

Definition all_digits (s : string) : bool :=
  match JS.take_digits s with
  | (String _ _, EmptyString) => true
  | _ => false
  end.

(** The grammar of a JSON number: an optional minus sign, an integer part,
    an optional fraction and an optional exponent. *)
Definition is_number (t : string) : bool :=
  let t := match t with String "-"%char r => r | _ => t end in
  let '(ip, r1) := JS.take_digits t in
  is_int ip &&
  let after_fraction :=
    match r1 with
    | String "."%char r =>
        let '(fp, r2) := JS.take_digits r in
        match fp with EmptyString => None | _ => Some r2 end
    | _ => Some r1
    end in
  match after_fraction with
  | None => false
  | Some EmptyString => true
  | Some (String c r) =>
      (Ascii.eqb c "e" || Ascii.eqb c "E")%char &&
      all_digits (match r with
                  | String "-"%char r' => r'
                  | String "+"%char r' => r'
                  | _ => r
                  end)
  end.

(** The Number a number token stands for. *)
Definition number_value (t : string) : option float :=
  if is_number t then Some (JS.parseFloat t) else None.









(** The digits [stringify] writes for the number [x] read back as [x]. *)
Definition reads_back (x : float) : Prop :=
  number_value (JS.Number_toString x) = Some x.

End JSON.

(** ** The page state the alert code reads and writes *)

Record State := {
  priceAlerts : list AlertRule;          (* the module-level array *)
  localStorage : gmap string string;     (* the durable local store *)
  toasts : list string;                  (* the toasts on the page; the timers
                                            that remove them are left out *)
  dialogs : list string;                 (* messages shown by alert() *)
  badge : string;                        (* text of the alert badges *)
  alertModalOpen : bool                  (* whether the alert modal is open *)
}.

Definition set_priceAlerts (l : list AlertRule) (st : State) : State :=
  {| priceAlerts := l; localStorage := localStorage st; toasts := toasts st;
     dialogs := dialogs st; badge := badge st;
     alertModalOpen := alertModalOpen st |}.

(** [localStorage.setItem(k, v)] *)
Definition setItem (k v : string) (st : State) : State :=
  {| priceAlerts := priceAlerts st; localStorage := <[k := v]> (localStorage st);
     toasts := toasts st; dialogs := dialogs st; badge := badge st;
     alertModalOpen := alertModalOpen st |}.

(** [showToast(msg)] of user-dashboard.js: the toast is added to those on
    the page. *)
Definition showToast (msg : string) (st : State) : State :=
  {| priceAlerts := priceAlerts st; localStorage := localStorage st;
     toasts := toasts st ++ [msg]; dialogs := dialogs st; badge := badge st;
     alertModalOpen := alertModalOpen st |}.

(** [alert(msg)], the browser dialog *)
Definition window_alert (msg : string) (st : State) : State :=
  {| priceAlerts := priceAlerts st; localStorage := localStorage st;
     toasts := toasts st; dialogs := dialogs st ++ [msg]; badge := badge st;
     alertModalOpen := alertModalOpen st |}.

Definition set_badge (b : string) (st : State) : State :=
  {| priceAlerts := priceAlerts st; localStorage := localStorage st;
     toasts := toasts st; dialogs := dialogs st; badge := b;
     alertModalOpen := alertModalOpen st |}.

(** [closeModal('alertModal')] *)
Definition closeAlertModal (st : State) : State :=
  {| priceAlerts := priceAlerts st; localStorage := localStorage st;
     toasts := toasts st; dialogs := dialogs st; badge := badge st;
     alertModalOpen := false |}.

(** [array.forEach(f)] where [f] may change the element it visits and the
    page state: the elements are visited in order. *)
Fixpoint forEach {A S : Type} (f : A -> S -> A * S) (l : list A) (s : S)
  : list A * S :=
  match l with
  | [] => ([], s)
  | a :: rest =>
      let '(a', s') := f a s in
      let '(rest', s'') := forEach f rest s' in
      (a' :: rest', s'')
  end.

(** ** user-dashboard.js *)

Module UserDashboard.

(** *** Search (the callback set up in [setupFilters]) *)

(** [f && f.toLowerCase().includes(sub)] for an optional string field. *)
Definition field_includes (f : option string) (sub : string) : bool :=
  JS.truthy_field f &&
  match f with Some s => JS.includes (JS.toLowerCase s) sub | None => false end.

(** The predicate handed to [allPrices.filter] for the query [q]. *)
Definition search_match (q : string) (p : PriceRecord) : bool :=
  field_includes (name p) q ||
  field_includes (retailer p) q ||
  field_includes (location p) q.

(** What one run of the search callback computes from the text of the search
    box: the records to work with (all of them when the query is empty). *)
Definition search (allPrices : list PriceRecord) (input : string)
  : list PriceRecord :=
  let q := JS.toLowerCase (JS.trim input) in
  if negb (JS.truthy_string q) then allPrices
  else List.filter (search_match q) allPrices.

(** The rows shown in the result list: at most six. *)
Definition search_shown (allPrices : list PriceRecord) (input : string)
  : list PriceRecord :=
  firstn 6 (search allPrices input).

(** *** Filters *)

(** The values of the five filter controls. *)
Record FilterInputs := {
  filterCategory : string;
  filterMinPrice : string;
  filterMaxPrice : string;
  filterRetailer : string;
  filterLocation : string
}.

(** [applyFilters()]: the records handed to [displayPrices]. *)
Definition applyFilters (inputs : FilterInputs) (allPrices : list PriceRecord)
  : list PriceRecord :=
  let categoryId := filterCategory inputs in
  let minPrice := JS.or_default (JS.parseFloat (filterMinPrice inputs)) PrimFloat.zero in
  let maxPrice := JS.or_default (JS.parseFloat (filterMaxPrice inputs)) PrimFloat.infinity in
  let retailer' := JS.toLowerCase (filterRetailer inputs) in
  let location' := JS.toLowerCase (filterLocation inputs) in
  List.filter (fun p =>
    let matchCategory :=
      negb (JS.truthy_string categoryId) ||
      String.eqb (String_of_id (category_id p)) categoryId in
    let matchPrice :=
      is_number (price p) &&
      PrimFloat.leb minPrice (price_number (price p)) &&
      PrimFloat.leb (price_number (price p)) maxPrice in
    let matchRetailer :=
      negb (JS.truthy_string retailer') || field_includes (retailer p) retailer' in
    let matchLocation :=
      negb (JS.truthy_string location') || field_includes (location p) location' in
    matchCategory && matchPrice && matchRetailer && matchLocation) allPrices.

(** *** Alerts *)

(** [updateAlertBadges()] *)
Definition updateAlertBadges (st : State) : State :=
  let active := length (List.filter (fun a => negb (triggered a)) (priceAlerts st)) in
  set_badge (match active with O => "" | _ => JS.Z_toString (Z.of_nat active) end) st.

(** [savePriceAlert()]: [now] is [Date.now()], the two strings are the values
    of the item-name and threshold inputs. *)
Definition savePriceAlert (now : Z) (alertItemName alertThreshold : string)
  (st : State) : State :=
  let itemName := JS.trim alertItemName in
  let threshold := JS.parseFloat alertThreshold in
  if negb (JS.truthy_string itemName) || PrimFloat.is_nan threshold then
    window_alert "Please fill all alert fields" st
  else
    let st := set_priceAlerts
                (priceAlerts st ++
                 [{| alert_id := now; itemName := itemName;
                     threshold := threshold; triggered := false;
                     createdAt := None |}]) st in
    let st := setItem "priceAlerts" (JSON.stringify (priceAlerts st)) st in
    let st := closeAlertModal st in
    updateAlertBadges st.

(** The predicate handed to [prices.find] for one alert. *)
Definition alert_hit (alert : AlertRule) (p : PriceRecord) : bool :=
  match name p with
  | Some n => String.eqb (JS.toLowerCase n) (JS.toLowerCase (itemName alert))
  | None => false
  end &&
  PrimFloat.leb (price_number (price p)) (threshold alert).

(** The callback of [priceAlerts.forEach] in [checkPriceAlerts]. *)
Definition check_alert (prices : list PriceRecord) (alert : AlertRule)
  (st : State) : AlertRule * State :=
  if triggered alert then (alert, st)
  else
    match List.find (alert_hit alert) prices with
    | Some hit =>
        (set_triggered alert,
         showToast ("Price alert: " +:+ itemName alert +:+ " is now " +:+
                    Utils.formatCurrency (price_to_value (price hit))) st)
    | None => (alert, st)
    end.


(** [checkPriceAlerts(prices)] *)
Definition checkPriceAlerts (prices : list PriceRecord) (st : State) : State :=
  let '(alerts, st) := forEach (check_alert prices) (priceAlerts st) st in
  let st := set_priceAlerts alerts st in
  let st := setItem "priceAlerts" (JSON.stringify (priceAlerts st)) st in
  updateAlertBadges st.

(** *** Statistics *)

(** The [reduce] of [updateStats]: the sum of [p.price || 0]. *)
Definition sum_prices (prices : list PriceRecord) : float :=
  fold_left (fun sum p => PrimFloat.add sum (price_or_zero (price p)))
            prices PrimFloat.zero.

Definition average (prices : list PriceRecord) : float :=
  match prices with
  | [] => PrimFloat.zero
  | _ => PrimFloat.div (sum_prices prices) (length_number prices)
  end.

(** [new Set(values.filter(Boolean)).size] *)
Definition distinct_count (values : list (option string)) : nat :=
  length (nodup string_dec
            (omap (fun v => match v with
                            | Some s => if JS.truthy_string s then Some s else None
                            | None => None
                            end) values)).

(** What [updateStats(prices)] writes into the four counters. *)
Record StatsView := {
  totalPrices : string;
  avgPrice : string;
  totalLocations : string;
  totalRetailers : string
}.

Definition updateStats (prices : list PriceRecord) : StatsView :=
  let avg := average prices in
  {| totalPrices := JS.Z_toString (Z.of_nat (length prices));
     avgPrice := Utils.formatCurrency (JS.Num avg);
     totalLocations := JS.Z_toString (Z.of_nat (distinct_count (map location prices)));
     totalRetailers := JS.Z_toString (Z.of_nat (distinct_count (map retailer prices))) |}.

(** [p.category_id === cat.id] *)
Definition in_category (cat : Category) (p : PriceRecord) : bool :=
  match category_id p with
  | IdNum c => (c =? cat_id cat)%Z
  | _ => false
  end.

(** One entry of [populateCategoryInsights()]: the number of prices of the
    category and the text of its average ([toFixed(2)], read back with
    [parseFloat], then formatted). *)
Definition categoryInsight (allPrices : list PriceRecord) (cat : Category)
  : nat * string :=
  let catPrices := List.filter (in_category cat) allPrices in
  let avgPrice :=
    match catPrices with
    | [] => JS.Num PrimFloat.zero
    | _ => JS.Str (JS.toFixed (PrimFloat.div (sum_prices catPrices)
                                             (length_number catPrices)) 2)
    end in
  (length catPrices,
   Utils.formatCurrency (JS.Num (JS.parseFloat (JS.ToString avgPrice)))).

(** *** The search box: the [input] listener of [setupFilters] *)

(** The timers, the listener's variable [timeout], the text of the search
    box, the snapshot, and the evaluations made so far: each with its query
    and the records it matched. *)
Record page := {
  loop : EventLoop.loop unit;
  timeout : option nat;
  searchInput : string;
  allPrices : list PriceRecord;
  evaluations : list (string * list PriceRecord)
}.

(** The callback given to [setTimeout]: it reads the box when it runs. *)
Definition search_callback (pg : page) : page :=
  {| loop := loop pg; timeout := timeout pg; searchInput := searchInput pg;
     allPrices := allPrices pg;
     evaluations := evaluations pg ++
                    [(JS.toLowerCase (JS.trim (searchInput pg)),
                      search (allPrices pg) (searchInput pg))] |}.

(** The user changes the text to [v] and the listener runs. *)
Definition on_input (v : string) (pg : page) : page :=
  let l := EventLoop.clearTimeout (timeout pg) (loop pg) in
  let '(h, l) := EventLoop.setTimeout tt 200 l in
  {| loop := l; timeout := Some h; searchInput := v;
     allPrices := allPrices pg; evaluations := evaluations pg |}.

Fixpoint run_due (fuel : nat) (t : Z) (pg : page) : page :=
  match fuel with
  | O => pg
  | S fuel' =>
      match EventLoop.next_due t (loop pg) with
      | Some tm =>
          run_due fuel' t
            (search_callback
               {| loop := EventLoop.fire tm (loop pg); timeout := timeout pg;
                  searchInput := searchInput pg; allPrices := allPrices pg;
                  evaluations := evaluations pg |})
      | None => pg
      end
  end.

(** Time moves on to [t]: the timers due by then run, earliest first. *)
Definition advance (t : Z) (pg : page) : page :=
  let pg := run_due (length (EventLoop.pending (loop pg))) t pg in
  {| loop := EventLoop.settle t (loop pg); timeout := timeout pg;
     searchInput := searchInput pg; allPrices := allPrices pg;
     evaluations := evaluations pg |}.

(** An input event at time [t], or time passing until [t] with none. *)
Inductive event := Input (t : Z) (v : string) | Idle (t : Z).

Definition step (pg : page) (e : event) : page :=
  match e with
  | Input t v => on_input v (advance t pg)
  | Idle t => advance t pg
  end.

Definition run (es : list event) (pg : page) : page := fold_left step es pg.

(** The page once the listener is installed. *)
Definition start (prices : list PriceRecord) : page :=
  {| loop := EventLoop.fresh; timeout := None; searchInput := "";
     allPrices := prices; evaluations := [] |}.

End UserDashboard.

(** ** admin-dashboard.js *)

Module AdminDashboard.

(** *** Search (the callback set up in [setupGlobalSearch]) *)

Definition search_match (query : string) (p : PriceRecord) : bool :=
  UserDashboard.field_includes (name p) query ||
  UserDashboard.field_includes (retailer p) query ||
  UserDashboard.field_includes (location p) query ||
  UserDashboard.field_includes (brand p) query.

Definition search (allPrices : list PriceRecord) (input : string)
  : list PriceRecord :=
  let query := JS.toLowerCase (JS.trim input) in
  if negb (JS.truthy_string query) then allPrices
  else List.filter (search_match query) allPrices.

(** *** Alerts *)

(** [showToast(message, type, duration)] of utils.js, which this page
    imports: every toast on the page is removed before the new one is added.
    All toasts of this page are made by it; the type and the duration are
    left out. *)
Definition showToast (message : string) (st : State) : State :=
  {| priceAlerts := priceAlerts st; localStorage := localStorage st;
     toasts := [message]; dialogs := dialogs st; badge := badge st;
     alertModalOpen := alertModalOpen st |}.

(** [updateAlertBadges()] *)
Definition updateAlertBadges (st : State) : State :=
  let activeCount :=
    length (List.filter (fun a => negb (triggered a)) (priceAlerts st)) in
  set_badge (match activeCount with
             | O => ""
             | _ => JS.Z_toString (Z.of_nat activeCount)
             end) st.

(** [savePriceAlert()]: [now] is [Date.now()] and [nowISO] is
    [new Date().toISOString()]. *)
Definition savePriceAlert (now : Z) (nowISO : string)
  (alertItemName alertThreshold : string) (st : State) : State :=
  let itemName := JS.trim alertItemName in
  let threshold := JS.parseFloat alertThreshold in
  if negb (JS.truthy_string itemName) || PrimFloat.is_nan threshold ||
     PrimFloat.leb threshold PrimFloat.zero then
    showToast "Please fill all alert fields correctly" st
  else
    let st := set_priceAlerts
                (priceAlerts st ++
                 [{| alert_id := now; itemName := itemName;
                     threshold := threshold; triggered := false;
                     createdAt := Some nowISO |}]) st in
    let st := setItem "priceAlerts" (JSON.stringify (priceAlerts st)) st in
    let st := closeAlertModal st in
    let st := updateAlertBadges st in
    showToast ("Alert set for " +:+ itemName) st.

(** The callback of [priceAlerts.forEach] in [checkPriceAlerts]; the state
    carries the local counter [triggered] along. *)
Definition check_alert (prices : list PriceRecord) (alert : AlertRule)
  (s : nat * State) : AlertRule * (nat * State) :=
  let '(count, st) := s in
  if triggered alert then (alert, s)
  else
    match List.find (UserDashboard.alert_hit alert) prices with
    | Some match_ =>
        (set_triggered alert,
         (S count,
          showToast ("🔔 Price Alert: " +:+ itemName alert +:+ " is now " +:+
                     Utils.formatCurrency (price_to_value (price match_)) +:+ "!")
                    st))
    | None => (alert, s)
    end.

(** [checkPriceAlerts(prices)]: the rules are written back only when some
    rule was triggered by this call. *)
Definition checkPriceAlerts (prices : list PriceRecord) (st : State) : State :=
  let '(alerts, (count, st)) :=
    forEach (check_alert prices) (priceAlerts st) (O, st) in
  let st := set_priceAlerts alerts st in
  match count with
  | O => st
  | _ =>
      let st := setItem "priceAlerts" (JSON.stringify (priceAlerts st)) st in
      updateAlertBadges st
  end.

(** [window.deleteAlert(alertId)] *)
Definition deleteAlert (alertId : Z) (st : State) : State :=
  let st := set_priceAlerts
              (List.filter (fun a => negb (alert_id a =? alertId)%Z)
                           (priceAlerts st)) st in
  let st := setItem "priceAlerts" (JSON.stringify (priceAlerts st)) st in
  let st := updateAlertBadges st in
  showToast "Alert deleted" st.

(** *** Statistics *)

(** [Math.min(a, b)] and [Math.max(a, b)]: [NaN] if either is, and [-0]
    below [+0]. *)
Definition Math_min2 (a b : float) : float :=
  if PrimFloat.is_nan a || PrimFloat.is_nan b then PrimFloat.nan
  else if PrimFloat.ltb a b then a
  else if PrimFloat.ltb b a then b
  else if PrimFloat.get_sign a then a else b.

Definition Math_max2 (a b : float) : float :=
  if PrimFloat.is_nan a || PrimFloat.is_nan b then PrimFloat.nan
  else if PrimFloat.ltb a b then b
  else if PrimFloat.ltb b a then a
  else if PrimFloat.get_sign a then b else a.

(** [Math.min(...xs)] and [Math.max(...xs)] *)
Definition Math_min (xs : list float) : float :=
  fold_left Math_min2 xs PrimFloat.infinity.

Definition Math_max (xs : list float) : float :=
  fold_left Math_max2 xs PrimFloat.neg_infinity.

(** The figures of one category in [populateCategoryInsights()]. *)
Record CategoryStats := {
  count : nat;
  avgPrice : float;
  minPrice : float;
  maxPrice : float
}.

Definition categoryStats (allPrices : list PriceRecord) (cat : Category)
  : CategoryStats :=
  let catPrices := List.filter (UserDashboard.in_category cat) allPrices in
  let values := map (fun p => price_or_zero (price p)) catPrices in
  {| count := length catPrices;
     avgPrice := match catPrices with
                 | [] => PrimFloat.zero
                 | _ => PrimFloat.div (UserDashboard.sum_prices catPrices)
                                      (length_number catPrices)
                 end;
     minPrice := match catPrices with [] => PrimFloat.zero | _ => Math_min values end;
     maxPrice := match catPrices with [] => PrimFloat.zero | _ => Math_max values end |}.

(** The four lines shown for the category. *)
Definition categoryInsight (allPrices : list PriceRecord) (cat : Category)
  : list string :=
  let s := categoryStats allPrices cat in
  [ JS.Z_toString (Z.of_nat (count s));
    Utils.formatCurrency (JS.Num (avgPrice s));
    Utils.formatCurrency (JS.Num (minPrice s));
    Utils.formatCurrency (JS.Num (maxPrice s)) ].

(** [updateStats(prices)]: the same four counters as on the user dashboard. *)
Definition updateStats (prices : list PriceRecord) : UserDashboard.StatsView :=
  let avgPrice := UserDashboard.average prices in
  {| UserDashboard.totalPrices := JS.Z_toString (Z.of_nat (length prices));
     UserDashboard.avgPrice := Utils.formatCurrency (JS.Num avgPrice);
     UserDashboard.totalLocations :=
       JS.Z_toString (Z.of_nat (UserDashboard.distinct_count (map location prices)));
     UserDashboard.totalRetailers :=
       JS.Z_toString (Z.of_nat (UserDashboard.distinct_count (map retailer prices))) |}.

End AdminDashboard.

(** ** The properties, in the words of the specification *)

Module Spec.

(** *** Case-insensitive comparison *)

(** Two strings are equal up to the case of their letters. *)
Definition ci_equal (s t : string) : Prop :=
  JS.toLowerCase s = JS.toLowerCase t.

(** [s] contains [sub] case-insensitively: some stretch of [s] equals [sub]
    up to case. *)
Definition ci_contains (s sub : string) : Prop :=
  exists pre mid post, s = pre +:+ mid +:+ post /\ ci_equal mid sub.

(** An optional field contains [sub] case-insensitively. *)
Definition field_contains (f : option string) (sub : string) : Prop :=
  exists s, f = Some s /\ ci_contains s sub.

(** *** The rolling hash *)

(** The 32-bit signed integer congruent to [z] modulo 2^32. *)
Definition signed32 (z : Z) : Z :=
  let r := (z mod 2 ^ 32)%Z in
  if (r <? 2 ^ 31)%Z then r else (r - 2 ^ 32)%Z.

(** [h <- ((h << 5) - h) + charCode], over the code units, in 32 bits. *)
Fixpoint rolling_hash (h : Z) (units : list Z) : Z :=
  match units with
  | [] => h
  | c :: rest => rolling_hash (signed32 (h * 2 ^ 5 - h + c)) rest
  end.

(** *** Search *)

(** A record matches a query when its name, retailer, location or brand
    contains the query case-insensitively. *)
Definition search_hit (query : string) (p : PriceRecord) : Prop :=
  field_contains (name p) query \/ field_contains (retailer p) query \/
  field_contains (location p) query \/ field_contains (brand p) query.

(** The matches of the user dashboard's search: the brand is not looked at. *)
Definition search_hit_without_brand (query : string) (p : PriceRecord) : Prop :=
  field_contains (name p) query \/ field_contains (retailer p) query \/
  field_contains (location p) query.

(** *** Filter criteria *)

(** The criteria of a filter; [None] is an unset category or bound. *)
Record FilterCriteria := {
  categoryId : option string;
  minPrice : option float;
  maxPrice : option float;
  retailerSubstring : string;
  locationSubstring : string
}.

(** A record matches the criteria when all four conditions hold; the price
    bounds default to 0 and +infinity, and only a numeric price lies in a
    range. *)
Definition filter_match (c : FilterCriteria) (p : PriceRecord) : Prop :=
  (categoryId c = None \/ categoryId c = Some (String_of_id (category_id p))) /\
  (exists x, price p = PNum x /\
     PrimFloat.leb (default PrimFloat.zero (minPrice c)) x = true /\
     PrimFloat.leb x (default PrimFloat.infinity (maxPrice c)) = true) /\
  (retailerSubstring c = "" \/ field_contains (retailer p) (retailerSubstring c)) /\
  (locationSubstring c = "" \/ field_contains (location p) (locationSubstring c)).

(** A bound typed into a filter control: unset when the text is no number. *)
Definition bound (text : string) : option float :=
  let x := JS.parseFloat text in
  if PrimFloat.is_nan x then None else Some x.

(** The category picked in the filter control: unset on the empty entry. *)
Definition chosen (text : string) : option string :=
  if JS.truthy_string text then Some text else None.

(** The criteria the five filter controls stand for. *)
Definition criteria (inputs : UserDashboard.FilterInputs) : FilterCriteria :=
  {| categoryId := chosen (UserDashboard.filterCategory inputs);
     minPrice := bound (UserDashboard.filterMinPrice inputs);
     maxPrice := bound (UserDashboard.filterMaxPrice inputs);
     retailerSubstring := UserDashboard.filterRetailer inputs;
     locationSubstring := UserDashboard.filterLocation inputs |}.

(** *** Alert evaluation *)

(** Some record of the snapshot has the rule's item name, up to case, and a
    price at or below the rule's threshold. *)
Definition qualifying (prices : list PriceRecord) (r : AlertRule) : Prop :=
  exists p n x,
    In p prices /\ name p = Some n /\ ci_equal n (itemName r) /\
    price p = PNum x /\ PrimFloat.leb x (threshold r) = true.

(** A page state with nothing in it. *)
Definition blank : State :=
  {| priceAlerts := []; localStorage := ∅; toasts := []; dialogs := [];
     badge := ""; alertModalOpen := false |}.

(** What one evaluation makes of a rule, and the notifications it emits for
    that rule: the two effects of the [forEach] callback. *)
Definition rule_after (prices : list PriceRecord) (a : AlertRule) : AlertRule :=
  fst (UserDashboard.check_alert prices a blank).

Definition notified (prices : list PriceRecord) (a : AlertRule) : list string :=
  toasts (snd (UserDashboard.check_alert prices a blank)).

(** The state with further notifications shown. *)
Definition with_toasts (msgs : list string) (st : State) : State :=
  {| priceAlerts := priceAlerts st; localStorage := localStorage st;
     toasts := toasts st ++ msgs; dialogs := dialogs st; badge := badge st;
     alertModalOpen := alertModalOpen st |}.

(** Whether an evaluation against [prices] triggers the rule [a]. *)
Definition newly_triggered (prices : list PriceRecord) (a : AlertRule) : bool :=
  negb (triggered a) && existsb (UserDashboard.alert_hit a) prices.

(** The toast the other dashboard shows for one rule, if it shows one. *)
Definition admin_notified (prices : list PriceRecord) (a : AlertRule)
  : list string :=
  toasts (snd (snd (AdminDashboard.check_alert prices a (O, blank)))).

(** The state with the toasts [ts] on the page. *)
Definition showing (ts : list string) (st : State) : State :=
  {| priceAlerts := priceAlerts st; localStorage := localStorage st;
     toasts := ts; dialogs := dialogs st; badge := badge st;
     alertModalOpen := alertModalOpen st |}.

(** *** The life of a rule *)

(** What can happen to the rule list: a rule is created on either
    dashboard, the rules are evaluated on either dashboard, or a rule is
    deleted. *)
Inductive operation :=
| Create (now : Z) (itemName threshold : string)
| CreateAdmin (now : Z) (nowISO itemName threshold : string)
| Evaluate (prices : list PriceRecord)
| EvaluateAdmin (prices : list PriceRecord)
| Delete (alertId : Z).

Definition apply (st : State) (op : operation) : State :=
  match op with
  | Create now n t => UserDashboard.savePriceAlert now n t st
  | CreateAdmin now iso n t => AdminDashboard.savePriceAlert now iso n t st
  | Evaluate prices => UserDashboard.checkPriceAlerts prices st
  | EvaluateAdmin prices => AdminDashboard.checkPriceAlerts prices st
  | Delete i => AdminDashboard.deleteAlert i st
  end.

Definition run (ops : list operation) (st : State) : State :=
  fold_left apply ops st.

(** *** Debouncing *)

(** Events at increasing times, each less than [wait] after the one before
    it; [t] is the time of the event before the first of [rest]. *)
Fixpoint within_window {A : Type} (wait t : Z) (rest : list (Z * A)) : Prop :=
  match rest with
  | [] => True
  | (t', _) :: rest' => (t <= t' < t + wait)%Z /\ within_window wait t' rest'
  end.

(** The listener's timer is the only one pending: it is due at [d], the
    search box reads [v], and the evaluations so far are [E]. *)
Definition armed (pg : UserDashboard.page) (d : Z) (v : string)
  (E : list (string * list PriceRecord)) (P : list PriceRecord) : Prop :=
  exists h,
    EventLoop.pending (UserDashboard.loop pg) =
      [{| EventLoop.handle := h; EventLoop.due := d; EventLoop.callback := tt |}] /\
    UserDashboard.timeout pg = Some h /\
    UserDashboard.searchInput pg = v /\
    UserDashboard.evaluations pg = E /\
    UserDashboard.allPrices pg = P.

(** The input events of a typing session. *)
Definition inputs (l : list (Z * string)) : list UserDashboard.event :=
  map (fun tv => UserDashboard.Input (fst tv) (snd tv)) l.

(** The same for a function made by [debounce]: the timer of the latest
    call, with the arguments it captured, is the only one pending. *)
Definition armed_call {A U : Type} (d : @Utils.debounced A U) (due : Z)
  (args : A) (u : U) : Prop :=
  exists h,
    EventLoop.pending (Utils.loop d) =
      [{| EventLoop.handle := h; EventLoop.due := due;
          EventLoop.callback := args |}] /\
    Utils.timeout d = Some h /\
    Utils.target d = u.

(** The calls of a burst. *)
Definition calls {A : Type} (l : list (Z * A)) : list (@Utils.call A) :=
  map (fun ta => Utils.Call (fst ta) (snd ta)) l.

(** *** The shape of a formatted amount *)

Fixpoint digits_only (s : string) : bool :=
  match s with
  | EmptyString => true
  | String c s' => JS.is_digit c && digits_only s'
  end.

(** [out] shows the digits [ds] with thousands separators: a first group of
    one to three digits, then groups of three, with a comma between any two
    groups. *)
Definition grouped (ds out : string) : Prop :=
  exists first rest,
    (1 <= String.length first <= 3)%nat /\
    Forall (fun g => String.length g = 3%nat) rest /\
    ds = JS.join "" (first :: rest) /\
    out = JS.join "," (first :: rest).

(** An amount with two decimal places and thousands separators: the naira
    sign, a minus sign if negative, the grouped integer digits, a point and
    two digits. *)
Definition currency_shape (s : string) : Prop :=
  exists (neg : bool) (ds out : string) (d1 d2 : ascii),
    s = "₦" +:+ (if neg then "-" else "") +:+ out +:+ "." +:+
        String d1 (String d2 "") /\
    ds <> "" /\ digits_only ds = true /\ grouped ds out /\
    JS.is_digit d1 = true /\ JS.is_digit d2 = true.

(** [n] is the integer nearest to [100 * |x|], the larger one on a tie, for
    a finite [x] of magnitude [m * 2^e]. *)
Definition hundredths (x : float) (n : Z) : Prop :=
  match Prim2SF x with
  | S754_zero _ => n = 0%Z
  | S754_finite _ m e =>
      if (0 <=? e)%Z
      then (2 * n - 1 <= 200 * Z.pos m * 2 ^ e < 2 * n + 1)%Z
      else ((2 * n - 1) * 2 ^ (- e) <= 200 * Z.pos m < (2 * n + 1) * 2 ^ (- e))%Z
  | _ => False
  end.

(** [s] shows the amount of [n] hundredths: the naira sign, a minus sign if
    [neg], the decimal digits of [n] but for the last two, without leading
    zeros and with thousands separators, a point and the last two digits
    of [n]. *)
Definition amount_text (neg : bool) (n : Z) (s : string) : Prop :=
  exists (ds out : string) (d1 d2 : ascii),
    s = "₦" +:+ (if neg then "-" else "") +:+ out +:+ "." +:+
        String d1 (String d2 "") /\
    Spec.digits_only (ds +:+ String d1 (String d2 "")) = true /\
    JS.digits_value 0 (ds +:+ String d1 (String d2 "")) = n /\
    (ds = "0" \/ exists c r, ds = String c r /\ c <> "0"%char) /\
    Spec.grouped ds out.

(** The first [k] groups of three characters of [z]. *)
Fixpoint chunks3 (k : nat) (z : string) : list string :=
  match k with
  | O => []
  | S k' => JS.take 3 z :: chunks3 k' (JS.drop 3 z)
  end.

(** The last character of [z], or [p] when [z] is empty. *)
Fixpoint last_char (z : string) (p : ascii) : ascii :=
  match z with
  | EmptyString => p
  | String c z' => last_char z' c
  end.

End Spec.

(** ** Sample data *)

Module Sample.

(** A record the brand of which is the only field that contains "mama". *)
Definition mama_gold_rice : PriceRecord :=
  {| record_id := 1; category_id := IdNum 1; name := Some "Rice";
     brand := Some "Mama Gold"; retailer := Some "Campus Mart";
     location := Some "Akoka"; price := PNum 1500 |}.

(** Filter controls with a maximum price of 0 and nothing else set. *)
Definition max_zero : UserDashboard.FilterInputs :=
  {| UserDashboard.filterCategory := "";
     UserDashboard.filterMinPrice := "";
     UserDashboard.filterMaxPrice := "0";
     UserDashboard.filterRetailer := "";
     UserDashboard.filterLocation := "" |}.

(** Filter controls as a user fills them in. *)
Definition rice_filter : UserDashboard.FilterInputs :=
  {| UserDashboard.filterCategory := "1";
     UserDashboard.filterMinPrice := "1000";
     UserDashboard.filterMaxPrice := "2000";
     UserDashboard.filterRetailer := "campus";
     UserDashboard.filterLocation := "AKOKA" |}.

(** The scenario of the specification: two records named "Rice" and one
    untriggered rule for "rice" at 1000. *)
Definition rice (p : float) : PriceRecord :=
  {| record_id := 7; category_id := IdNum 1; name := Some "Rice";
     brand := None; retailer := None; location := None; price := PNum p |}.

Definition snapshot : list PriceRecord := [rice 500; rice 1500].

Definition rice_rule : AlertRule :=
  {| alert_id := 1700000000000; itemName := "rice"; threshold := 1000;
     triggered := false; createdAt := None |}.

Definition beans_rule : AlertRule :=
  {| alert_id := 1700000000001; itemName := "beans"; threshold := 300;
     triggered := false; createdAt := None |}.

Definition watching : State :=
  {| priceAlerts := [beans_rule; rice_rule]; localStorage := ∅; toasts := [];
     dialogs := []; badge := "2"; alertModalOpen := false |}.

(** A category no record of the snapshot belongs to. *)
Definition drinks : Category := {| cat_id := 9; cat_name := "Drinks" |}.

(** Typing "a", "ap", "app" 50 ms apart. *)
Definition typing : list (Z * string) := [(50, "ap"); (100, "app")]%Z.

End Sample.

(** ** Further built-ins *)

Module Host.

(** ToBoolean of a value. *)
Definition truthy (v : JS.value) : bool :=
  match v with
  | JS.Undefined | JS.Null => false
  | JS.Bool b => b
  | JS.Num x => JS.truthy_number x
  | JS.Str s => JS.truthy_string s
  end.

(** [a === b] for two optional strings ([null] is [None]). *)
Definition same (a b : option string) : bool :=
  match a, b with
  | Some x, Some y => String.eqb x y
  | None, None => true
  | _, _ => false
  end.

(** [s.length] as a Number. *)
Definition string_length (s : string) : float :=
  PrimFloat.of_uint63 (Uint63.of_Z (Z.of_nat (String.length s))).

(** The store behind [localStorage] and its four methods. *)
Definition getItem (k : string) (ls : gmap string string) : option string := ls !! k.

Definition setItem (k v : string) (ls : gmap string string) : gmap string string := <[k := v]> ls.

Definition removeItem (k : string) (ls : gmap string string) : gmap string string := delete k ls.

Definition clear (ls : gmap string string) : gmap string string := ∅.

End Host.

(** ** storage.js, the redirect module and the access guards *)

Module Session.

Section Session.
(** The values [JSON.parse] produces, with the two functions of the host:
    [JSON_parse] is [None] when [JSON.parse] throws. *)
Context {J : Type}.
Variable JSON_parse : string -> option J.
Variable JSON_stringify : J -> string.

(** [Object.values(SESSION_KEYS)] *)
Definition SESSION_KEYS : list string :=
  ["userId"; "userName"; "userRole"; "loginToken"; "userData"].

(** The argument of [saveSession]; [extra_userData] is [extra.userData] when
    it is there and truthy. *)
Record SessionArgs := {
  id : JS.value;
  username : JS.value;
  role : JS.value;
  token : JS.value;
  extra_userData : option J
}.

(** [saveSession({ id, username, role = 'user', token, extra = {} })] *)
Definition saveSession (a : SessionArgs) (ls : gmap string string) : gmap string string :=
  let role := match role a with JS.Undefined => JS.Str "user" | r => r end in
  let ls := if Host.truthy (id a)
            then Host.setItem "userId" (JS.ToString (id a)) ls else ls in
  let ls := if Host.truthy (username a)
            then Host.setItem "userName" (JS.ToString (username a)) ls else ls in
  let ls := if Host.truthy role
            then Host.setItem "userRole" (JS.ToString role) ls else ls in
  let ls := if Host.truthy (token a)
            then Host.setItem "loginToken" (JS.ToString (token a)) ls else ls in
  match extra_userData a with
  | Some d => Host.setItem "userData" (JSON_stringify d) ls
  | None => ls
  end.

(** [clearSession()] *)
Definition clearSession (ls : gmap string string) : gmap string string :=
  fold_left (fun ls k => Host.removeItem k ls) SESSION_KEYS ls.

(** What [getSession()] returns. *)
Record SessionData := {
  s_id : option string;
  s_name : option string;
  s_role : option string;
  s_token : option string;
  s_userData : option J
}.

Definition getSession (ls : gmap string string) : SessionData :=
  {| s_id := Host.getItem "userId" ls;
     s_name := Host.getItem "userName" ls;
     s_role := Host.getItem "userRole" ls;
     s_token := Host.getItem "loginToken" ls;
     s_userData :=
       let d := Host.getItem "userData" ls in
       if JS.truthy_field d
       then match d with Some d => JSON_parse d | None => None end
       else None |}.

(** [appPath(page)]; [pathname] is [window.location.pathname]. *)
Definition appPath (pathname page : string) : string :=
  let base := if JS.includes pathname "/Frontend/" then "/Frontend/" else "/" in
  base +:+ page.

(** [autoRedirectIfLogged()]: the address [window.location.href] is set to,
    if it is set. *)
Definition autoRedirectIfLogged (pathname : string) (ls : gmap string string)
  : option string :=
  let session := getSession ls in
  if JS.truthy_field (s_role session) && JS.truthy_field (s_token session) then
    if Host.same (s_role session) (Some "admin")
    then Some (appPath pathname "admin-dashboard.html")
    else Some (appPath pathname "user-dashboard.html")
  else None.

(** [guardAccess()] of the user dashboard: where it sends the browser, if
    anywhere. *)
Definition guardAccess (pathname : string) (ls : gmap string string) : option string :=
  let session := getSession ls in
  if negb (JS.truthy_field (s_role session)) ||
     negb (Host.same (s_role session) (Some "user")) ||
     negb (JS.truthy_field (s_token session))
  then Some (appPath pathname "login.html")
  else None.

(** The browser as the admin guard and the logout actions leave it: the
    store, the address navigated to and the dialogs shown. *)
Record Browser := {
  store : gmap string string;
  href : option string;
  shown : list string
}.

(** [guardAccess()] of the admin dashboard. *)
Definition admin_guardAccess (ls : gmap string string) : Browser :=
  let role := Host.getItem "userRole" ls in
  if negb (Host.same role (Some "admin")) then
    {| store := Host.clear ls; href := Some "login.html";
       shown := ["❌ Access Denied. Admin access required."] |}
  else {| store := ls; href := None; shown := [] |}.

(** The [logout] action of the user dashboard, and [logout()] of the admin
    dashboard. *)
Definition logout (pathname : string) (ls : gmap string string) : Browser :=
  {| store := Host.clear ls; href := Some (appPath pathname "login.html");
     shown := [] |}.

(** *** Registration and login (user_register.js, user_login.js and the
    admin login module) *)

(** The body of the server's reply as the three handlers read it: an object
    with these fields, each of which is a primitive value or is missing
    ([undefined]). *)
Record AuthData := {
  detail : JS.value;
  user_id : JS.value;
  user_name : JS.value;
  user_role : JS.value;
  login_token : JS.value;
  admin_id : JS.value;
  admin_name : JS.value
}.

(** What comes of a request: [fetch] or [resp.json()] throws an error with
    the message [message], or a response arrives with a body. *)
Inductive reply :=
| Failure (message : string)
| Response (ok : bool) (data : AuthData).

(** What a handler leaves behind: the request it sent, if any, as the
    username and the secret in its body; the calls of [showStatus], each
    with its type and message; the store; and the address the browser is
    sent to 800 ms later, if any.  The loading state of the button is left
    out. *)
Record Outcome := {
  request : option (string * string);
  status : list (string * string);
  stored : gmap string string;
  redirect : option string
}.

(** [v || d] for a value [v] and a string [d]. *)
Definition or_text (v : JS.value) (d : string) : JS.value :=
  if Host.truthy v then v else JS.Str d.

(** [registerUser()]; the three strings are the values of the form's
    inputs, [server] gives the reply to a request. *)
Definition registerUser (regUsername regPassword regPasswordConfirm : string)
  (server : string -> string -> reply) (pathname : string)
  (ls : gmap string string) : Outcome :=
  let username := JS.trim regUsername in
  let password := regPassword in
  let passwordConfirm := regPasswordConfirm in
  if negb (JS.truthy_string username) || negb (JS.truthy_string password) ||
     negb (JS.truthy_string passwordConfirm) then
    {| request := None; status := [("error", "❌ Please fill all fields")];
       stored := ls; redirect := None |}
  else if negb (String.eqb password passwordConfirm) then
    {| request := None; status := [("error", "❌ Passwords do not match")];
       stored := ls; redirect := None |}
  else if (String.length password <? 4)%nat then
    {| request := None;
       status := [("error", "❌ Password must be at least 4 characters")];
       stored := ls; redirect := None |}
  else
    match server username password with
    | Failure message =>
        {| request := Some (username, password);
           status := [("error", "❌ " +:+ message)];
           stored := ls; redirect := None |}
    | Response ok data =>
        if negb ok then
          {| request := Some (username, password);
             status := [("error", "❌ " +:+
                          JS.ToString (or_text (detail data) "Registration failed"))];
             stored := ls; redirect := None |}
        else
          let ls := Host.setItem "userId" (JS.ToString (user_id data)) ls in
          let ls := Host.setItem "userName" (JS.ToString (user_name data)) ls in
          let ls := Host.setItem "userRole" (JS.ToString (user_role data)) ls in
          let ls := Host.setItem "loginToken" (JS.ToString (login_token data)) ls in
          {| request := Some (username, password);
             status := [("success", "✅ Account created! Logging in...")];
             stored := ls;
             redirect := Some (appPath pathname "user-dashboard.html") |}
    end.

(** [loginUser()] *)
Definition loginUser (userUsername userPassword : string)
  (server : string -> string -> reply) (pathname : string)
  (ls : gmap string string) : Outcome :=
  let username := JS.trim userUsername in
  let password := userPassword in
  if negb (JS.truthy_string username) || negb (JS.truthy_string password) then
    {| request := None;
       status := [("error", "❌ Please enter username and password")];
       stored := ls; redirect := None |}
  else
    match server username password with
    | Failure message =>
        {| request := Some (username, password);
           status := [("error", "❌ " +:+ message)];
           stored := ls; redirect := None |}
    | Response ok data =>
        if negb ok then
          {| request := Some (username, password);
             status := [("error", "❌ " +:+
                          JS.ToString (or_text (detail data) "Invalid credentials"))];
             stored := ls; redirect := None |}
        else
          {| request := Some (username, password);
             status := [("success", "✅ Login successful! Redirecting...")];
             stored := saveSession {| id := user_id data;
                                      username := user_name data;
                                      role := user_role data;
                                      token := login_token data;
                                      extra_userData := None |} ls;
             redirect := Some (appPath pathname "user-dashboard.html") |}
    end.

(** [loginAdmin()]; [now1] and [now2] are the two readings of
    [Date.now()]. *)
Definition loginAdmin (adminUsername adminKey : string)
  (server : string -> string -> reply) (now1 now2 : float) (pathname : string)
  (ls : gmap string string) : Outcome :=
  let username := JS.trim adminUsername in
  let apiKey := JS.trim adminKey in
  if negb (JS.truthy_string username) || negb (JS.truthy_string apiKey) then
    {| request := None;
       status := [("error", "❌ Please enter both username and API key")];
       stored := ls; redirect := None |}
  else
    match server username apiKey with
    | Failure message =>
        {| request := Some (username, apiKey);
           status := [("error", "❌ Connection error. Backend running?")];
           stored := ls; redirect := None |}
    | Response ok data =>
        if ok then
          {| request := Some (username, apiKey);
             status := [("success", "✅ Admin login successful! Redirecting...")];
             stored :=
               saveSession
                 {| id := if Host.truthy (admin_id data) then admin_id data
                          else JS.Num now1;
                    username := or_text (admin_name data) username;
                    role := JS.Str "admin";
                    token := or_text (login_token data)
                               ("adm_" +:+ JS.Number_toString now2);
                    extra_userData := None |} ls;
             redirect := Some (appPath pathname "admin-dashboard.html") |}
        else
          {| request := Some (username, apiKey);
             status := [("error", "❌ " +:+
                          JS.ToString (or_text (detail data) "Invalid credentials"))];
             stored := ls; redirect := None |}
    end.

End Session.

End Session.

(** ** utils.js: the storage wrapper *)

Module SafeStorage.

(** What [safeLocalStorage] returns: [null], [true], or the string read. *)
Inductive returned :=
| RNull
| RTrue
| RText (s : string).

(** The toast shown when the store fails, with its type. *)
Definition unavailable : string * string :=
  ("Storage unavailable. Some features may not work.", "warning").

(** [safeLocalStorage(operation, key, value = null)]: what it returns, the
    store and the toasts shown.  [throws] tells whether the call made on
    [localStorage] throws. *)
Definition safeLocalStorage (throws : bool) (operation key : string)
  (value : JS.value) (ls : gmap string string)
  : returned * gmap string string * list (string * string) :=
  let value := match value with JS.Undefined => JS.Null | v => v end in
  if String.eqb operation "get" then
    if throws then (RNull, ls, [unavailable])
    else (match Host.getItem key ls with Some s => RText s | None => RNull end,
          ls, [])
  else if String.eqb operation "set" then
    if throws then (RNull, ls, [unavailable])
    else (RTrue, Host.setItem key (JS.ToString value) ls, [])
  else if String.eqb operation "remove" then
    if throws then (RNull, ls, [unavailable])
    else (RTrue, Host.removeItem key ls, [])
  else if String.eqb operation "clear" then
    if throws then (RNull, ls, [unavailable])
    else (RTrue, Host.clear ls, [])
  else (RNull, ls, []).

End SafeStorage.

(** ** utils.js: relative times *)

Module Dates.

(** What [timeAgo] makes of its argument: a falsy one, one that [new Date]
    cannot read (its time value is [NaN]), or a date with its time value in
    milliseconds. *)
Inductive date :=
| Missing
| Invalid
| At (time : Z).

(** [Object.entries(intervals)] *)
Definition intervals : list (string * Z) :=
  [("year", 31536000); ("month", 2592000); ("week", 604800);
   ("day", 86400); ("hour", 3600); ("minute", 60)]%Z.

(** The [for] loop over the intervals: the text for the first unit of which
    at least one fits into [seconds]. *)
Fixpoint first_interval (seconds : Z) (l : list (string * Z)) : option string :=
  match l with
  | [] => None
  | (unit, secondsInUnit) :: rest =>
      let interval := (seconds / secondsInUnit)%Z in
      if (1 <=? interval)%Z then
        Some (JS.Z_toString interval +:+ " " +:+ unit +:+
              (if (1 <? interval)%Z then "s" else "") +:+ " ago")
      else first_interval seconds rest
  end.

(** [timeAgo(date)]; [now] is the time value of [new Date()].  Time values
    are whole numbers of milliseconds; the subtraction, the two divisions
    and [Math.floor] are those of the integers as long as the two dates are
    less than [2^53] ms apart, which any date is from a present within some
    10 000 years of 1970. *)
Definition timeAgo (now : Z) (d : date) : string :=
  match d with
  | Missing => "N/A"
  | Invalid => "Invalid date"
  | At time =>
      let seconds := ((now - time) / 1000)%Z in
      match first_interval seconds intervals with
      | Some text => text
      | None => "just now"
      end
  end.

End Dates.

(** ** utils.js: fetching with retries *)

Module Fetch.

Section SafeFetch.
(** The values [response.json()] resolves to, and the values thrown by the
    host (a failed request, a body that is not JSON). *)
Context {J E : Type}.

(** [errorData.detail]: reading it throws when the body is [null];
    otherwise it is falsy ([None]) or truthy, with its text. *)
Variable detail : J -> E + option string.

(** What comes of one call of [fetch]: it rejects, or a response arrives
    with its [ok] flag, its status and what [response.json()] settles to. *)
Inductive reply :=
| Rejects (e : E)
| Responds (ok : bool) (status : Z) (json : E + J).

(** What is thrown: an [Error] made by [safeFetch], or a value of the
    host. *)
Inductive thrown :=
| HttpError (message : string)
| Raised (e : E).

(** The body of the [try]: the value returned or what is thrown. *)
Definition attempt (r : reply) : thrown + J :=
  match r with
  | Rejects e => inl (Raised e)
  | Responds ok status json =>
      if negb ok then
        let fallback := "HTTP error! status: " +:+ JS.Z_toString status in
        match json with
        | inl _ => inl (HttpError fallback)
        | inr errorData =>
            match detail errorData with
            | inl e => inl (Raised e)
            | inr (Some message) => inl (HttpError message)
            | inr None => inl (HttpError fallback)
            end
        end
      else
        match json with
        | inl e => inl (Raised e)
        | inr data => inr data
        end
  end.

(** How the promise of [safeFetch] settles; [Returns None] is
    [undefined]. *)
Inductive settled :=
| Returns (v : option J)
| Throws (t : thrown).

(** The [for] loop from [i] on, with [fuel] turns left before [i] reaches
    [retries]: how the call settles, and the delays waited for.
    [server i] is the reply to the call of [fetch] made in turn [i]. *)
Fixpoint turns (server : nat -> reply) (retries : Z) (fuel i : nat)
  : settled * list Z :=
  match fuel with
  | O => (Returns None, [])
  | S fuel' =>
      match attempt (server i) with
      | inr data => (Returns (Some data), [])
      | inl error =>
          if (Z.of_nat i =? retries - 1)%Z then (Throws error, [])
          else
            let '(r, waits) := turns server retries fuel' (S i) in
            (r, (2 ^ Z.of_nat i * 1000)%Z :: waits)
      end
  end.

(** [safeFetch(url, options, retries)] for an integer [retries]. *)
Definition safeFetch (server : nat -> reply) (retries : Z) : settled * list Z :=
  turns server retries (Z.to_nat retries) 0.

End SafeFetch.

End Fetch.

(** ** The address of the API *)

Module Config.

(** What the script reads of [window]: the host name, the origin and the
    port of [window.location], and [window.APP_API_URL] when it is set. *)
Record Window := {
  hostname : string;
  origin : string;
  port : string;
  APP_API_URL : option string
}.

(** [API_URL] *)
Definition API_URL (w : Window) : string :=
  let hostname := hostname w in
  let origin := origin w in
  if JS.truthy_field (APP_API_URL w) then
    match APP_API_URL w with Some u => u | None => "" end
  else if JS.includes hostname "vercel.app" || JS.includes hostname "vercel.com" then
    origin +:+ "/api"
  else if JS.includes hostname "render.com" || JS.includes hostname "onrender.com" then
    origin +:+ "/api"
  else if String.eqb hostname "localhost" || String.eqb hostname "127.0.0.1" ||
          String.eqb hostname "0.0.0.0" then
    let port := port w in
    if String.eqb port "8000" || negb (JS.truthy_string port) then origin +:+ "/api"
    else "http://localhost:8000/api"
  else origin +:+ "/api".

End Config.

(** ** Regular expressions *)

Module Regex.

(** The expressions the code needs: a set of characters, sequence, choice
    and repetition. *)
Inductive regex :=
| Never
| Empty
| Class (p : ascii -> bool)
| Seq (r1 r2 : regex)
| Alt (r1 r2 : regex)
| Star (r : regex).

(** [r+] *)
Definition Plus (r : regex) : regex := Seq r (Star r).

(** Whether [r] matches the empty string. *)
Fixpoint nullable (r : regex) : bool :=
  match r with
  | Never => false
  | Empty => true
  | Class _ => false
  | Seq r1 r2 => nullable r1 && nullable r2
  | Alt r1 r2 => nullable r1 || nullable r2
  | Star _ => true
  end.

(** What is left of [r] once [c] has been read. *)
Fixpoint derive (c : ascii) (r : regex) : regex :=
  match r with
  | Never => Never
  | Empty => Never
  | Class p => if p c then Empty else Never
  | Seq r1 r2 =>
      if nullable r1
      then Alt (Seq (derive c r1) r2) (derive c r2)
      else Seq (derive c r1) r2
  | Alt r1 r2 => Alt (derive c r1) (derive c r2)
  | Star r' => Seq (derive c r') (Star r')
  end.

(** [/^r$/.test(s)] *)
Fixpoint test (r : regex) (s : string) : bool :=
  match s with
  | EmptyString => nullable r
  | String c s' => test (derive c r) s'
  end.

(** The strings an expression stands for. *)
Inductive matches : regex -> string -> Prop :=
| matches_empty : matches Empty ""
| matches_class (p : ascii -> bool) (c : ascii) :
    p c = true -> matches (Class p) (String c "")
| matches_seq (r1 r2 : regex) (s1 s2 : string) :
    matches r1 s1 -> matches r2 s2 -> matches (Seq r1 r2) (s1 +:+ s2)
| matches_alt_l (r1 r2 : regex) (s : string) :
    matches r1 s -> matches (Alt r1 r2) s
| matches_alt_r (r1 r2 : regex) (s : string) :
    matches r2 s -> matches (Alt r1 r2) s
| matches_star_nil (r : regex) : matches (Star r) ""
| matches_star_more (r : regex) (s1 s2 : string) :
    matches r s1 -> matches (Star r) s2 -> matches (Star r) (s1 +:+ s2).

(** Every character of [s] satisfies [p]. *)
Fixpoint every (p : ascii -> bool) (s : string) : bool :=
  match s with
  | EmptyString => true
  | String c s' => p c && every p s'
  end.

End Regex.

(** ** utils.js: form validation *)

Module Validation.

(** [[^\s@]] *)
Definition not_space_or_at (c : ascii) : bool :=
  negb (JS.is_space c || Ascii.eqb c "@").

(** The body of [/^[^\s@]+@[^\s@]+\.[^\s@]+$/] *)
Definition re : Regex.regex :=
  Regex.Seq (Regex.Plus (Regex.Class not_space_or_at))
    (Regex.Seq (Regex.Class (Ascii.eqb "@"))
       (Regex.Seq (Regex.Plus (Regex.Class not_space_or_at))
          (Regex.Seq (Regex.Class (Ascii.eqb "."))
             (Regex.Plus (Regex.Class not_space_or_at))))).

(** [isValidEmail(email)] *)
Definition isValidEmail (email : string) : bool := Regex.test re email.

(** The [rules] object; a rule that is not given is [None] (or [false]).
    [pattern] stands for [rules.pattern.test]. *)
Record Rules := {
  required : bool;
  minLength : option float;
  maxLength : option float;
  pattern : option (string -> bool);
  patternMessage : option string;
  min : option float;
  max : option float;
  email : bool
}.

(** ToString of the value to validate: a string, or [undefined]. *)
Definition text (value : option string) : string :=
  match value with Some s => s | None => "undefined" end.

(** [value?.length < n] and [value?.length > n] *)
Definition shorter (value : option string) (n : float) : bool :=
  match value with
  | Some s => PrimFloat.ltb (Host.string_length s) n
  | None => false
  end.

Definition longer (value : option string) (n : float) : bool :=
  match value with
  | Some s => PrimFloat.ltb n (Host.string_length s)
  | None => false
  end.

(** [errors.push(...)] under a condition *)
Definition push_if (c : bool) (message : string) (errors : list string)
  : list string :=
  if c then errors ++ [message] else errors.

(** [validateField(value, rules)] *)
Definition validateField (value : option string) (rules : Rules) : list string :=
  let errors := [] in
  let errors :=
    push_if (required rules &&
             negb (match value with
                   | Some s => JS.truthy_string (JS.trim s)
                   | None => false
                   end))
            "This field is required" errors in
  let errors :=
    match minLength rules with
    | Some n =>
        push_if (JS.truthy_number n && shorter value n)
                ("Minimum " +:+ JS.Number_toString n +:+ " characters required")
                errors
    | None => errors
    end in
  let errors :=
    match maxLength rules with
    | Some n =>
        push_if (JS.truthy_number n && longer value n)
                ("Maximum " +:+ JS.Number_toString n +:+ " characters allowed")
                errors
    | None => errors
    end in
  let errors :=
    match pattern rules with
    | Some test =>
        push_if (negb (test (text value)))
                (match patternMessage rules with
                 | Some m => if JS.truthy_string m then m else "Invalid format"
                 | None => "Invalid format"
                 end)
                errors
    | None => errors
    end in
  let errors :=
    match min rules with
    | Some n =>
        push_if (PrimFloat.ltb (JS.parseFloat (text value)) n)
                ("Minimum value is " +:+ JS.Number_toString n) errors
    | None => errors
    end in
  let errors :=
    match max rules with
    | Some n =>
        push_if (PrimFloat.ltb n (JS.parseFloat (text value)))
                ("Maximum value is " +:+ JS.Number_toString n) errors
    | None => errors
    end in
  let errors :=
    push_if (email rules &&
             match value with
             | Some s => JS.truthy_string s && negb (isValidEmail s)
             | None => false
             end)
            "Invalid email address" errors in
  errors.

End Validation.

(** ** Calls in time *)

Module Timing.

(** Calls at times that do not decrease; [t] is the time of the call before
    the first of [rest]. *)
Fixpoint ascending {A : Type} (t : Z) (rest : list (Z * A)) : Prop :=
  match rest with
  | [] => True
  | (t', _) :: rest' => (t <= t')%Z /\ ascending t' rest'
  end.

(** The arguments of the calls that no other call follows within [wait]
    ms. *)
Fixpoint unsuperseded {A : Type} (wait : Z) (calls : list (Z * A)) : list A :=
  match calls with
  | [] => []
  | (t, a) :: rest =>
      match rest with
      | [] => [a]
      | (t', _) :: _ =>
          if (t' <? t + wait)%Z then unsuperseded wait rest
          else a :: unsuperseded wait rest
      end
  end.

(** The calls that take effect: those that act at once, and of the others
    those that no other call follows within [wait] ms. *)
Fixpoint effective {A : Type} (at_once : A -> bool) (wait : Z)
  (calls : list (Z * A)) : list A :=
  match calls with
  | [] => []
  | (t, a) :: rest =>
      if at_once a then a :: effective at_once wait rest
      else
        match rest with
        | [] => [a]
        | (t', _) :: _ =>
            if (t' <? t + wait)%Z then effective at_once wait rest
            else a :: effective at_once wait rest
        end
  end.

End Timing.

(** ** [parseInt] *)

Module Parse.

(** The value of a hexadecimal digit. *)
Definition hex_value (c : ascii) : option Z :=
  let n := JS.charCode c in
  if ((48 <=? n) && (n <=? 57))%Z then Some (n - 48)%Z
  else if ((97 <=? n) && (n <=? 102))%Z then Some (n - 87)%Z
  else if ((65 <=? n) && (n <=? 70))%Z then Some (n - 55)%Z
  else None.

(** The longest prefix of hexadecimal digits: how many there are and their
    value, continuing from [acc]. *)
Fixpoint take_hex (acc : Z) (s : string) : nat * Z :=
  match s with
  | EmptyString => (O, acc)
  | String c s' =>
      match hex_value c with
      | Some d => let '(n, v) := take_hex (16 * acc + d) s' in (S n, v)
      | None => (O, acc)
      end
  end.

(** [parseInt(s)] with no radix given: leading white space is skipped, a
    sign is read, then the digits (hexadecimal ones after [0x] or [0X]),
    and anything after them is ignored; [NaN] when there is no digit. *)
Definition parseInt (s : string) : float :=
  let '(neg, t) := JS.take_sign (JS.trimStart s) in
  match t with
  | String "0"%char (String x r) =>
      if (Ascii.eqb x "x" || Ascii.eqb x "X")%char then
        match take_hex 0 r with
        | (O, _) => PrimFloat.nan
        | (_, v) => JS.of_decimal neg v 0
        end
      else
        JS.of_decimal neg (JS.digits_value 0 (fst (JS.take_digits t))) 0
  | _ =>
      match fst (JS.take_digits t) with
      | EmptyString => PrimFloat.nan
      | ds => JS.of_decimal neg (JS.digits_value 0 ds) 0
      end
  end.

End Parse.

(** ** Submitting a price *)

Module Submission.

(** The values of the inputs of the price form. *)
Record Form := {
  category : string;
  itemName : string;
  brand : string;
  packSize : string;
  packUnit : string;
  price : string;
  pricePerUnit : string;
  retailer : string;
  location : string
}.

(** The body of the request; [None] is [null].  The field [store_id], which
    always is [null], is left out. *)
Record Payload := {
  p_category_id : option float;
  p_name : string;
  p_brand : option string;
  p_pack_size : option string;
  p_pack_unit : option string;
  p_price : float;
  p_price_per_unit : option float;
  p_retailer : option string;
  p_location : option string;
  p_submitted_by : option float
}.

(** [x || null] for a number and for a string. *)
Definition number_or_null (x : float) : option float :=
  if JS.truthy_number x then Some x else None.

Definition string_or_null (s : string) : option string :=
  if JS.truthy_string s then Some s else None.

(** The object [payload] that both dashboards build; [session_id] is
    [getSession().id]. *)
Definition payload (f : Form) (session_id : option string) : Payload :=
  {| p_category_id := number_or_null (Parse.parseInt (category f));
     p_name := JS.trim (itemName f);
     p_brand := string_or_null (JS.trim (brand f));
     p_pack_size := string_or_null (JS.trim (packSize f));
     p_pack_unit := string_or_null (packUnit f);
     p_price := JS.parseFloat (price f);
     p_price_per_unit := number_or_null (JS.parseFloat (pricePerUnit f));
     p_retailer := string_or_null (JS.trim (retailer f));
     p_location := string_or_null (JS.trim (location f));
     p_submitted_by :=
       match session_id with
       | Some i => if JS.truthy_string i then Some (Parse.parseInt i) else None
       | None => None
       end |}.

(** ToBoolean of an optional number. *)
Definition some_number (x : option float) : bool :=
  match x with Some _ => true | None => false end.

(** [onSubmitPrice] of user-dashboard.js up to the request: the dialog shown
    when the form is refused, or the payload that is sent. *)
Definition onSubmitPrice (f : Form) (session_id : option string)
  : string + Payload :=
  let payload := payload f session_id in
  if negb (some_number (p_category_id payload)) ||
     negb (JS.truthy_string (p_name payload)) ||
     PrimFloat.is_nan (p_price payload)
  then inl "Please provide category, item name and price."
  else inr payload.

(** [submitPrice] of the other dashboard up to the request: the toast shown
    when the form is refused, or the payload that is sent. *)
Definition submitPrice (f : Form) (session_id : option string)
  : string + Payload :=
  let payload := payload f session_id in
  if negb (some_number (p_category_id payload)) then
    inl "Please select a category"
  else if negb (JS.truthy_string (p_name payload)) then
    inl "Please enter item name"
  else if negb (JS.truthy_number (p_price payload)) ||
          PrimFloat.leb (p_price payload) PrimFloat.zero then
    inl "Please enter a valid price"
  else inr payload.

End Submission.

(** ** Loading the prices *)

Module Loading.

(** What comes of the request for the prices: [fetch] or [res.json()]
    throws, or a response arrives with its [ok] flag and a body that is an
    array of records or some other JSON value. *)
Inductive body :=
| Records (l : list PriceRecord)
| Other.

Inductive reply :=
| Throws
| Arrives (ok : bool) (b : body).

(** The part of the page the loading code writes: the snapshot, the records
    rendered in the container, the four counters (none before the first
    update) and the page state of the alerts.  The container and the
    counters are taken to be in the page. *)
Record Page := {
  allPrices : list PriceRecord;
  rendered : list PriceRecord;
  counters : option UserDashboard.StatsView;
  alerts : State
}.

(** [displayPrices(prices)] of user-dashboard.js: an empty list shows the
    empty state and returns before the badges are updated. *)
Definition displayPrices (prices : list PriceRecord) (pg : Page) : Page :=
  match prices with
  | [] => {| allPrices := allPrices pg; rendered := [];
             counters := counters pg; alerts := alerts pg |}
  | _ => {| allPrices := allPrices pg; rendered := prices;
            counters := counters pg;
            alerts := UserDashboard.updateAlertBadges (alerts pg) |}
  end.

(** [Array.isArray(prices) ? prices : []] *)
Definition array_or_empty (b : body) : list PriceRecord :=
  match b with Records l => l | Other => [] end.

(** [loadPrices()] of user-dashboard.js *)
Definition loadPrices (r : reply) (pg : Page) : Page :=
  match r with
  | Throws => pg
  | Arrives _ b =>
      let prices := array_or_empty b in
      let pg := {| allPrices := prices; rendered := rendered pg;
                   counters := counters pg; alerts := alerts pg |} in
      let pg := displayPrices (allPrices pg) pg in
      let pg := {| allPrices := allPrices pg; rendered := rendered pg;
                   counters := Some (UserDashboard.updateStats (allPrices pg));
                   alerts := alerts pg |} in
      {| allPrices := allPrices pg; rendered := rendered pg;
         counters := counters pg;
         alerts := UserDashboard.checkPriceAlerts (allPrices pg) (alerts pg) |}
  end.

(** [displayPrices(prices)] of the other dashboard *)
Definition fixed_displayPrices (prices : list PriceRecord) (pg : Page) : Page :=
  match prices with
  | [] => {| allPrices := allPrices pg; rendered := [];
             counters := counters pg; alerts := alerts pg |}
  | _ => {| allPrices := allPrices pg; rendered := prices;
            counters := counters pg;
            alerts := AdminDashboard.updateAlertBadges (alerts pg) |}
  end.

(** [loadPrices()] of the other dashboard *)
Definition fixed_loadPrices (r : reply) (pg : Page) : Page :=
  let failed :=
    fixed_displayPrices []
      {| allPrices := []; rendered := rendered pg;
         counters := counters pg; alerts := alerts pg |} in
  match r with
  | Throws => failed
  | Arrives ok b =>
      if negb ok then failed
      else
        let prices := array_or_empty b in
        let pg := {| allPrices := prices; rendered := rendered pg;
                     counters := counters pg; alerts := alerts pg |} in
        let pg := fixed_displayPrices (allPrices pg) pg in
        let pg := {| allPrices := allPrices pg; rendered := rendered pg;
                     counters := Some (AdminDashboard.updateStats (allPrices pg));
                     alerts := alerts pg |} in
        {| allPrices := allPrices pg; rendered := rendered pg;
           counters := counters pg;
           alerts := AdminDashboard.checkPriceAlerts (allPrices pg) (alerts pg) |}
  end.

End Loading.

(** ** The dark mode switch *)

Module DarkMode.

(** The store, whether the body has the class [dark-mode], and the text of
    the button. *)
Record Look := {
  store : gmap string string;
  dark : bool;
  button : string
}.

(** [applyPref()], for the key the page keeps its preference under. *)
Definition applyPref (key : string) (l : Look) : Look :=
  let isDark := Host.same (Host.getItem key (store l)) (Some "true") in
  {| store := store l; dark := isDark;
     button := if isDark then "☀️" else "🌙" |}.

(** The click listener of the button. *)
Definition click (key : string) (l : Look) : Look :=
  let isDark := negb (Host.same (Host.getItem key (store l)) (Some "true")) in
  applyPref key
    {| store := Host.setItem key (if isDark then "true" else "false") (store l);
       dark := dark l; button := button l |}.

(** [n] clicks, one after the other. *)
Fixpoint clicks (key : string) (n : nat) (l : Look) : Look :=
  match n with
  | O => l
  | S n' => click key (clicks key n' l)
  end.

End DarkMode.

(** ** The overview of the admin dashboard *)

Module Overview.







End Overview.

(** ** The live price feed: [PriceUpdater] *)

Module PriceUpdater.

(** The fields [handlePriceUpdate] reads of a message; item ids are whole
    numbers, as the ids passed to [subscribe] are. *)
Record Update := {
  item_id : Z;
  item_name : string;
  store_name : string;
  price : float;
  timestamp : string
}.

Section Subscribers.
(** The callbacks, compared as [Set] compares them: by identity.  A
    callback cannot reach the updater. *)
Context {C : Type} `{EqDecision C}.

(** [this.subscribers]: a [Map] from item ids to [Set]s of callbacks, both
    in insertion order. *)
Definition Subscribers := list (Z * list C).

(** [Map.prototype.get] and [has] *)
Fixpoint get (itemId : Z) (m : Subscribers) : option (list C) :=
  match m with
  | [] => None
  | (k, s) :: rest => if (k =? itemId)%Z then Some s else get itemId rest
  end.

Definition has (itemId : Z) (m : Subscribers) : bool :=
  match get itemId m with Some _ => true | None => false end.

(** [Map.prototype.set]: the value of a key that is there is replaced in
    place, a new key goes last. *)
Fixpoint set (itemId : Z) (s : list C) (m : Subscribers) : Subscribers :=
  match m with
  | [] => [(itemId, s)]
  | (k, s') :: rest =>
      if (k =? itemId)%Z then (k, s) :: rest else (k, s') :: set itemId s rest
  end.

(** [Map.prototype.delete] *)
Fixpoint delete_key (itemId : Z) (m : Subscribers) : Subscribers :=
  match m with
  | [] => []
  | (k, s) :: rest =>
      if (k =? itemId)%Z then rest else (k, s) :: delete_key itemId rest
  end.

(** [Set.prototype.add] and [delete] *)
Definition add (callback : C) (s : list C) : list C :=
  if bool_decide (callback ∈ s) then s else s ++ [callback].

Definition remove (callback : C) (s : list C) : list C :=
  List.filter (fun c => negb (bool_decide (c = callback))) s.

(** [subscribe(itemId, callback)]: the subscribers afterwards; the function
    it returns is [unsubscribe itemId callback]. *)
Definition subscribe (itemId : Z) (callback : C) (m : Subscribers) : Subscribers :=
  let m := if negb (has itemId m) then set itemId [] m else m in
  match get itemId m with
  | Some s => set itemId (add callback s) m
  | None => m
  end.

(** The function returned by [subscribe(itemId, callback)]. *)
Definition unsubscribe (itemId : Z) (callback : C) (m : Subscribers) : Subscribers :=
  match get itemId m with
  | Some subs =>
      let subs := remove callback subs in
      let m := set itemId subs m in
      match subs with
      | [] => delete_key itemId m
      | _ => m
      end
  | None => m
  end.

(** [handlePriceUpdate(data)]: the callbacks called, in order, each with
    the update it is handed.  What a callback throws is caught. *)
Definition handlePriceUpdate (data : Update) (m : Subscribers) : list (C * Update) :=
  (match get (item_id data) m with
   | Some s => map (fun callback => (callback, data)) s
   | None => []
   end) ++
  (match get 0%Z m with
   | Some s => map (fun callback => (callback, data)) s
   | None => []
   end).

(** Whether [callback] is in the [Set] of [itemId]. *)
Definition subscribed (itemId : Z) (callback : C) (m : Subscribers) : bool :=
  match get itemId m with
  | Some s => bool_decide (callback ∈ s)
  | None => false
  end.

(** How many times [callback] occurs among the calls. *)
Definition times_called (callback : C) (calls : list (C * Update)) : nat :=
  length (List.filter (fun call => bool_decide (fst call = callback)) calls).

(** No key twice, no [Set] empty, no callback twice in a [Set]. *)
Definition tidy (m : Subscribers) : Prop :=
  NoDup (map fst m) /\
  Forall (fun e => snd e <> [] /\ NoDup (snd e)) m.

End Subscribers.

(** *** Connecting and reconnecting *)

(** The socket held in [this.ws] (sockets are numbered as they are made),
    the two counters, the delays of the reconnection timers set so far, and
    the number of those timers that have not fired yet. *)
Record Connection := {
  ws : option nat;
  isConnecting : bool;
  reconnectAttempts : nat;
  sockets_made : nat;
  delays : list Z;
  timers_pending : nat
}.

(** [this.maxReconnectAttempts] *)
Definition maxReconnectAttempts : nat := 5.

(** The updater as the constructor leaves it. *)
Definition fresh : Connection :=
  {| ws := None; isConnecting := false; reconnectAttempts := 0;
     sockets_made := 0; delays := []; timers_pending := 0 |}.

(** [connect()]; [throws] tells whether [new WebSocket] throws. *)
Definition connect (throws : bool) (c : Connection) : Connection :=
  match ws c with
  | Some _ => c
  | None =>
      if isConnecting c then c
      else if throws then
        {| ws := None; isConnecting := false;
           reconnectAttempts := reconnectAttempts c;
           sockets_made := sockets_made c; delays := delays c;
           timers_pending := timers_pending c |}
      else
        {| ws := Some (sockets_made c); isConnecting := true;
           reconnectAttempts := reconnectAttempts c;
           sockets_made := S (sockets_made c); delays := delays c;
           timers_pending := timers_pending c |}
  end.

(** [attemptReconnect()] *)
Definition attemptReconnect (c : Connection) : Connection :=
  if (maxReconnectAttempts <=? reconnectAttempts c)%nat then c
  else
    let delay := (2 ^ Z.of_nat (reconnectAttempts c) * 1000)%Z in
    {| ws := ws c; isConnecting := isConnecting c;
       reconnectAttempts := S (reconnectAttempts c);
       sockets_made := sockets_made c; delays := delays c ++ [delay];
       timers_pending := S (timers_pending c) |}.

(** The handlers [onopen], [onerror] and [onclose] of a socket. *)
Definition onopen (c : Connection) : Connection :=
  {| ws := ws c; isConnecting := false; reconnectAttempts := 0;
     sockets_made := sockets_made c; delays := delays c;
     timers_pending := timers_pending c |}.

Definition onerror (c : Connection) : Connection :=
  {| ws := ws c; isConnecting := false;
     reconnectAttempts := reconnectAttempts c;
     sockets_made := sockets_made c; delays := delays c;
     timers_pending := timers_pending c |}.

Definition onclose (c : Connection) : Connection :=
  attemptReconnect
    {| ws := None; isConnecting := false;
       reconnectAttempts := reconnectAttempts c;
       sockets_made := sockets_made c; delays := delays c;
       timers_pending := timers_pending c |}.

(** [disconnect()] *)
Definition disconnect (c : Connection) : Connection :=
  match ws c with
  | Some _ =>
      {| ws := None; isConnecting := isConnecting c;
         reconnectAttempts := reconnectAttempts c;
         sockets_made := sockets_made c; delays := delays c;
         timers_pending := timers_pending c |}
  | None => c
  end.

(** A reconnection timer fires, if one is pending: [connect()] runs. *)
Definition timer_fires (throws : bool) (c : Connection) : Connection :=
  match timers_pending c with
  | O => c
  | S n =>
      connect throws
        {| ws := ws c; isConnecting := isConnecting c;
           reconnectAttempts := reconnectAttempts c;
           sockets_made := sockets_made c; delays := delays c;
           timers_pending := n |}
  end.

(** The socket closes without having opened and the timer set by the close
    handler, if any, fires: one failed attempt.  [n] of them in a row. *)
Fixpoint failed_attempts (n : nat) (c : Connection) : Connection :=
  match n with
  | O => c
  | S n' => timer_fires false (onclose (failed_attempts n' c))
  end.

End PriceUpdater.

(** ** The search box of the other dashboard: [setupGlobalSearch] *)

Module GlobalSearch.

(** The timers, each callback with the query it was made for; the
    listener's variable [searchTimeout]; the snapshot; and what has been
    shown so far: for an empty query the whole snapshot in the list of
    prices, otherwise the query with the records it matched, of which the
    results box lists the first six. *)
Record page := {
  loop : EventLoop.loop string;
  searchTimeout : option nat;
  allPrices : list PriceRecord;
  evaluations : list (string * list PriceRecord)
}.

(** The callback given to [setTimeout] for [query]. *)
Definition search_callback (query : string) (pg : page) : page :=
  let filtered := List.filter (AdminDashboard.search_match query) (allPrices pg) in
  {| loop := loop pg; searchTimeout := searchTimeout pg;
     allPrices := allPrices pg;
     evaluations := evaluations pg ++ [(query, filtered)] |}.

(** The user changes the text to [v] and the listener runs. *)
Definition on_input (v : string) (pg : page) : page :=
  let l := EventLoop.clearTimeout (searchTimeout pg) (loop pg) in
  let query := JS.toLowerCase (JS.trim v) in
  if negb (JS.truthy_string query) then
    {| loop := l; searchTimeout := searchTimeout pg; allPrices := allPrices pg;
       evaluations := evaluations pg ++ [(query, allPrices pg)] |}
  else
    let '(h, l) := EventLoop.setTimeout query 300 l in
    {| loop := l; searchTimeout := Some h; allPrices := allPrices pg;
       evaluations := evaluations pg |}.

Fixpoint run_due (fuel : nat) (t : Z) (pg : page) : page :=
  match fuel with
  | O => pg
  | S fuel' =>
      match EventLoop.next_due t (loop pg) with
      | Some tm =>
          run_due fuel' t
            (search_callback (EventLoop.callback tm)
               {| loop := EventLoop.fire tm (loop pg);
                  searchTimeout := searchTimeout pg;
                  allPrices := allPrices pg; evaluations := evaluations pg |})
      | None => pg
      end
  end.

(** Time moves on to [t]: the timers due by then run, earliest first. *)
Definition advance (t : Z) (pg : page) : page :=
  let pg := run_due (length (EventLoop.pending (loop pg))) t pg in
  {| loop := EventLoop.settle t (loop pg); searchTimeout := searchTimeout pg;
     allPrices := allPrices pg; evaluations := evaluations pg |}.

(** An input event at time [t], or time passing until [t] with none. *)
Inductive event := Input (t : Z) (v : string) | Idle (t : Z).

Definition step (pg : page) (e : event) : page :=
  match e with
  | Input t v => on_input v (advance t pg)
  | Idle t => advance t pg
  end.

Definition run (es : list event) (pg : page) : page := fold_left step es pg.

(** The page once the listener is installed. *)
Definition start (prices : list PriceRecord) : page :=
  {| loop := EventLoop.fresh; searchTimeout := None;
     allPrices := prices; evaluations := [] |}.

(** The input events of a typing session. *)
Definition inputs (l : list (Z * string)) : list event :=
  map (fun tv => Input (fst tv) (snd tv)) l.

(** Whether the text [v] makes an empty query. *)
Definition clears (v : string) : bool :=
  negb (JS.truthy_string (JS.toLowerCase (JS.trim v))).

End GlobalSearch.

(** *** Notions for the proofs about the search box *)

Module SearchSpec.

(** What a search for [q] in [P] shows. *)
Definition found (P : list PriceRecord) (q : string)
  : string * list PriceRecord :=
  (q, List.filter (AdminDashboard.search_match q) P).

(** The listener's timer, if one is pending, is the only one: it is due at
    [d] for the query [q]; the evaluations so far are [E]. *)
Definition waiting (pg : GlobalSearch.page) (o : option (Z * string))
  (E : list (string * list PriceRecord)) (P : list PriceRecord) : Prop :=
  GlobalSearch.evaluations pg = E /\
  GlobalSearch.allPrices pg = P /\
  match o with
  | Some (d, q) =>
      exists h,
        EventLoop.pending (GlobalSearch.loop pg) =
          [{| EventLoop.handle := h; EventLoop.due := d;
              EventLoop.callback := q |}] /\
        GlobalSearch.searchTimeout pg = Some h
  | None => EventLoop.pending (GlobalSearch.loop pg) = []
  end.

(** What is pending and what has been shown once time has moved on to
    [t]. *)
Definition later (t : Z) (o : option (Z * string))
  (E : list (string * list PriceRecord)) (P : list PriceRecord)
  : option (Z * string) * list (string * list PriceRecord) :=
  match o with
  | Some (d, q) => if (d <=? t)%Z then (None, E ++ [found P q]) else (o, E)
  | None => (None, E)
  end.

(** What the pending timer, if any, still shows when the next input comes
    at [next], or when none comes. *)
Definition still (P : list PriceRecord) (o : option (Z * string))
  (next : option Z) : list (string * list PriceRecord) :=
  match o with
  | Some (d, q) =>
      match next with
      | Some t' => if (t' <? d)%Z then [] else [found P q]
      | None => [found P q]
      end
  | None => []
  end.

(** What an input shows at once. *)
Definition at_once (P : list PriceRecord) (v : string)
  : list (string * list PriceRecord) :=
  if GlobalSearch.clears v then [(JS.toLowerCase (JS.trim v), P)] else [].

(** What the inputs [rest] show, from the first of them on, when they are
    followed by a pause. *)
Fixpoint shown (P : list PriceRecord) (rest : list (Z * string))
  : list (string * list PriceRecord) :=
  match rest with
  | [] => []
  | (t, v) :: rest' =>
      at_once P v ++
      still P (if GlobalSearch.clears v then None
               else Some ((t + 300)%Z, JS.toLowerCase (JS.trim v)))
            (match rest' with [] => None | (t', _) :: _ => Some t' end) ++
      shown P rest'
  end.

End SearchSpec.

(** ** Proofs *)

(** *** Strings *)

Section StringFacts.

Lemma append_nil_r (s : string) : s +:+ "" = s.
Proof. induction s as [|c s IH]; simpl; [reflexivity | now rewrite IH]. Qed.

Lemma append_assoc (a b c : string) : (a +:+ b) +:+ c = a +:+ b +:+ c.
Proof. induction a as [|x a IH]; simpl; [reflexivity | now rewrite IH]. Qed.

Lemma length_append (a b : string) :
  String.length (a +:+ b) = (String.length a + String.length b)%nat.
Proof. induction a as [|x a IH]; simpl; [reflexivity | now rewrite IH]. Qed.

Lemma toLowerCase_append (a b : string) :
  JS.toLowerCase (a +:+ b) = JS.toLowerCase a +:+ JS.toLowerCase b.
Proof. induction a as [|x a IH]; simpl; [reflexivity | now rewrite IH]. Qed.

Lemma toLowerCase_length (s : string) :
  String.length (JS.toLowerCase s) = String.length s.
Proof. induction s as [|c s IH]; simpl; [reflexivity | now rewrite IH]. Qed.

Lemma lower_char_idem (c : ascii) : JS.lower_char (JS.lower_char c) = JS.lower_char c.
Proof.
  destruct c as [[] [] [] [] [] [] [] []]; reflexivity.
Qed.

Lemma toLowerCase_idem (s : string) :
  JS.toLowerCase (JS.toLowerCase s) = JS.toLowerCase s.
Proof.
  induction s as [|c s IH]; simpl; [reflexivity|].
  now rewrite lower_char_idem, IH.
Qed.

(** A lower-cased string splits where its image splits. *)
Lemma toLowerCase_split (s a b : string) :
  JS.toLowerCase s = a +:+ b ->
  exists a' b', s = a' +:+ b' /\ JS.toLowerCase a' = a /\ JS.toLowerCase b' = b.
Proof.
  revert a; induction s as [|c s IH]; intros a H.
  - destruct a; simpl in H; [|discriminate].
    exists "", ""; simpl in *; auto.
  - destruct a as [|x a]; simpl in H.
    + exists "", (String c s); simpl; auto.
    + injection H as Hc Hs.
      destruct (IH _ Hs) as (a' & b' & -> & Ha & Hb).
      exists (String c a'), b'; simpl; rewrite Hc, Ha; auto.
Qed.

Lemma prefix_spec (p s : string) :
  String.prefix p s = true <-> exists post, s = p +:+ post.
Proof.
  revert s; induction p as [|c p IH]; intros s.
  - destruct s; simpl; split; eauto.
  - destruct s as [|d s]; simpl.
    + split; [discriminate | intros [post H]; discriminate].
    + destruct (ascii_dec c d) as [->|Hne].
      * rewrite IH. split; intros [post H]; exists post; [now rewrite H|].
        now injection H.
      * split; [discriminate|]. intros [post H]. injection H as -> _. congruence.
Qed.

(** [includes] finds exactly the substrings. *)
Lemma includes_spec (s sub : string) :
  JS.includes s sub = true <-> exists pre post, s = pre +:+ sub +:+ post.
Proof.
  induction s as [|c s IH]; cbn [JS.includes].
  - rewrite orb_false_r, prefix_spec. split.
    + intros [post H]. exists "", post. exact H.
    + intros (pre & post & H). destruct pre; simpl in H; [eauto | discriminate].
  - rewrite orb_true_iff, prefix_spec, IH. split.
    + intros [[post H] | (pre & post & H)].
      * exists "", post. exact H.
      * exists (String c pre), post. simpl. now rewrite H.
    + intros (pre & post & H). destruct pre as [|x pre]; simpl in H.
      * left. eauto.
      * right. injection H as _ H. eauto.
Qed.

(** Searching the lower-cased field for a lower-cased needle is containment
    up to case. *)
Lemma includes_lower (s sub : string) :
  JS.includes (JS.toLowerCase s) (JS.toLowerCase sub) = true <->
  Spec.ci_contains s sub.
Proof.
  rewrite includes_spec. unfold Spec.ci_contains, Spec.ci_equal. split.
  - intros (pre & post & H).
    apply toLowerCase_split in H as (pre' & r & -> & <- & Hr).
    apply toLowerCase_split in Hr as (mid & post' & -> & Hm & <-).
    exists pre', mid, post'. auto.
  - intros (pre & mid & post & -> & Hm).
    exists (JS.toLowerCase pre), (JS.toLowerCase post).
    now rewrite !toLowerCase_append, Hm.
Qed.

Lemma truthy_string_false (s : string) : JS.truthy_string s = false <-> s = "".
Proof. destruct s; simpl; split; congruence. Qed.

Lemma truthy_string_true (s : string) : JS.truthy_string s = true <-> s <> "".
Proof. destruct s; simpl; split; congruence. Qed.

Lemma ci_contains_empty_field (sub : string) :
  Spec.ci_contains "" sub -> sub = "".
Proof.
  intros (pre & mid & post & H & Hm).
  destruct pre; [|discriminate]. destruct mid; [|discriminate].
  unfold Spec.ci_equal in Hm. destruct sub; [reflexivity | discriminate].
Qed.

(** The test [f && f.toLowerCase().includes(q)] against a lower-cased,
    non-empty needle. *)
Lemma field_includes_spec (f : option string) (sub : string) :
  sub <> "" ->
  UserDashboard.field_includes f (JS.toLowerCase sub) = true <->
  Spec.field_contains f sub.
Proof.
  intros Hne. unfold UserDashboard.field_includes, Spec.field_contains.
  destruct f as [s|]; simpl.
  - rewrite andb_true_iff, includes_lower, truthy_string_true. split.
    + intros [_ H]. eauto.
    + intros (s' & [= <-] & H). split; [|exact H].
      intros ->. now apply ci_contains_empty_field in H.
  - split; [discriminate | intros (s & H & _); discriminate].
Qed.

End StringFacts.

(** *** 32-bit arithmetic and the password hash *)

Section Int32Facts.
Local Open Scope Z_scope.

Lemma ToInt32_signed32 (z : Z) : JS.ToInt32 z = Spec.signed32 z.
Proof.
  unfold JS.ToInt32, Spec.signed32.
  change (2 ^ 32) with 4294967296. change (2 ^ 31) with 2147483648.
  destruct (Z.ltb_spec (z mod 4294967296) 2147483648);
    Z.div_mod_to_equations; lia.
Qed.

Lemma ToInt32_idem (z : Z) : JS.ToInt32 (JS.ToInt32 z) = JS.ToInt32 z.
Proof.
  unfold JS.ToInt32.
  change (2 ^ 32) with 4294967296. change (2 ^ 31) with 2147483648.
  Z.div_mod_to_equations; lia.
Qed.

(** [x & x] is ToInt32 of [x]. *)
Lemma band_diag (x : Z) : JS.band x x = JS.ToInt32 x.
Proof. unfold JS.band. now rewrite Z.land_diag, ToInt32_idem. Qed.

(** [h << 5] is [h * 2^5] in 32 bits. *)
Lemma shl_5 (h : Z) : JS.shl h 5 = JS.ToInt32 (JS.ToInt32 h * 2 ^ 5).
Proof.
  unfold JS.shl. change (5 mod 32) with 5.
  now rewrite Z.shiftl_mul_pow2 by lia.
Qed.

Lemma ToInt32_mod (z : Z) : JS.ToInt32 z mod 2 ^ 32 = z mod 2 ^ 32.
Proof.
  unfold JS.ToInt32.
  change (2 ^ 32) with 4294967296. change (2 ^ 31) with 2147483648.
  Z.div_mod_to_equations; lia.
Qed.

Lemma ToInt32_congr (a b : Z) :
  a mod 2 ^ 32 = b mod 2 ^ 32 -> JS.ToInt32 a = JS.ToInt32 b.
Proof.
  intros H. unfold JS.ToInt32.
  now rewrite <- (Z.add_mod_idemp_l a), H, Z.add_mod_idemp_l.
Qed.

(** One turn of the loop is one step of the recurrence. *)
Lemma hash_step_rolling (h c : Z) :
  Utils.hash_step h c = Spec.signed32 (h * 2 ^ 5 - h + c).
Proof.
  unfold Utils.hash_step. rewrite band_diag, shl_5, <- ToInt32_signed32.
  apply ToInt32_congr.
  replace (JS.ToInt32 (JS.ToInt32 h * 2 ^ 5) - h + c)
    with (JS.ToInt32 (JS.ToInt32 h * 2 ^ 5) + (c - h)) by ring.
  rewrite <- Z.add_mod_idemp_l, ToInt32_mod by discriminate.
  rewrite <- Z.mul_mod_idemp_l, ToInt32_mod, Z.mul_mod_idemp_l by discriminate.
  rewrite Z.add_mod_idemp_l by discriminate.
  f_equal. ring.
Qed.

Lemma fold_left_cons {A B} (f : A -> B -> A) (b : B) (l : list B) (a : A) :
  fold_left f (b :: l) a = fold_left f l (f a b).
Proof. reflexivity. Qed.

Lemma hash_loop_rolling (units : list Z) (h : Z) :
  fold_left Utils.hash_step units h = Spec.rolling_hash h units.
Proof.
  revert h; induction units as [|c units IH]; intros h.
  - reflexivity.
  - cbn [Spec.rolling_hash].
    rewrite fold_left_cons, hash_step_rolling. apply IH.
Qed.

Lemma hash_steps_agree (h c : Z) :
  Utils.hash_step h c = SmallUtils.hash_step h c.
Proof. unfold Utils.hash_step, SmallUtils.hash_step. reflexivity. Qed.

Lemma hash_loops_agree (l : list Z) (h : Z) :
  fold_left Utils.hash_step l h = fold_left SmallUtils.hash_step l h.
Proof.
  revert h; induction l as [|c l IH]; intros h.
  - cbn [fold_left]. reflexivity.
  - rewrite !fold_left_cons, hash_steps_agree. apply IH.
Qed.

(** The hash stays within 32 bits. *)
Lemma signed32_range (z : Z) : - 2 ^ 31 <= Spec.signed32 z < 2 ^ 31.
Proof.
  unfold Spec.signed32.
  change (2 ^ 32) with 4294967296. change (2 ^ 31) with 2147483648.
  destruct (Z.ltb_spec (z mod 4294967296) 2147483648);
    Z.div_mod_to_equations; lia.
Qed.

End Int32Facts.

(** C9: the two [hashPassword] implementations return the same string for
    every password, whatever its code units, namely the decimal rendering of
    the 32-bit signed integer that the recurrence
    [h <- ((h << 5) - h) + charCode] reaches from 0; the empty password
    hashes to "0". *)
Theorem hashPassword_implementations_agree
  (units : list Z) (password : string) :
  Utils.hash_units units = SmallUtils.hash_units units /\
  Utils.hash_units units = JS.Z_toString (Spec.rolling_hash 0 units) /\
  Utils.hashPassword password = SmallUtils.hashPassword password /\
  Utils.hashPassword password =
    JS.Z_toString (Spec.rolling_hash 0 (JS.charCodes password)) /\
  Utils.hashPassword "" = "0".
Proof.
  unfold Utils.hashPassword, SmallUtils.hashPassword,
    Utils.hash_units, SmallUtils.hash_units.
  split; [|split; [|split; [|split]]].
  - now rewrite hash_loops_agree.
  - now rewrite hash_loop_rolling.
  - now rewrite hash_loops_agree.
  - now rewrite hash_loop_rolling.
  - reflexivity.
Qed.

(** *** Search *)

Section SearchFacts.

Lemma toLowerCase_nonempty (s : string) : s <> "" -> JS.toLowerCase s <> "".
Proof. destruct s; simpl; congruence. Qed.

(** With an empty (or blank) query both dashboards show the whole snapshot. *)
Lemma search_empty_query (allPrices : list PriceRecord) (input : string) :
  JS.trim input = "" ->
  UserDashboard.search allPrices input = allPrices /\
  AdminDashboard.search allPrices input = allPrices.
Proof.
  intros H. unfold UserDashboard.search, AdminDashboard.search.
  rewrite H. auto.
Qed.

(** The admin dashboard's search matches on all four fields. *)
Lemma admin_search_spec (allPrices : list PriceRecord) (input : string)
  (p : PriceRecord) :
  JS.trim input <> "" ->
  In p (AdminDashboard.search allPrices input) <->
  In p allPrices /\ Spec.search_hit (JS.trim input) p.
Proof.
  intros Hne. unfold AdminDashboard.search.
  assert (Hq : JS.truthy_string (JS.toLowerCase (JS.trim input)) = true)
    by now apply truthy_string_true, toLowerCase_nonempty.
  rewrite Hq.
  cbn [negb]. rewrite filter_In.
  unfold AdminDashboard.search_match, Spec.search_hit.
  rewrite !orb_true_iff, !(field_includes_spec _ _ Hne). tauto.
Qed.

(** The user dashboard's search matches on the name, the retailer and the
    location only. *)
Lemma user_search_spec (allPrices : list PriceRecord) (input : string)
  (p : PriceRecord) :
  JS.trim input <> "" ->
  In p (UserDashboard.search allPrices input) <->
  In p allPrices /\ Spec.search_hit_without_brand (JS.trim input) p.
Proof.
  intros Hne. unfold UserDashboard.search.
  assert (Hq : JS.truthy_string (JS.toLowerCase (JS.trim input)) = true)
    by now apply truthy_string_true, toLowerCase_nonempty.
  rewrite Hq.
  cbn [negb]. rewrite filter_In.
  unfold UserDashboard.search_match, Spec.search_hit_without_brand.
  rewrite !orb_true_iff, !(field_includes_spec _ _ Hne). tauto.
Qed.

End SearchFacts.

(** C4, at the input where the code departs from it: for the query "mama"
    the record's brand contains the query, so the claim has it matched, and
    the admin dashboard's search returns it, but the user dashboard's search
    returns nothing; on the empty query the whole snapshot comes back. *)
Theorem user_search_ignores_brand :
  Spec.search_hit (JS.trim "mama") Sample.mama_gold_rice /\
  UserDashboard.search [Sample.mama_gold_rice] "mama" = [] /\
  AdminDashboard.search [Sample.mama_gold_rice] "mama" = [Sample.mama_gold_rice] /\
  UserDashboard.search [Sample.mama_gold_rice] "" = [Sample.mama_gold_rice].
Proof.
  split; [|repeat split; reflexivity].
  right; right; right. exists "Mama Gold". split; [reflexivity|].
  exists "", "Mama", " Gold". split; reflexivity.
Qed.

(** *** Numbers *)

Section NumberFacts.

Lemma is_zero_spec (x : float) :
  PrimFloat.is_zero x = true -> exists s, Prim2SF x = S754_zero s.
Proof.
  unfold PrimFloat.is_zero. rewrite FloatAxioms.eqb_spec.
  change (Prim2SF PrimFloat.zero) with (S754_zero false).
  destruct (Prim2SF x) as [s|s| |s m e]; cbn; try discriminate; eauto.
  all: destruct s; discriminate.
Qed.

(** [-0] and [0] compare alike. *)
Lemma leb_zero_l (x y : float) :
  PrimFloat.is_zero x = true ->
  PrimFloat.leb x y = PrimFloat.leb PrimFloat.zero y.
Proof.
  intros [s Hs]%is_zero_spec. rewrite !FloatAxioms.leb_spec, Hs.
  change (Prim2SF PrimFloat.zero) with (S754_zero false).
  destruct (Prim2SF y); reflexivity.
Qed.

(** [NaN] compares with nothing. *)
Lemma leb_nan_r (x y : float) :
  PrimFloat.is_nan y = true -> PrimFloat.leb x y = false.
Proof.
  unfold PrimFloat.is_nan. rewrite FloatAxioms.eqb_spec, FloatAxioms.leb_spec.
  destruct (Prim2SF y) as [s|s| |s m e]; cbn.
  - discriminate.
  - destruct s; discriminate.
  - destruct (Prim2SF x); reflexivity.
  - unfold SFeqb, SFcompare. rewrite Z.compare_refl, Pos.compare_cont_refl.
    destruct s; discriminate.
Qed.

(** [x || 0] as a lower bound is [x], or 0 when [x] is no number. *)
Lemma or_default_zero_leb (x y : float) :
  PrimFloat.leb (JS.or_default x PrimFloat.zero) y =
  PrimFloat.leb (if PrimFloat.is_nan x then PrimFloat.zero else x) y.
Proof.
  unfold JS.or_default, JS.truthy_number.
  destruct (PrimFloat.is_zero x) eqn:Hz, (PrimFloat.is_nan x) eqn:Hn;
    cbn [orb negb]; try reflexivity.
  symmetry. now apply leb_zero_l.
Qed.

(** [x || Infinity] is [x] unless [x] is zero or no number. *)
Lemma or_default_nonzero (x d : float) :
  PrimFloat.is_zero x = false ->
  JS.or_default x d = if PrimFloat.is_nan x then d else x.
Proof.
  intros Hz. unfold JS.or_default, JS.truthy_number. rewrite Hz.
  now destruct (PrimFloat.is_nan x).
Qed.

End NumberFacts.

(** *** Filters *)

Section FilterFacts.

Lemma category_test_spec (categoryId : string) (c : id_value) :
  negb (JS.truthy_string categoryId) || String.eqb (String_of_id c) categoryId = true <->
  (Spec.chosen categoryId = None \/
   Spec.chosen categoryId = Some (String_of_id c)).
Proof.
  unfold Spec.chosen.
  destruct categoryId as [|a r]; cbn [JS.truthy_string negb orb].
  - tauto.
  - rewrite String.eqb_eq. split.
    + intros ->. now right.
    + intros [H|H]; [discriminate | congruence].
Qed.

Lemma substring_test_spec (sub : string) (f : option string) :
  negb (JS.truthy_string (JS.toLowerCase sub)) ||
    UserDashboard.field_includes f (JS.toLowerCase sub) = true <->
  (sub = "" \/ Spec.field_contains f sub).
Proof.
  destruct sub as [|a r].
  - cbn. tauto.
  - cbn [JS.toLowerCase JS.truthy_string negb orb].
    change (String (JS.lower_char a) (JS.toLowerCase r))
      with (JS.toLowerCase (String a r)).
    rewrite field_includes_spec by discriminate.
    split; [now right | intros [H|H]; [discriminate | exact H]].
Qed.

(** Unless the maximum typed in is zero, [applyFilters] keeps exactly the
    records that match the criteria the controls stand for. *)
Lemma applyFilters_spec (inputs : UserDashboard.FilterInputs)
  (allPrices : list PriceRecord) (p : PriceRecord) :
  PrimFloat.is_zero (JS.parseFloat (UserDashboard.filterMaxPrice inputs)) = false ->
  In p (UserDashboard.applyFilters inputs allPrices) <->
  In p allPrices /\ Spec.filter_match (Spec.criteria inputs) p.
Proof.
  intros Hmax. unfold UserDashboard.applyFilters. rewrite filter_In.
  apply and_iff_compat_l.
  rewrite !andb_true_iff, category_test_spec, !substring_test_spec.
  unfold Spec.filter_match, Spec.criteria, Spec.bound; cbn [Spec.categoryId
    Spec.minPrice Spec.maxPrice Spec.retailerSubstring Spec.locationSubstring].
  rewrite (or_default_nonzero _ _ Hmax).
  assert (Hprice :
    (is_number (price p) = true /\
     PrimFloat.leb (JS.or_default (JS.parseFloat (UserDashboard.filterMinPrice inputs))
                      PrimFloat.zero) (price_number (price p)) = true) /\
    PrimFloat.leb (price_number (price p))
      (if PrimFloat.is_nan (JS.parseFloat (UserDashboard.filterMaxPrice inputs))
       then PrimFloat.infinity
       else JS.parseFloat (UserDashboard.filterMaxPrice inputs)) = true <->
    exists x, price p = PNum x /\
      PrimFloat.leb
        (default PrimFloat.zero
           (if PrimFloat.is_nan (JS.parseFloat (UserDashboard.filterMinPrice inputs))
            then None
            else Some (JS.parseFloat (UserDashboard.filterMinPrice inputs)))) x = true /\
      PrimFloat.leb x
        (default PrimFloat.infinity
           (if PrimFloat.is_nan (JS.parseFloat (UserDashboard.filterMaxPrice inputs))
            then None
            else Some (JS.parseFloat (UserDashboard.filterMaxPrice inputs)))) = true).
  { destruct (price p) as [x| |]; cbn [is_number price_number].
    - rewrite or_default_zero_leb.
      destruct (PrimFloat.is_nan (JS.parseFloat (UserDashboard.filterMinPrice inputs)));
        destruct (PrimFloat.is_nan (JS.parseFloat (UserDashboard.filterMaxPrice inputs)));
        cbn [default]; split.
      all: try (intros [[_ H1] H2]; exists x; auto).
      all: intros (y & [= <-] & H1 & H2); auto.
    - split; [intros [[H _] _]; discriminate | intros (y & H & _); discriminate].
    - split; [intros [[H _] _]; discriminate | intros (y & H & _); discriminate]. }
  rewrite Hprice. tauto.
Qed.

End FilterFacts.

(** C2, at the input where the code departs from it: with a maximum price of
    0 typed in and no other filter, a record priced 1500 is kept although
    1500 does not lie in [0, 0]; the code reads the 0 as an unset bound. *)
Theorem applyFilters_max_zero_is_unbounded :
  UserDashboard.applyFilters Sample.max_zero [Sample.mama_gold_rice]
    = [Sample.mama_gold_rice] /\
  Spec.maxPrice (Spec.criteria Sample.max_zero) = Some PrimFloat.zero /\
  ~ Spec.filter_match (Spec.criteria Sample.max_zero) Sample.mama_gold_rice.
Proof.
  split; [reflexivity|]. split; [reflexivity|].
  intros (_ & (x & Hx & _ & Hle) & _).
  injection Hx as <-. cbn in Hle. discriminate.
Qed.

(** *** Alerts *)

Section AlertFacts.

Lemma State_ext (a b : State) :
  priceAlerts a = priceAlerts b -> localStorage a = localStorage b ->
  toasts a = toasts b -> dialogs a = dialogs b -> badge a = badge b ->
  alertModalOpen a = alertModalOpen b -> a = b.
Proof. destruct a, b; cbn; intros; subst; reflexivity. Qed.

Lemma with_toasts_nil (st : State) : Spec.with_toasts [] st = st.
Proof. apply State_ext; cbn; auto using app_nil_r. Qed.

Lemma with_toasts_app (x y : list string) (st : State) :
  Spec.with_toasts y (Spec.with_toasts x st) = Spec.with_toasts (x ++ y) st.
Proof. apply State_ext; cbn; auto using app_assoc. Qed.

(** The callback changes its rule and shows its notifications, nothing else. *)
Lemma check_alert_effects (prices : list PriceRecord) (a : AlertRule) (st : State) :
  UserDashboard.check_alert prices a st =
  (Spec.rule_after prices a, Spec.with_toasts (Spec.notified prices a) st).
Proof.
  unfold Spec.rule_after, Spec.notified, UserDashboard.check_alert.
  destruct (triggered a).
  - cbn. now rewrite with_toasts_nil.
  - destruct (find (UserDashboard.alert_hit a) prices); cbn.
    + reflexivity.
    + now rewrite with_toasts_nil.
Qed.

Lemma forEach_check_alert (prices : list PriceRecord) (l : list AlertRule)
  (st : State) :
  forEach (UserDashboard.check_alert prices) l st =
  (map (Spec.rule_after prices) l,
   Spec.with_toasts (flat_map (Spec.notified prices) l) st).
Proof.
  revert st; induction l as [|a l IH]; intros st; cbn [forEach map flat_map].
  - now rewrite with_toasts_nil.
  - now rewrite check_alert_effects, IH, with_toasts_app.
Qed.

(** A triggered rule is skipped. *)
Lemma triggered_rule_skipped (prices : list PriceRecord) (a : AlertRule) :
  triggered a = true ->
  Spec.rule_after prices a = a /\ Spec.notified prices a = [].
Proof.
  intros H. unfold Spec.rule_after, Spec.notified, UserDashboard.check_alert.
  now rewrite H.
Qed.

(** An untriggered rule with a hit is triggered, with one notification. *)
Lemma hit_rule_triggered (prices : list PriceRecord) (a : AlertRule)
  (hit : PriceRecord) :
  triggered a = false ->
  find (UserDashboard.alert_hit a) prices = Some hit ->
  Spec.rule_after prices a = set_triggered a /\
  Spec.notified prices a =
    ["Price alert: " +:+ itemName a +:+ " is now " +:+
     Utils.formatCurrency (price_to_value (price hit))].
Proof.
  intros H Hf. unfold Spec.rule_after, Spec.notified, UserDashboard.check_alert.
  now rewrite H, Hf.
Qed.

(** An untriggered rule without a hit stays as it is. *)
Lemma missed_rule_unchanged (prices : list PriceRecord) (a : AlertRule) :
  triggered a = false ->
  find (UserDashboard.alert_hit a) prices = None ->
  Spec.rule_after prices a = a /\ Spec.notified prices a = [].
Proof.
  intros H Hf. unfold Spec.rule_after, Spec.notified, UserDashboard.check_alert.
  now rewrite H, Hf.
Qed.

(** A qualifying record makes [find] succeed. *)
Lemma qualifying_found (prices : list PriceRecord) (a : AlertRule) :
  Spec.qualifying prices a ->
  exists hit, find (UserDashboard.alert_hit a) prices = Some hit.
Proof.
  intros (p & n & x & Hin & Hn & Hci & Hp & Hle).
  destruct (find (UserDashboard.alert_hit a) prices) as [hit|] eqn:Hf; [eauto|].
  exfalso. apply (find_none _ _ Hf) in Hin.
  unfold UserDashboard.alert_hit in Hin.
  rewrite Hn, Hp in Hin. cbn [price_number] in Hin.
  rewrite Hle, andb_true_r in Hin.
  apply String.eqb_neq in Hin. now apply Hin.
Qed.

(** Evaluating a rule a second time against the same snapshot does nothing. *)
Lemma rule_after_settled (prices : list PriceRecord) (a : AlertRule) :
  Spec.rule_after prices (Spec.rule_after prices a) = Spec.rule_after prices a /\
  Spec.notified prices (Spec.rule_after prices a) = [].
Proof.
  destruct (triggered a) eqn:Ht.
  - destruct (triggered_rule_skipped prices a Ht) as [-> _].
    now apply triggered_rule_skipped.
  - destruct (find (UserDashboard.alert_hit a) prices) as [hit|] eqn:Hf.
    + destruct (hit_rule_triggered prices a hit Ht Hf) as [-> _].
      now apply triggered_rule_skipped.
    + destruct (missed_rule_unchanged prices a Ht Hf) as [-> _].
      now apply missed_rule_unchanged.
Qed.

Lemma rules_after_settled (prices : list PriceRecord) (l : list AlertRule) :
  map (Spec.rule_after prices) (map (Spec.rule_after prices) l) =
    map (Spec.rule_after prices) l /\
  flat_map (Spec.notified prices) (map (Spec.rule_after prices) l) = [].
Proof.
  induction l as [|a l [IH1 IH2]]; cbn [map flat_map]; [auto|].
  destruct (rule_after_settled prices a) as [-> ->]. now rewrite IH1, IH2.
Qed.

(** The fields of the state after [checkPriceAlerts]. *)
Lemma checkPriceAlerts_fields (prices : list PriceRecord) (st : State) :
  let st' := UserDashboard.checkPriceAlerts prices st in
  priceAlerts st' = map (Spec.rule_after prices) (priceAlerts st) /\
  localStorage st' =
    <["priceAlerts" := JSON.stringify (map (Spec.rule_after prices) (priceAlerts st))]>
      (localStorage st) /\
  toasts st' = toasts st ++ flat_map (Spec.notified prices) (priceAlerts st) /\
  dialogs st' = dialogs st /\
  alertModalOpen st' = alertModalOpen st /\
  badge st' =
    badge (UserDashboard.updateAlertBadges
             (set_priceAlerts (map (Spec.rule_after prices) (priceAlerts st)) st)).
Proof.
  unfold UserDashboard.checkPriceAlerts. rewrite forEach_check_alert.
  cbn. auto 10.
Qed.

(** A second evaluation against the same snapshot leaves the whole state as
    the first one left it. *)
Lemma checkPriceAlerts_idempotent (prices : list PriceRecord) (st : State) :
  UserDashboard.checkPriceAlerts prices (UserDashboard.checkPriceAlerts prices st)
  = UserDashboard.checkPriceAlerts prices st.
Proof.
  pose proof (checkPriceAlerts_fields prices st) as (Ha & Hl & Ht & Hd & Hm & Hb).
  pose proof (checkPriceAlerts_fields prices
                (UserDashboard.checkPriceAlerts prices st))
    as (Ha' & Hl' & Ht' & Hd' & Hm' & Hb').
  cbv zeta in *.
  destruct (rules_after_settled prices (priceAlerts st)) as [Hmap Hflat].
  rewrite Ha, Hmap in Ha', Hl', Hb'. rewrite Ha, Hflat, app_nil_r in Ht'.
  apply State_ext; try congruence.
  - rewrite Hl', Hl. apply insert_insert_eq.
  - rewrite Hb', Hb. reflexivity.
Qed.

End AlertFacts.

(** C1: when a rule [r] of the rule list is untriggered and some record of
    the snapshot has its item name (up to case) and a price at or below its
    threshold, one evaluation flips [r] to triggered, in its place, and shows
    exactly one notification for it, between those of the rules before it
    and those of the rules after it; a second evaluation with the same
    snapshot changes nothing and shows nothing further. *)
Theorem alert_triggers_exactly_once
  (prices : list PriceRecord) (st : State)
  (before after : list AlertRule) (r : AlertRule) :
  priceAlerts st = before ++ r :: after ->
  triggered r = false ->
  Spec.qualifying prices r ->
  let st1 := UserDashboard.checkPriceAlerts prices st in
  let st2 := UserDashboard.checkPriceAlerts prices st1 in
  (exists hit,
     find (UserDashboard.alert_hit r) prices = Some hit /\
     priceAlerts st1 =
       map (Spec.rule_after prices) before ++
       set_triggered r :: map (Spec.rule_after prices) after /\
     toasts st1 =
       toasts st ++
       flat_map (Spec.notified prices) before ++
       ["Price alert: " +:+ itemName r +:+ " is now " +:+
        Utils.formatCurrency (price_to_value (price hit))] ++
       flat_map (Spec.notified prices) after) /\
  triggered (set_triggered r) = true /\
  Spec.notified prices (set_triggered r) = [] /\
  st2 = st1.
Proof.
  intros Hl Ht Hq st1 st2.
  destruct (qualifying_found prices r Hq) as [hit Hf].
  destruct (hit_rule_triggered prices r hit Ht Hf) as [Hr Hn].
  pose proof (checkPriceAlerts_fields prices st) as (Ha & _ & Hts & _).
  cbv zeta in Ha, Hts. fold st1 in Ha, Hts.
  split; [exists hit; split; [exact Hf|split]|split; [reflexivity|split]].
  - now rewrite Ha, Hl, map_app, map_cons, Hr.
  - now rewrite Hts, Hl, flat_map_app; cbn [flat_map]; rewrite Hn.
  - now apply triggered_rule_skipped.
  - apply checkPriceAlerts_idempotent.
Qed.

(** The scenario of the specification: the snapshot holds "Rice" at 500 and
    at 1500 and the rule asks for "rice" at 1000 or less. *)
Lemma alert_triggers_exactly_once_witness :
  let st1 := UserDashboard.checkPriceAlerts Sample.snapshot Sample.watching in
  let st2 := UserDashboard.checkPriceAlerts Sample.snapshot st1 in
  (exists hit,
     find (UserDashboard.alert_hit Sample.rice_rule) Sample.snapshot = Some hit /\
     priceAlerts st1 =
       map (Spec.rule_after Sample.snapshot) [Sample.beans_rule] ++
       set_triggered Sample.rice_rule :: map (Spec.rule_after Sample.snapshot) [] /\
     toasts st1 =
       toasts Sample.watching ++
       flat_map (Spec.notified Sample.snapshot) [Sample.beans_rule] ++
       ["Price alert: " +:+ itemName Sample.rice_rule +:+ " is now " +:+
        Utils.formatCurrency (price_to_value (price hit))] ++
       flat_map (Spec.notified Sample.snapshot) []) /\
  triggered (set_triggered Sample.rice_rule) = true /\
  Spec.notified Sample.snapshot (set_triggered Sample.rice_rule) = [] /\
  st2 = st1.
Proof.
  apply (alert_triggers_exactly_once Sample.snapshot Sample.watching
           [Sample.beans_rule] [] Sample.rice_rule).
  - reflexivity.
  - reflexivity.
  - exists (Sample.rice 500), "Rice", 500%float.
    repeat split; try reflexivity. now left.
Defined.

(** The same scenario, evaluated: the rule for "rice" ends up triggered,
    the one for "beans" does not, and one notification is shown. *)
Example scenario_rice :
  let st1 := UserDashboard.checkPriceAlerts Sample.snapshot Sample.watching in
  priceAlerts st1 = [Sample.beans_rule; set_triggered Sample.rice_rule] /\
  toasts st1 = ["Price alert: rice is now ₦500.00"] /\
  badge st1 = "1".
Proof. repeat split; vm_compute; reflexivity. Qed.

(** C7: an attempt to create an alert with an empty (or blank) item name,
    or with a threshold that does not parse as a number, is answered with a
    dialog and changes neither the rule list nor the durable store, nor
    anything else of the page. *)
Theorem malformed_alert_rejected
  (now : Z) (alertItemName alertThreshold : string) (st : State) :
  JS.trim alertItemName = "" \/
  PrimFloat.is_nan (JS.parseFloat alertThreshold) = true ->
  let st' := UserDashboard.savePriceAlert now alertItemName alertThreshold st in
  priceAlerts st' = priceAlerts st /\
  localStorage st' = localStorage st /\
  dialogs st' = dialogs st ++ ["Please fill all alert fields"] /\
  toasts st' = toasts st /\ badge st' = badge st /\
  alertModalOpen st' = alertModalOpen st.
Proof.
  intros H. unfold UserDashboard.savePriceAlert.
  assert (Hc : negb (JS.truthy_string (JS.trim alertItemName)) ||
               PrimFloat.is_nan (JS.parseFloat alertThreshold) = true).
  { destruct H as [-> | ->]; [reflexivity | apply orb_true_r]. }
  rewrite Hc. cbn. auto 10.
Qed.

Lemma malformed_alert_rejected_witness :
  let st' := UserDashboard.savePriceAlert 1700000000002 "Garri" "cheap"
               Sample.watching in
  priceAlerts st' = priceAlerts Sample.watching /\
  localStorage st' = localStorage Sample.watching /\
  dialogs st' = dialogs Sample.watching ++ ["Please fill all alert fields"] /\
  toasts st' = toasts Sample.watching /\ badge st' = badge Sample.watching /\
  alertModalOpen st' = alertModalOpen Sample.watching.
Proof.
  apply (malformed_alert_rejected 1700000000002 "Garri" "cheap" Sample.watching).
  right. reflexivity.
Defined.

(** *** The life of a rule *)

Section LifecycleFacts.

(** An evaluation leaves a rule as it is or flips it to triggered. *)
Lemma rule_after_cases (prices : list PriceRecord) (a : AlertRule) :
  Spec.rule_after prices a = a \/ Spec.rule_after prices a = set_triggered a.
Proof.
  unfold Spec.rule_after, UserDashboard.check_alert.
  destruct (triggered a); [now left|].
  destruct (find (UserDashboard.alert_hit a) prices); cbn; auto.
Qed.

(** The admin dashboard's callback changes a rule as the user dashboard's
    does. *)
Lemma admin_check_alert_rule (prices : list PriceRecord) (a : AlertRule)
  (s : nat * State) :
  fst (AdminDashboard.check_alert prices a s) = Spec.rule_after prices a.
Proof.
  unfold AdminDashboard.check_alert, Spec.rule_after, UserDashboard.check_alert.
  destruct s as [n st]. destruct (triggered a); [reflexivity|].
  destruct (find (UserDashboard.alert_hit a) prices); reflexivity.
Qed.

Lemma admin_forEach_rules (prices : list PriceRecord) (l : list AlertRule)
  (s : nat * State) :
  fst (forEach (AdminDashboard.check_alert prices) l s) =
  map (Spec.rule_after prices) l.
Proof.
  revert s; induction l as [|a l IH]; intros s; cbn [forEach map]; [reflexivity|].
  pose proof (admin_check_alert_rule prices a s) as Ha.
  destruct (AdminDashboard.check_alert prices a s) as [a' s'].
  specialize (IH s').
  destruct (forEach (AdminDashboard.check_alert prices) l s') as [l' s''].
  cbn in *. now rewrite Ha, IH.
Qed.

Lemma admin_checkPriceAlerts_rules (prices : list PriceRecord) (st : State) :
  priceAlerts (AdminDashboard.checkPriceAlerts prices st) =
  map (Spec.rule_after prices) (priceAlerts st).
Proof.
  unfold AdminDashboard.checkPriceAlerts.
  pose proof (admin_forEach_rules prices (priceAlerts st) (O, st)) as H.
  destruct (forEach (AdminDashboard.check_alert prices) (priceAlerts st) (O, st))
    as [alerts [n st']].
  cbn in H. subst alerts. destruct n; reflexivity.
Qed.

(** Creating a rule appends at most one rule, and that one is untriggered. *)
Lemma savePriceAlert_appends (now : Z) (n t : string) (st : State) :
  exists created,
    priceAlerts (UserDashboard.savePriceAlert now n t st) =
      priceAlerts st ++ created /\
    Forall (fun a => triggered a = false) created.
Proof.
  unfold UserDashboard.savePriceAlert.
  destruct (negb (JS.truthy_string (JS.trim n)) ||
            PrimFloat.is_nan (JS.parseFloat t)).
  - exists []. cbn. now rewrite app_nil_r.
  - eexists [_]. cbn. split; [reflexivity|]. now constructor.
Qed.

Lemma admin_savePriceAlert_appends (now : Z) (iso n t : string) (st : State) :
  exists created,
    priceAlerts (AdminDashboard.savePriceAlert now iso n t st) =
      priceAlerts st ++ created /\
    Forall (fun a => triggered a = false) created.
Proof.
  unfold AdminDashboard.savePriceAlert.
  destruct (negb (JS.truthy_string (JS.trim n)) ||
            PrimFloat.is_nan (JS.parseFloat t) ||
            PrimFloat.leb (JS.parseFloat t) PrimFloat.zero).
  - exists []. cbn. now rewrite app_nil_r.
  - eexists [_]. cbn. split; [reflexivity|]. now constructor.
Qed.

Lemma deleteAlert_rules (i : Z) (st : State) :
  priceAlerts (AdminDashboard.deleteAlert i st) =
  List.filter (fun a => negb (alert_id a =? i)%Z) (priceAlerts st).
Proof. reflexivity. Qed.

(** Every rule found after an operation is a rule that was there before,
    as it was or flipped to triggered, or a new, untriggered rule. *)
Lemma apply_origin (op : Spec.operation) (st : State) (a' : AlertRule) :
  In a' (priceAlerts (Spec.apply st op)) ->
  (exists a, In a (priceAlerts st) /\ (a' = a \/ a' = set_triggered a)) \/
  triggered a' = false.
Proof.
  destruct op as [now n t|now iso n t|prices|prices|i]; cbn [Spec.apply].
  - destruct (savePriceAlert_appends now n t st) as (c & -> & Hc).
    rewrite in_app_iff. intros [H|H]; [left; eauto|right].
    rewrite List.Forall_forall in Hc. now apply Hc.
  - destruct (admin_savePriceAlert_appends now iso n t st) as (c & -> & Hc).
    rewrite in_app_iff. intros [H|H]; [left; eauto|right].
    rewrite List.Forall_forall in Hc. now apply Hc.
  - destruct (checkPriceAlerts_fields prices st) as (-> & _).
    rewrite in_map_iff. intros (a & <- & Ha). left. exists a.
    split; [exact Ha | apply rule_after_cases].
  - rewrite admin_checkPriceAlerts_rules, in_map_iff.
    intros (a & <- & Ha). left. exists a.
    split; [exact Ha | apply rule_after_cases].
  - rewrite deleteAlert_rules, filter_In. intros [H _]. left; eauto.
Qed.

(** A triggered rule survives every operation but its own deletion. *)
Lemma apply_keeps_triggered (op : Spec.operation) (st : State) (r : AlertRule) :
  In r (priceAlerts st) -> triggered r = true ->
  op <> Spec.Delete (alert_id r) ->
  In r (priceAlerts (Spec.apply st op)).
Proof.
  intros Hin Ht Hop.
  destruct op as [now n t|now iso n t|prices|prices|i]; cbn [Spec.apply].
  - destruct (savePriceAlert_appends now n t st) as (c & -> & _).
    apply in_app_iff. now left.
  - destruct (admin_savePriceAlert_appends now iso n t st) as (c & -> & _).
    apply in_app_iff. now left.
  - destruct (checkPriceAlerts_fields prices st) as (-> & _).
    apply in_map_iff. exists r. split; [|exact Hin].
    now apply triggered_rule_skipped.
  - rewrite admin_checkPriceAlerts_rules. apply in_map_iff. exists r.
    split; [|exact Hin]. now apply triggered_rule_skipped.
  - rewrite deleteAlert_rules. apply filter_In. split; [exact Hin|].
    apply negb_true_iff, Z.eqb_neq. congruence.
Qed.

End LifecycleFacts.

(** C6: [triggered] only ever goes from false to true.  A rule that is
    triggered stays in the rule list, triggered, through every sequence of
    creations, evaluations and deletions that does not delete it; both
    dashboards skip it when they evaluate; and every rule found after an
    operation is an earlier rule, unchanged or flipped to triggered, or a
    newly created rule, which is untriggered. *)
Theorem triggered_is_monotonic
  (ops : list Spec.operation) (st : State) (r : AlertRule) :
  In r (priceAlerts st) ->
  triggered r = true ->
  ~ In (Spec.Delete (alert_id r)) ops ->
  In r (priceAlerts (Spec.run ops st)) /\
  (forall prices st', UserDashboard.check_alert prices r st' = (r, st')) /\
  (forall prices s, AdminDashboard.check_alert prices r s = (r, s)) /\
  (forall op st0 a',
     In a' (priceAlerts (Spec.apply st0 op)) ->
     (exists a, In a (priceAlerts st0) /\ (a' = a \/ a' = set_triggered a)) \/
     triggered a' = false).
Proof.
  intros Hin Ht Hops. split; [|split; [|split]].
  - revert st Hin Hops. unfold Spec.run.
    induction ops as [|op ops IH]; intros st Hin Hops; cbn [fold_left].
    + exact Hin.
    + apply IH.
      * apply apply_keeps_triggered; auto.
        intros ->. apply Hops. now left.
      * intros H. apply Hops. now right.
  - intros prices st'. unfold UserDashboard.check_alert. now rewrite Ht.
  - intros prices [n st']. unfold AdminDashboard.check_alert. now rewrite Ht.
  - intros op st0 a'. apply apply_origin.
Qed.

(** A rule is created, triggered by an evaluation, kept through a second
    creation, a rejected creation, an evaluation on the admin dashboard and
    the deletion of another rule. *)
Lemma triggered_is_monotonic_witness :
  let st := UserDashboard.checkPriceAlerts Sample.snapshot Sample.watching in
  let r := set_triggered Sample.rice_rule in
  let ops := [Spec.Create 1700000000005 "Garri" "800";
              Spec.Create 1700000000006 "" "800";
              Spec.EvaluateAdmin Sample.snapshot;
              Spec.Delete (alert_id Sample.beans_rule);
              Spec.Evaluate []] in
  In r (priceAlerts (Spec.run ops st)) /\
  (forall prices st', UserDashboard.check_alert prices r st' = (r, st')) /\
  (forall prices s, AdminDashboard.check_alert prices r s = (r, s)) /\
  (forall op st0 a',
     In a' (priceAlerts (Spec.apply st0 op)) ->
     (exists a, In a (priceAlerts st0) /\ (a' = a \/ a' = set_triggered a)) \/
     triggered a' = false).
Proof.
  apply (triggered_is_monotonic
           [Spec.Create 1700000000005 "Garri" "800";
            Spec.Create 1700000000006 "" "800";
            Spec.EvaluateAdmin Sample.snapshot;
            Spec.Delete (alert_id Sample.beans_rule);
            Spec.Evaluate []]
           (UserDashboard.checkPriceAlerts Sample.snapshot Sample.watching)
           (set_triggered Sample.rice_rule)).
  - vm_compute. right. left. reflexivity.
  - reflexivity.
  - cbn. intros [H|[H|[H|[H|[H|[]]]]]]; discriminate.
Defined.

(** *** Statistics *)

Section StatsFacts.

Lemma filter_none {A} (f : A -> bool) (l : list A) :
  (forall x, In x l -> f x = false) -> List.filter f l = [].
Proof.
  induction l as [|a l IH]; intros H; cbn [List.filter]; [reflexivity|].
  rewrite (H a) by now left. apply IH. intros x Hx. apply H. now right.
Qed.

Lemma zero_formatted : Utils.formatCurrency (JS.Num PrimFloat.zero) = "₦0.00".
Proof. vm_compute. reflexivity. Qed.

End StatsFacts.

(** C5: over an empty record set the figures are zero, not NaN and not an
    error.  Globally [updateStats] shows a count of 0 and an average of
    ₦0.00 on both dashboards (it computes no minimum or maximum); for a
    category that no record belongs to, the admin dashboard's count,
    average, minimum and maximum are 0, shown as ₦0.00, and so are the count
    and the average on the user dashboard. *)
Theorem empty_statistics_are_zero
  (allPrices : list PriceRecord) (cat : Category) :
  (forall p, In p allPrices -> UserDashboard.in_category cat p = false) ->
  UserDashboard.average [] = PrimFloat.zero /\
  UserDashboard.updateStats [] =
    {| UserDashboard.totalPrices := "0"; UserDashboard.avgPrice := "₦0.00";
       UserDashboard.totalLocations := "0"; UserDashboard.totalRetailers := "0" |} /\
  AdminDashboard.updateStats [] = UserDashboard.updateStats [] /\
  AdminDashboard.categoryStats allPrices cat =
    {| AdminDashboard.count := 0; AdminDashboard.avgPrice := PrimFloat.zero;
       AdminDashboard.minPrice := PrimFloat.zero;
       AdminDashboard.maxPrice := PrimFloat.zero |} /\
  AdminDashboard.categoryInsight allPrices cat = ["0"; "₦0.00"; "₦0.00"; "₦0.00"] /\
  UserDashboard.categoryInsight allPrices cat = (O, "₦0.00") /\
  PrimFloat.is_nan PrimFloat.zero = false.
Proof.
  intros H. apply filter_none in H.
  split; [reflexivity|]. split; [vm_compute; reflexivity|].
  split; [reflexivity|].
  unfold AdminDashboard.categoryInsight, AdminDashboard.categoryStats,
    UserDashboard.categoryInsight.
  rewrite H. cbn [length map AdminDashboard.count AdminDashboard.avgPrice
                   AdminDashboard.minPrice AdminDashboard.maxPrice].
  rewrite zero_formatted.
  split; [reflexivity|]. split; [reflexivity|].
  split; [vm_compute; reflexivity | reflexivity].
Qed.

Lemma empty_statistics_are_zero_witness :
  UserDashboard.average [] = PrimFloat.zero /\
  UserDashboard.updateStats [] =
    {| UserDashboard.totalPrices := "0"; UserDashboard.avgPrice := "₦0.00";
       UserDashboard.totalLocations := "0"; UserDashboard.totalRetailers := "0" |} /\
  AdminDashboard.updateStats [] = UserDashboard.updateStats [] /\
  AdminDashboard.categoryStats Sample.snapshot Sample.drinks =
    {| AdminDashboard.count := 0; AdminDashboard.avgPrice := PrimFloat.zero;
       AdminDashboard.minPrice := PrimFloat.zero;
       AdminDashboard.maxPrice := PrimFloat.zero |} /\
  AdminDashboard.categoryInsight Sample.snapshot Sample.drinks =
    ["0"; "₦0.00"; "₦0.00"; "₦0.00"] /\
  UserDashboard.categoryInsight Sample.snapshot Sample.drinks = (O, "₦0.00") /\
  PrimFloat.is_nan PrimFloat.zero = false.
Proof.
  apply (empty_statistics_are_zero Sample.snapshot Sample.drinks).
  intros p [<-|[<-|[]]]; reflexivity.
Defined.

(** The second scenario of the specification: two records of one category,
    priced 100 and 300. *)
Example scenario_category_statistics :
  let prices := [Sample.rice 100; Sample.rice 300] in
  let cat := {| cat_id := 1; cat_name := "Grains" |} in
  AdminDashboard.categoryStats prices cat =
    {| AdminDashboard.count := 2; AdminDashboard.avgPrice := 200;
       AdminDashboard.minPrice := 100; AdminDashboard.maxPrice := 300 |}.
Proof. vm_compute. reflexivity. Qed.

(** *** Timers and debouncing *)

Section DebounceFacts.
Local Open Scope Z_scope.

Lemma without_self {C} (h : nat) (d : Z) (c : C) :
  EventLoop.without h
    [{| EventLoop.handle := h; EventLoop.due := d; EventLoop.callback := c |}] = [].
Proof. unfold EventLoop.without. cbn. now rewrite Nat.eqb_refl. Qed.

(** Before the timer is due, time passing changes the clock only. *)
Lemma advance_before_due (pg : UserDashboard.page) (d : Z) (v : string)
  (E : list (string * list PriceRecord)) (P : list PriceRecord) (t : Z) :
  Spec.armed pg d v E P -> t < d ->
  Spec.armed (UserDashboard.advance t pg) d v E P /\
  EventLoop.clock (UserDashboard.loop (UserDashboard.advance t pg)) =
    Z.max (EventLoop.clock (UserDashboard.loop pg)) t.
Proof.
  intros (h & Hp & Hto & Hv & HE & HP) Hlt.
  unfold UserDashboard.advance. rewrite Hp. cbn [length UserDashboard.run_due].
  unfold EventLoop.next_due. rewrite Hp. cbn [EventLoop.earliest EventLoop.due].
  destruct (Z.leb_spec d t); [lia|].
  split; [|reflexivity].
  exists h. cbn. auto.
Qed.

(** An input event replaces the pending timer by one due 200 ms later. *)
Lemma on_input_arms (pg : UserDashboard.page) (d : Z) (v : string)
  (E : list (string * list PriceRecord)) (P : list PriceRecord) (v' : string) :
  Spec.armed pg d v E P ->
  Spec.armed (UserDashboard.on_input v' pg)
    (EventLoop.clock (UserDashboard.loop pg) + 200) v' E P /\
  EventLoop.clock (UserDashboard.loop (UserDashboard.on_input v' pg)) =
    EventLoop.clock (UserDashboard.loop pg).
Proof.
  intros (h & Hp & Hto & Hv & HE & HP).
  unfold UserDashboard.on_input. rewrite Hto.
  cbn [EventLoop.clearTimeout EventLoop.setTimeout].
  rewrite Hp, without_self. cbn. split; [|reflexivity].
  eexists. repeat split; eauto.
Qed.

(** Once the timer is due, time passing runs the search on what the box
    reads, once. *)
Lemma advance_fires (pg : UserDashboard.page) (d : Z) (v : string)
  (E : list (string * list PriceRecord)) (P : list PriceRecord) (t : Z) :
  Spec.armed pg d v E P -> d <= t ->
  UserDashboard.evaluations (UserDashboard.advance t pg) =
    E ++ [(JS.toLowerCase (JS.trim v), UserDashboard.search P v)] /\
  EventLoop.pending (UserDashboard.loop (UserDashboard.advance t pg)) = [].
Proof.
  intros (h & Hp & Hto & Hv & HE & HP) Hle.
  unfold UserDashboard.advance. rewrite Hp. cbn [length UserDashboard.run_due].
  unfold EventLoop.next_due. rewrite Hp. cbn [EventLoop.earliest EventLoop.due].
  destruct (Z.leb_spec d t); [|lia].
  cbn. rewrite Hp, without_self, Hv, HE, HP. auto.
Qed.

Lemma last_cons_default {A} (x d : A) (l : list A) :
  List.last (x :: l) d = List.last l x.
Proof.
  revert x d; induction l as [|y l IH]; intros x d; [reflexivity|].
  change (List.last (x :: y :: l) d) with (List.last (y :: l) d).
  now rewrite (IH y d), (IH y x).
Qed.

Lemma step_input_armed (pg : UserDashboard.page) (d : Z) (v : string)
  (E : list (string * list PriceRecord)) (P : list PriceRecord) (t : Z)
  (v' : string) :
  Spec.armed pg d v E P -> EventLoop.clock (UserDashboard.loop pg) <= t < d ->
  Spec.armed (UserDashboard.step pg (UserDashboard.Input t v')) (t + 200) v' E P /\
  EventLoop.clock (UserDashboard.loop (UserDashboard.step pg (UserDashboard.Input t v'))) = t.
Proof.
  intros Ha [Hc Hd]. cbn [UserDashboard.step].
  destruct (advance_before_due pg d v E P t Ha Hd) as [Ha' Hc'].
  destruct (on_input_arms _ d v E P v' Ha') as [Ha'' Hc''].
  rewrite Hc' in Ha'', Hc''. replace (Z.max _ t) with t in * by lia. auto.
Qed.

(** Inputs that keep arriving within the window keep the search from
    running; the timer is always the one of the latest input. *)
Lemma run_inputs_armed (more : list (Z * string)) (pg : UserDashboard.page)
  (t : Z) (v : string) (E : list (string * list PriceRecord))
  (P : list PriceRecord) :
  Spec.armed pg (t + 200) v E P ->
  EventLoop.clock (UserDashboard.loop pg) = t ->
  Spec.within_window 200 t more ->
  let pg' := UserDashboard.run (Spec.inputs more) pg in
  Spec.armed pg' (fst (List.last more (t, v)) + 200) (snd (List.last more (t, v))) E P /\
  EventLoop.clock (UserDashboard.loop pg') = fst (List.last more (t, v)).
Proof.
  revert pg t v. induction more as [|[t' v'] more IH]; intros pg t v Ha Hc Hw.
  - cbn. auto.
  - destruct Hw as [Ht Hw]. cbn [Spec.inputs map UserDashboard.run fold_left fst snd].
    destruct (step_input_armed pg (t + 200) v E P t' v' Ha) as [Ha' Hc']; [lia|].
    specialize (IH _ t' v' Ha' Hc' Hw).
    rewrite last_cons_default. exact IH.
Qed.


Section Debounced.
Context {A U : Type} (func : A -> U -> U) (wait : Z).

Lemma debounced_advance_before_due (d : @Utils.debounced A U) (due : Z)
  (args : A) (u : U) (t : Z) :
  Spec.armed_call d due args u -> t < due ->
  Spec.armed_call (Utils.advance func t d) due args u /\
  EventLoop.clock (Utils.loop (Utils.advance func t d)) =
    Z.max (EventLoop.clock (Utils.loop d)) t.
Proof.
  intros (h & Hp & Hto & Hu) Hlt.
  unfold Utils.advance. rewrite Hp. cbn [length Utils.run_due].
  unfold EventLoop.next_due. rewrite Hp. cbn [EventLoop.earliest EventLoop.due].
  destruct (Z.leb_spec due t); [lia|].
  split; [|reflexivity]. exists h. cbn. auto.
Qed.

Lemma executedFunction_arms (d : @Utils.debounced A U) (due : Z)
  (args : A) (u : U) (args' : A) :
  Spec.armed_call d due args u ->
  Spec.armed_call (Utils.executedFunction wait args' d)
    (EventLoop.clock (Utils.loop d) + wait) args' u /\
  EventLoop.clock (Utils.loop (Utils.executedFunction wait args' d)) =
    EventLoop.clock (Utils.loop d).
Proof.
  intros (h & Hp & Hto & Hu).
  unfold Utils.executedFunction. rewrite Hto.
  cbn [EventLoop.clearTimeout EventLoop.setTimeout].
  rewrite Hp, without_self. cbn. split; [|reflexivity].
  eexists. repeat split; eauto.
Qed.

Lemma debounced_advance_fires (d : @Utils.debounced A U) (due : Z)
  (args : A) (u : U) (t : Z) :
  Spec.armed_call d due args u -> due <= t ->
  Utils.target (Utils.advance func t d) = func args u /\
  EventLoop.pending (Utils.loop (Utils.advance func t d)) = [].
Proof.
  intros (h & Hp & Hto & Hu) Hle.
  unfold Utils.advance. rewrite Hp. cbn [length Utils.run_due].
  unfold EventLoop.next_due. rewrite Hp. cbn [EventLoop.earliest EventLoop.due].
  destruct (Z.leb_spec due t); [|lia].
  unfold Utils.later.
  cbn [Utils.loop Utils.timeout Utils.target EventLoop.callback].
  rewrite Hto. unfold EventLoop.clearTimeout, EventLoop.fire.
  cbn [EventLoop.pending EventLoop.handle EventLoop.clock EventLoop.next_handle].
  rewrite Hu, Hp, without_self. cbn. auto.
Qed.

Lemma step_call_armed (d : @Utils.debounced A U) (due : Z)
  (args : A) (u : U) (t : Z) (args' : A) :
  Spec.armed_call d due args u -> EventLoop.clock (Utils.loop d) <= t < due ->
  Spec.armed_call (Utils.step func wait d (Utils.Call t args')) (t + wait) args' u /\
  EventLoop.clock (Utils.loop (Utils.step func wait d (Utils.Call t args'))) = t.
Proof.
  intros Ha [Hc Hd]. cbn [Utils.step].
  destruct (debounced_advance_before_due d due args u t Ha Hd) as [Ha' Hc'].
  destruct (executedFunction_arms _ due args u args' Ha') as [Ha'' Hc''].
  rewrite Hc' in Ha'', Hc''. replace (Z.max _ t) with t in * by lia. auto.
Qed.

Lemma run_calls_armed (more : list (Z * A)) (d : @Utils.debounced A U)
  (t : Z) (args : A) (u : U) :
  Spec.armed_call d (t + wait) args u ->
  EventLoop.clock (Utils.loop d) = t ->
  Spec.within_window wait t more ->
  let d' := Utils.run func wait (Spec.calls more) d in
  Spec.armed_call d' (fst (List.last more (t, args)) + wait)
    (snd (List.last more (t, args))) u /\
  EventLoop.clock (Utils.loop d') = fst (List.last more (t, args)).
Proof.
  revert d t args. induction more as [|[t' a'] more IH]; intros d t args Ha Hc Hw.
  - cbn. auto.
  - destruct Hw as [Ht Hw]. cbn [Spec.calls map Utils.run fold_left fst snd].
    destruct (step_call_armed d (t + wait) args u t' a' Ha) as [Ha' Hc']; [lia|].
    specialize (IH _ t' a' Ha' Hc' Hw).
    rewrite last_cons_default. exact IH.
Qed.

(** A burst of calls, each less than [wait] after the one before it, then a
    pause of [wait] or more: [func] has run once, on the arguments of the
    last call. *)
Lemma debounce_runs_last_call (u : U) (t0 : Z) (a0 : A) (more : list (Z * A)) (T : Z) :
  0 <= t0 ->
  Spec.within_window wait t0 more ->
  fst (List.last more (t0, a0)) + wait <= T ->
  Utils.target (Utils.run func wait (Spec.calls ((t0, a0) :: more) ++ [Utils.Idle T])
                  (Utils.start u)) =
    func (snd (List.last more (t0, a0))) u /\
  Utils.target (Utils.run func wait (Spec.calls ((t0, a0) :: more)) (Utils.start u)) = u.
Proof.
  intros H0 Hw HT.
  assert (Hfirst :
    Spec.armed_call (Utils.step func wait (Utils.start u) (Utils.Call t0 a0))
      (t0 + wait) a0 u /\
    EventLoop.clock (Utils.loop (Utils.step func wait (Utils.start u) (Utils.Call t0 a0))) = t0).
  { cbn. replace (Z.max 0 t0) with t0 by lia. split; [|reflexivity].
    eexists. repeat split; eauto. }
  destruct Hfirst as [Ha Hc].
  pose proof (run_calls_armed more _ t0 a0 u Ha Hc Hw) as [Ha' Hc'].
  cbv zeta in Ha'.
  split.
  - unfold Utils.run. rewrite fold_left_app. cbn [fold_left Spec.calls map fst snd].
    cbn [Utils.step].
    now apply (debounced_advance_fires _ _ _ _ T Ha').
  - destruct Ha' as (h & _ & _ & Hu). exact Hu.
Qed.

End Debounced.

End DebounceFacts.

(** C8: the search is debounced.  When input events follow one another at
    less than the 200 ms window and input then pauses for the window or
    longer, nothing is evaluated while the typing goes on and exactly one
    evaluation is made afterwards, of the text that the last event left in
    the search box; a function made by [debounce(func, 200)] given the same
    burst of calls runs [func] once, on the arguments of the last call. *)
Theorem search_is_debounced
  (prices : list PriceRecord) (t0 : Z) (v0 : string)
  (more : list (Z * string)) (T : Z) :
  (0 <= t0)%Z ->
  Spec.within_window 200 t0 more ->
  (fst (List.last more (t0, v0)) + 200 <= T)%Z ->
  let query := snd (List.last more (t0, v0)) in
  let typed := UserDashboard.run (Spec.inputs ((t0, v0) :: more))
                 (UserDashboard.start prices) in
  let paused := UserDashboard.run
                  (Spec.inputs ((t0, v0) :: more) ++ [UserDashboard.Idle T])
                  (UserDashboard.start prices) in
  UserDashboard.evaluations typed = [] /\
  UserDashboard.evaluations paused =
    [(JS.toLowerCase (JS.trim query), UserDashboard.search prices query)] /\
  EventLoop.pending (UserDashboard.loop paused) = [] /\
  (forall (U : Type) (func : string -> U -> U) (u : U),
     Utils.target (Utils.run func 200
                     (Spec.calls ((t0, v0) :: more) ++ [Utils.Idle T])
                     (Utils.start u)) = func query u).
Proof.
  intros H0 Hw HT query typed paused.
  assert (Hfirst :
    Spec.armed (UserDashboard.step (UserDashboard.start prices)
                  (UserDashboard.Input t0 v0)) (t0 + 200) v0 [] prices /\
    EventLoop.clock (UserDashboard.loop
      (UserDashboard.step (UserDashboard.start prices)
         (UserDashboard.Input t0 v0))) = t0).
  { cbn. replace (Z.max 0 t0) with t0 by lia. split; [|reflexivity].
    eexists. repeat split; eauto. }
  destruct Hfirst as [Ha Hc].
  pose proof (run_inputs_armed more _ t0 v0 [] prices Ha Hc Hw) as [Ha' Hc'].
  cbv zeta in Ha'.
  split; [|split; [|split]].
  - destruct Ha' as (h & _ & _ & _ & HE & _). exact HE.
  - subst paused. unfold UserDashboard.run. rewrite fold_left_app.
    cbn [fold_left Spec.inputs map fst snd UserDashboard.step].
    now apply (advance_fires _ _ _ _ _ T Ha').
  - subst paused. unfold UserDashboard.run. rewrite fold_left_app.
    cbn [fold_left Spec.inputs map fst snd UserDashboard.step].
    now apply (advance_fires _ _ _ _ _ T Ha').
  - intros U func u.
    now apply (debounce_runs_last_call func 200 u t0 v0 more T).
Qed.

(** Typing "a", "ap", "app" at 0, 50 and 100 ms and then pausing until 300
    ms: one evaluation, for "app". *)
Lemma search_is_debounced_witness :
  let query := snd (List.last Sample.typing (0%Z, "a")) in
  let typed := UserDashboard.run (Spec.inputs ((0%Z, "a") :: Sample.typing))
                 (UserDashboard.start Sample.snapshot) in
  let paused := UserDashboard.run
                  (Spec.inputs ((0%Z, "a") :: Sample.typing) ++
                   [UserDashboard.Idle 300])
                  (UserDashboard.start Sample.snapshot) in
  UserDashboard.evaluations typed = [] /\
  UserDashboard.evaluations paused =
    [(JS.toLowerCase (JS.trim query),
      UserDashboard.search Sample.snapshot query)] /\
  EventLoop.pending (UserDashboard.loop paused) = [] /\
  (forall (U : Type) (func : string -> U -> U) (u : U),
     Utils.target (Utils.run func 200
                     (Spec.calls ((0%Z, "a") :: Sample.typing) ++ [Utils.Idle 300])
                     (Utils.start u)) = func query u).
Proof.
  apply (search_is_debounced Sample.snapshot 0 "a" Sample.typing 300).
  - lia.
  - cbn. lia.
  - cbn. lia.
Defined.

(** The session evaluated: the one evaluation is that of "app". *)
Example scenario_typing :
  map fst (UserDashboard.evaluations
             (UserDashboard.run
                [UserDashboard.Input 0 "a"; UserDashboard.Input 50 "ap";
                 UserDashboard.Input 100 "app"; UserDashboard.Idle 300]
                (UserDashboard.start Sample.snapshot))) = ["app"].
Proof. vm_compute. reflexivity. Qed.

(** Without a pause there is an evaluation per input that was left alone
    for 200 ms. *)
Example scenario_slow_typing :
  map fst (UserDashboard.evaluations
             (UserDashboard.run
                [UserDashboard.Input 0 "a"; UserDashboard.Input 250 "ap";
                 UserDashboard.Input 300 "app"; UserDashboard.Idle 500]
                (UserDashboard.start Sample.snapshot))) = ["a"; "app"].
Proof. vm_compute. reflexivity. Qed.

(** *** Formatting amounts *)

Section FormatFacts.

Lemma take_drop (n : nat) (s : string) : JS.take n s +:+ JS.drop n s = s.
Proof.
  revert s; induction n as [|n IH]; intros [|c s]; cbn; try reflexivity.
  now rewrite IH.
Qed.

Lemma take_length (n : nat) (s : string) :
  (n <= String.length s)%nat -> String.length (JS.take n s) = n.
Proof.
  revert s; induction n as [|n IH]; intros [|c s]; cbn; intros H;
    try reflexivity; try lia.
  rewrite IH; lia.
Qed.

Lemma drop_length (n : nat) (s : string) :
  String.length (JS.drop n s) = (String.length s - n)%nat.
Proof.
  revert s; induction n as [|n IH]; intros [|c s]; cbn; try reflexivity.
  apply IH.
Qed.

Lemma digits_only_append (a b : string) :
  Spec.digits_only (a +:+ b) = Spec.digits_only a && Spec.digits_only b.
Proof.
  induction a as [|c a IH]; cbn; [reflexivity|].
  now rewrite IH, andb_assoc.
Qed.

Lemma digits_only_take (n : nat) (s : string) :
  Spec.digits_only s = true -> Spec.digits_only (JS.take n s) = true.
Proof.
  intros H. rewrite <- (take_drop n s), digits_only_append in H.
  now apply andb_true_iff in H.
Qed.

Lemma digits_only_drop (n : nat) (s : string) :
  Spec.digits_only s = true -> Spec.digits_only (JS.drop n s) = true.
Proof.
  intros H. rewrite <- (take_drop n s), digits_only_append in H.
  now apply andb_true_iff in H.
Qed.

Lemma digits_only_zeros (n : nat) : Spec.digits_only (JS.zeros n) = true.
Proof. induction n; cbn; auto. Qed.

Lemma zeros_length (n : nat) : String.length (JS.zeros n) = n.
Proof. induction n; cbn; auto. Qed.

(** The decimal rendering of a natural number: digits, at least one. *)
Lemma string_of_uint_digits (d : Decimal.uint) :
  Spec.digits_only (NilEmpty.string_of_uint d) = true.
Proof. induction d; cbn; auto. Qed.

Lemma Z_toString_digits (n : Z) :
  (0 <= n)%Z ->
  Spec.digits_only (JS.Z_toString n) = true /\ JS.Z_toString n <> "".
Proof.
  intros Hn. unfold JS.Z_toString.
  destruct n as [|p|p]; [cbn; split; [reflexivity|discriminate]| |lia].
  cbn [Z.to_int NilZero.string_of_int NilZero.string_of_uint].
  destruct (Pos.to_uint p) eqn:E.
  1: split; [reflexivity|discriminate].
  all: split; [apply string_of_uint_digits | discriminate].
Qed.

Lemma two_chars (b : string) :
  String.length b = 2%nat -> exists d1 d2, b = String d1 (String d2 "").
Proof.
  destruct b as [|d1 [|d2 [|x b]]]; cbn; try discriminate. eauto.
Qed.

(** [toFixed]'s digits for two decimals: an integer part of at least one
    digit, a point and two digits. *)
Lemma fixed_digits_shape (n : Z) :
  (0 <= n)%Z ->
  exists a d1 d2,
    JS.fixed_digits n 2 = a +:+ "." +:+ String d1 (String d2 "") /\
    a <> "" /\ Spec.digits_only a = true /\
    JS.is_digit d1 = true /\ JS.is_digit d2 = true.
Proof.
  intros Hn. destruct (Z_toString_digits n Hn) as [Hd Hne].
  unfold JS.fixed_digits.
  set (m := JS.Z_toString n) in *.
  set (m' := JS.zeros (3 - String.length m) +:+ m).
  assert (Hm' : Spec.digits_only m' = true).
  { unfold m'. now rewrite digits_only_append, digits_only_zeros, Hd. }
  assert (Hlen : (3 <= String.length m')%nat).
  { unfold m'. rewrite length_append, zeros_length. lia. }
  destruct (two_chars (JS.drop (String.length m' - 2) m')) as (d1 & d2 & Hb).
  { rewrite drop_length. lia. }
  exists (JS.take (String.length m' - 2) m'), d1, d2.
  rewrite Hb. split; [reflexivity|].
  pose proof (digits_only_drop (String.length m' - 2) m' Hm') as Hdd.
  rewrite Hb in Hdd. cbn in Hdd.
  apply andb_true_iff in Hdd as [H1 H2]. rewrite andb_true_r in H2.
  repeat split; auto using digits_only_take.
  intros Ht. apply (f_equal String.length) in Ht.
  rewrite take_length in Ht by lia. cbn in Ht. lia.
Qed.

(** *** The separators *)

Lemma is_digit_word (c : ascii) : JS.is_digit c = true -> JS.is_word c = true.
Proof. intros H. unfold JS.is_word. now rewrite H. Qed.

Lemma digit_run_append (w rest : string) :
  Spec.digits_only w = true -> JS.digit_run rest = O ->
  JS.digit_run (w +:+ rest) = String.length w.
Proof.
  intros Hw Hr. induction w as [|c w IH]; cbn in *; [exact Hr|].
  apply andb_true_iff in Hw as [Hc Hw]. rewrite Hc. now rewrite IH.
Qed.

(** Inside a run of digits the pattern matches where the digits that remain
    make up whole groups of three. *)
Lemma comma_inside (p c : ascii) (w rest : string) :
  JS.is_word p = true -> Spec.digits_only (String c w) = true ->
  JS.digit_run rest = O ->
  JS.replace_thousands (Some p) (String c w +:+ rest) =
  (if (String.length (String c w) mod 3 =? 0)%nat then "," else "") +:+
  String c (JS.replace_thousands (Some c) (w +:+ rest)).
Proof.
  intros Hp Hw Hr.
  change (String c w +:+ rest) with (String c (w +:+ rest)).
  cbn [JS.replace_thousands].
  unfold JS.not_word_boundary, JS.groups_of_three_ahead.
  change (String c (w +:+ rest)) with (String c w +:+ rest).
  rewrite (digit_run_append _ _ Hw Hr).
  cbn [JS.head JS.is_word_at append]. rewrite Hp.
  cbn in Hw. apply andb_true_iff in Hw as [Hc _].
  rewrite (is_digit_word _ Hc). cbn [Bool.eqb andb].
  destruct (Nat.eqb_spec (String.length (String c w) mod 3) 0) as [E|E].
  - assert (H3 : (3 <=? String.length (String c w))%nat = true).
    { apply Nat.leb_le. cbn [String.length] in *.
      destruct (String.length w) as [|[|n]]; [discriminate|discriminate|lia]. }
    now rewrite H3.
  - now rewrite andb_false_r.
Qed.

(** At the start of the digits, after a character that is no word
    character (or at the start of the string), the pattern does not match. *)
Lemma no_comma_at_start (prev : option ascii) (c : ascii) (s : string) :
  JS.is_word_at prev = false -> JS.is_digit c = true ->
  JS.replace_thousands prev (String c s) =
  String c (JS.replace_thousands (Some c) s).
Proof.
  intros Hp Hc. cbn [JS.replace_thousands].
  unfold JS.not_word_boundary. cbn [JS.head JS.is_word_at].
  now rewrite Hp, (is_digit_word _ Hc).
Qed.

(** After the digits: a point and two digits take no comma. *)
Lemma no_comma_in_decimals (p d1 d2 : ascii) :
  JS.is_word p = true -> JS.is_digit d1 = true -> JS.is_digit d2 = true ->
  JS.replace_thousands (Some p) ("." +:+ String d1 (String d2 "")) =
  "." +:+ String d1 (String d2 "").
Proof.
  intros Hp H1 H2. cbn [append JS.replace_thousands].
  unfold JS.not_word_boundary, JS.groups_of_three_ahead.
  cbn [JS.head JS.is_word_at JS.digit_run].
  rewrite Hp, H1, H2, (is_digit_word _ H1), (is_digit_word _ H2).
  reflexivity.
Qed.

Lemma digits_only_cons (c : ascii) (w : string) :
  Spec.digits_only (String c w) = true ->
  JS.is_digit c = true /\ Spec.digits_only w = true.
Proof. cbn. apply andb_true_iff. Qed.

Lemma mod3_add (j k : nat) : ((j + 3 * k) mod 3 = j mod 3)%nat.
Proof. rewrite (Nat.mul_comm 3 k). apply Nat.Div0.mod_add. Qed.

Lemma join_empty_cons (x : string) (l : list string) :
  JS.join "" (x :: l) = x +:+ JS.join "" l.
Proof.
  destruct l as [|y l]; cbn [JS.join]; [now rewrite append_nil_r | reflexivity].
Qed.

Lemma join_comma_cons (x : string) (l : list string) :
  JS.join "," (x :: l) = x +:+ JS.join "" (map (fun g => "," +:+ g) l).
Proof.
  revert x; induction l as [|y l IH]; intros x.
  - cbn. now rewrite append_nil_r.
  - change (JS.join "," (x :: y :: l)) with (x +:+ "," +:+ JS.join "," (y :: l)).
    rewrite IH. cbn [map]. rewrite join_empty_cons.
    now rewrite <- !append_assoc.
Qed.

Lemma chunks3_join (k : nat) (z : string) :
  String.length z = (3 * k)%nat -> JS.join "" (Spec.chunks3 k z) = z.
Proof.
  revert z; induction k as [|k IH]; intros z Hz.
  - destruct z; [reflexivity | discriminate].
  - cbn [Spec.chunks3]. rewrite join_empty_cons, IH, take_drop; [reflexivity|].
    rewrite drop_length. lia.
Qed.

Lemma chunks3_lengths (k : nat) (z : string) :
  String.length z = (3 * k)%nat ->
  Forall (fun g => String.length g = 3%nat) (Spec.chunks3 k z).
Proof.
  revert z; induction k as [|k IH]; intros z Hz; cbn [Spec.chunks3].
  - constructor.
  - constructor.
    + apply take_length. lia.
    + apply IH. rewrite drop_length. lia.
Qed.

(** Digits that make up whole groups of three, after a digit: a comma goes
    before every group. *)
Lemma commas_before_groups (k : nat) (z : string) (p : ascii) (rest : string) :
  String.length z = (3 * k)%nat -> Spec.digits_only z = true ->
  JS.is_word p = true -> JS.digit_run rest = O ->
  JS.replace_thousands (Some p) (z +:+ rest) =
  JS.join "" (map (fun g => "," +:+ g) (Spec.chunks3 k z)) +:+
  JS.replace_thousands (Some (Spec.last_char z p)) rest.
Proof.
  revert z p; induction k as [|k IH]; intros z p Hz Hd Hp Hr.
  - destruct z; [reflexivity | discriminate].
  - destruct z as [|c1 [|c2 [|c3 z]]]; try (cbn in Hz; lia).
    assert (Hz' : String.length z = (3 * k)%nat) by (cbn in Hz; lia).
    destruct (digits_only_cons _ _ Hd) as [H1 Hd2].
    destruct (digits_only_cons _ _ Hd2) as [H2 Hd3].
    destruct (digits_only_cons _ _ Hd3) as [H3 Hd4].
    rewrite (comma_inside p c1 _ rest Hp Hd Hr).
    rewrite (comma_inside c1 c2 _ rest (is_digit_word _ H1) Hd2 Hr).
    rewrite (comma_inside c2 c3 _ rest (is_digit_word _ H2) Hd3 Hr).
    rewrite (IH z c3 Hz' Hd4 (is_digit_word _ H3) Hr).
    cbn [String.length]. rewrite Hz'.
    replace (S (S (S (3 * k)))) with (3 + 3 * k)%nat by lia.
    replace (S (S (3 * k))) with (2 + 3 * k)%nat by lia.
    replace (S (3 * k)) with (1 + 3 * k)%nat by lia.
    rewrite !mod3_add.
    cbn [Spec.chunks3 map JS.take JS.drop Spec.last_char].
    rewrite join_empty_cons. reflexivity.
Qed.

(** The separators of a run of digits that starts after a character that is
    no word character: [replace_thousands] groups the digits in threes from
    the right. *)
Lemma separators_spec (prev : option ascii) (y rest : string) :
  JS.is_word_at prev = false -> y <> "" -> Spec.digits_only y = true ->
  JS.digit_run rest = O ->
  exists out,
    Spec.grouped y out /\
    JS.replace_thousands prev (y +:+ rest) =
    out +:+ JS.replace_thousands (Some (Spec.last_char y "0"%char)) rest.
Proof.
  intros Hprev Hne Hd Hr.
  set (n := String.length y).
  set (k := ((n - 1) / 3)%nat).
  set (g := (n - 3 * k)%nat).
  assert (Hn : (1 <= n)%nat).
  { unfold n. destruct y; [congruence | cbn; lia]. }
  assert (Hg : (1 <= g <= 3)%nat /\ n = (g + 3 * k)%nat).
  { unfold g, k. pose proof (Nat.div_mod_eq (n - 1) 3) as E.
    pose proof (Nat.mod_upper_bound (n - 1) 3). lia. }
  destruct Hg as [Hg Hsum].
  exists (JS.join "," (JS.take g y :: Spec.chunks3 k (JS.drop g y))).
  assert (Hdrop : String.length (JS.drop g y) = (3 * k)%nat).
  { rewrite drop_length. fold n. lia. }
  split.
  - exists (JS.take g y), (Spec.chunks3 k (JS.drop g y)).
    split; [rewrite take_length; fold n; lia|].
    split; [now apply chunks3_lengths|].
    split; [|reflexivity].
    now rewrite join_empty_cons, chunks3_join, take_drop.
  - rewrite join_comma_cons.
    rewrite <- (take_drop g y) at 1.
    pose proof (digits_only_drop g y Hd) as Hdd.
    assert (Hlast : forall c w,
              JS.take g y = String c w ->
              Spec.last_char (JS.drop g y) (Spec.last_char w c) =
              Spec.last_char y "0"%char).
    { intros c w Ht. rewrite <- (take_drop g y) at 2. rewrite Ht.
      clear. cbn [append Spec.last_char]. generalize (JS.drop g y). revert c.
      induction w as [|x w IH]; intros c z; cbn [append Spec.last_char];
        [reflexivity | apply IH]. }
    pose proof (digits_only_take g y Hd) as Hdt.
    assert (Htl : String.length (JS.take g y) = g) by (apply take_length; fold n; lia).
    destruct (JS.take g y) as [|c1 [|c2 [|c3 [|c4 t]]]] eqn:Et;
      cbn in Htl; try lia.
    + (* one digit *)
      cbn in Hdt. rewrite andb_true_r in Hdt.
      cbn [append]. rewrite (no_comma_at_start prev c1 _ Hprev Hdt).
      rewrite (commas_before_groups k _ c1 rest Hdrop Hdd (is_digit_word _ Hdt) Hr).
      now rewrite <- (Hlast c1 "" eq_refl).
    + (* two digits *)
      cbn in Hdt. rewrite andb_true_r in Hdt.
      apply andb_true_iff in Hdt as [H1 H2].
      cbn [append]. rewrite (no_comma_at_start prev c1 _ Hprev H1).
      change (String c2 (JS.drop g y +:+ rest))
        with (String c2 (JS.drop g y) +:+ rest).
      assert (Hd2 : Spec.digits_only (String c2 (JS.drop g y)) = true)
        by (cbn; now rewrite H2, Hdd).
      rewrite (comma_inside c1 c2 _ rest (is_digit_word _ H1) Hd2 Hr).
      cbn [String.length]. rewrite Hdrop.
      replace (S (3 * k)) with (1 + 3 * k)%nat by lia. rewrite mod3_add.
      rewrite (commas_before_groups k _ c2 rest Hdrop Hdd (is_digit_word _ H2) Hr).
      now rewrite <- (Hlast c1 (String c2 "") eq_refl).
    + (* three digits *)
      cbn in Hdt. rewrite andb_true_r in Hdt.
      apply andb_true_iff in Hdt as [H1 Hdt].
      apply andb_true_iff in Hdt as [H2 H3].
      cbn [append]. rewrite (no_comma_at_start prev c1 _ Hprev H1).
      change (String c2 (String c3 (JS.drop g y +:+ rest)))
        with (String c2 (String c3 (JS.drop g y)) +:+ rest).
      assert (Hd3 : Spec.digits_only (String c3 (JS.drop g y)) = true)
        by (cbn; now rewrite H3, Hdd).
      assert (Hd2 : Spec.digits_only (String c2 (String c3 (JS.drop g y))) = true)
        by (cbn; now rewrite H2, H3, Hdd).
      rewrite (comma_inside c1 c2 _ rest (is_digit_word _ H1) Hd2 Hr).
      rewrite (comma_inside c2 c3 _ rest (is_digit_word _ H2) Hd3 Hr).
      cbn [String.length]. rewrite Hdrop.
      replace (S (S (3 * k))) with (2 + 3 * k)%nat by lia.
      replace (S (3 * k)) with (1 + 3 * k)%nat by lia. rewrite !mod3_add.
      rewrite (commas_before_groups k _ c3 rest Hdrop Hdd (is_digit_word _ H3) Hr).
      now rewrite <- (Hlast c1 (String c2 (String c3 "")) eq_refl).
Qed.

Lemma last_char_digit (a : string) (p : ascii) :
  Spec.digits_only a = true -> JS.is_digit p = true ->
  JS.is_digit (Spec.last_char a p) = true.
Proof.
  revert p; induction a as [|c a IH]; intros p Ha Hp; [exact Hp|].
  destruct (digits_only_cons _ _ Ha) as [Hc Ha']. cbn. now apply IH.
Qed.

(** The digits [toFixed] prints below 10^21, once the separators are in,
    have the shape of an amount. *)
Lemma format_fixed (neg : bool) (n : Z) :
  (0 <= n)%Z ->
  Spec.currency_shape
    ("₦" +:+ JS.replace_thousands None
               ((if neg then "-" else "") +:+ JS.fixed_digits n 2)).
Proof.
  intros Hn.
  destruct (fixed_digits_shape n Hn) as (a & d1 & d2 & -> & Hne & Ha & H1 & H2).
  assert (Hr : JS.digit_run ("." +:+ String d1 (String d2 "")) = O) by reflexivity.
  assert (Hsep : forall prev, JS.is_word_at prev = false ->
            exists out, Spec.grouped a out /\
              JS.replace_thousands prev (a +:+ "." +:+ String d1 (String d2 "")) =
              out +:+ "." +:+ String d1 (String d2 "")).
  { intros prev Hprev.
    destruct (separators_spec prev a _ Hprev Hne Ha Hr) as (out & Hg & ->).
    exists out. split; [exact Hg|].
    rewrite no_comma_in_decimals; auto.
    apply is_digit_word, last_char_digit; auto. }
  destruct neg.
  - destruct (Hsep (Some "-"%char) eq_refl) as (out & Hg & E).
    exists true, a, out, d1, d2.
    split; [|auto 6].
    change ("-" +:+ a +:+ "." +:+ String d1 (String d2 ""))
      with (String "-"%char (a +:+ "." +:+ String d1 (String d2 ""))).
    cbn [JS.replace_thousands].
    assert (Hno : JS.not_word_boundary None
                    (String "-"%char (a +:+ "." +:+ String d1 (String d2 ""))) &&
                  JS.groups_of_three_ahead
                    (String "-"%char (a +:+ "." +:+ String d1 (String d2 ""))) = false)
      by reflexivity.
    rewrite Hno, E. reflexivity.
  - destruct (Hsep None eq_refl) as (out & Hg & E).
    exists false, a, out, d1, d2.
    split; [|auto 6].
    change ("" +:+ a +:+ "." +:+ String d1 (String d2 ""))
      with (a +:+ "." +:+ String d1 (String d2 "")).
    now rewrite E.
Qed.

(** *** Numbers below 10^21 *)

Lemma digits2_bound (m : positive) :
  (Z.pos m < 2 ^ Z.pos (digits2_pos m))%Z.
Proof.
  induction m as [m IH|m IH|]; cbn [digits2_pos].
  - rewrite Pos2Z.inj_succ, Z.pow_succ_r by lia. lia.
  - rewrite Pos2Z.inj_succ, Z.pow_succ_r by lia. lia.
  - reflexivity.
Qed.

(** The mantissa of a float has at most 53 bits. *)
Lemma mantissa_bound (x : float) (s : bool) (m : positive) (e : Z) :
  Prim2SF x = S754_finite s m e -> (Z.pos m < 2 ^ 53)%Z.
Proof.
  intros E. pose proof (Prim2SF_valid x) as V. rewrite E in V.
  cbn [valid_binary] in V. unfold bounded, canonical_mantissa in V.
  apply andb_true_iff in V as [V _]. apply Z.eqb_eq in V.
  unfold fexp in V.
  pose proof (digits2_bound m) as B.
  assert (Hd : (Z.pos (digits2_pos m) <= 53)%Z)
    by (unfold FloatOps.prec in V; lia).
  eapply Z.lt_le_trans; [exact B|].
  apply Z.pow_le_mono_r; lia.
Qed.

Lemma exact_positive (m : positive) (e : Z) :
  (0 < fst (JS.exact m e) /\ 0 < snd (JS.exact m e))%Z.
Proof.
  unfold JS.exact. destruct (Z.leb_spec 0 e); cbn [fst snd].
  - split; [|lia]. apply Z.mul_pos_pos; [lia|]. apply Z.pow_pos_nonneg; lia.
  - split; [lia|]. apply Z.pow_pos_nonneg; lia.
Qed.

(** A float whose magnitude compares below 10^21 has an exact value below
    10^21. *)
Lemma below_1e21_exact (x : float) (s : bool) (m : positive) (e : Z) :
  Prim2SF x = S754_finite s m e ->
  PrimFloat.ltb (PrimFloat.abs x) 1e21 = true ->
  (fst (JS.exact m e) < 10 ^ 21 * snd (JS.exact m e))%Z.
Proof.
  intros E H. pose proof (mantissa_bound x s m e E) as Hm.
  rewrite FloatAxioms.ltb_spec, FloatAxioms.abs_spec, E in H.
  change (Prim2SF 1e21) with (S754_finite false 7629394531250000 17) in H.
  cbn [SFabs] in H. unfold SFltb, SFcompare in H.
  rewrite Pos.compare_cont_spec in H.
  change (2 ^ 53)%Z with 9007199254740992%Z in Hm.
  unfold JS.exact. destruct (Z.leb_spec 0 e) as [He|He]; cbn [fst snd].
  - destruct (Z.compare_spec e 17) as [->|Hlt|Hgt]; try discriminate.
    + destruct (Pos.compare_spec m 7629394531250000) as [Hc|Hc|Hc];
        try discriminate.
      apply Pos2Z.pos_lt_pos in Hc. clear - Hc.
      change (10 ^ 21)%Z with (7629394531250000 * 131072)%Z.
      change (2 ^ 17)%Z with 131072%Z. lia.
    + clear H E.
      assert (2 ^ e <= 2 ^ 16)%Z by (apply Z.pow_le_mono_r; lia).
      change (10 ^ 21)%Z with 1000000000000000000000%Z.
      change (2 ^ 16)%Z with 65536%Z in *.
      assert (0 < 2 ^ e)%Z by (apply Z.pow_pos_nonneg; lia). nia.
  - clear H E.
    assert (1 <= 2 ^ (- e))%Z.
    { change 1%Z with (2 ^ 0)%Z. apply Z.pow_le_mono_r; lia. }
    change (10 ^ 21)%Z with 1000000000000000000000%Z. nia.
Qed.

(** Below 10^21, [toFixed(2)] prints a sign and the digits of an integer
    with a point before the last two. *)
Lemma toFixed_below_1e21 (x : float) :
  PrimFloat.ltb (PrimFloat.abs x) 1e21 = true ->
  exists (neg : bool) (n : Z),
    (0 <= n)%Z /\
    JS.toFixed x 2 = (if neg then "-" else "") +:+ JS.fixed_digits n 2.
Proof.
  intros H. unfold JS.toFixed.
  destruct (Prim2SF x) as [s|s| |s m e] eqn:E.
  - exists false, 0%Z. split; [lia | reflexivity].
  - rewrite FloatAxioms.ltb_spec, FloatAxioms.abs_spec, E in H. discriminate.
  - rewrite FloatAxioms.ltb_spec, FloatAxioms.abs_spec, E in H. discriminate.
  - pose proof (below_1e21_exact x s m e E H) as Hb.
    pose proof (exact_positive m e) as [Hn Hd].
    destruct (JS.exact m e) as [num den]. cbn [fst snd] in *.
    destruct (Z.leb_spec (10 ^ 21 * den) num) as [Hge|_]; [lia|].
    exists s, ((2 * num * 10 ^ Z.of_nat 2 + den) / (2 * den))%Z.
    split; [|reflexivity].
    apply Z.div_pos; [|lia].
    change (10 ^ Z.of_nat 2)%Z with 100%Z. lia.
Qed.

Lemma is_nan_spec (x : float) :
  PrimFloat.is_nan x = true -> Prim2SF x = S754_nan.
Proof.
  unfold PrimFloat.is_nan. rewrite FloatAxioms.eqb_spec.
  destruct (Prim2SF x) as [s|s| |s m e]; cbn; try discriminate; auto.
  - destruct s; discriminate.
  - unfold SFeqb, SFcompare. rewrite Z.compare_refl, Pos.compare_cont_refl.
    destruct s; discriminate.
Qed.

Lemma formatCurrency_number (x : float) :
  Utils.formatCurrency (JS.Num x) =
  "₦" +:+ JS.replace_thousands None (JS.toFixed x 2).
Proof. reflexivity. Qed.

(** A value that is no number is read with [parseFloat]. *)
Lemma formatCurrency_other (amount : JS.value) :
  (forall x, amount <> JS.Num x) ->
  Utils.formatCurrency amount =
  Utils.formatCurrency
    (JS.Num (JS.or_default (JS.parseFloat (JS.ToString amount)) PrimFloat.zero)).
Proof.
  intros H. destruct amount; try reflexivity. now destruct (H x).
Qed.

(** *** The digits of a number denote it *)

Lemma digits_value_uint_acc (d : Decimal.uint) :
  forall acc : positive,
    JS.digits_value (Z.pos acc) (NilEmpty.string_of_uint d) =
    Z.pos (Pos.of_uint_acc d acc).
Proof.
  induction d; intros acc;
    cbn [NilEmpty.string_of_uint JS.digits_value Pos.of_uint_acc];
    [reflexivity|..];
    rewrite <- IHd; f_equal;
    match goal with
    | |- context [JS.charCode ?c] =>
        let v := eval vm_compute in (JS.charCode c) in
        change (JS.charCode c) with v
    end; lia.
Qed.

Lemma digits_value_uint (d : Decimal.uint) :
  JS.digits_value 0 (NilEmpty.string_of_uint d) = Z.of_N (Pos.of_uint d).
Proof.
  induction d; cbn [NilEmpty.string_of_uint JS.digits_value Pos.of_uint];
    [reflexivity | exact IHd | ..];
    cbn [Z.of_N]; rewrite <- digits_value_uint_acc; reflexivity.
Qed.

(** Reading the decimal digits of a natural number gives the number. *)
Lemma digits_value_Z_toString (n : Z) :
  (0 <= n)%Z -> JS.digits_value 0 (JS.Z_toString n) = n.
Proof.
  intros Hn. unfold JS.Z_toString.
  destruct n as [|p|p]; [reflexivity| |lia].
  cbn [Z.to_int NilZero.string_of_int].
  pose proof (DecimalPos.Unsigned.to_uint_nonnil p) as Hnil.
  pose proof (DecimalPos.Unsigned.of_to p) as Hof.
  assert (Hs : NilZero.string_of_uint (Pos.to_uint p) =
               NilEmpty.string_of_uint (Pos.to_uint p))
    by (destruct (Pos.to_uint p); [congruence | reflexivity ..]).
  rewrite Hs. now rewrite digits_value_uint, Hof.
Qed.

(** The digits of a positive number do not begin with a zero. *)
Lemma Z_toString_head (p : positive) :
  exists c r, JS.Z_toString (Z.pos p) = String c r /\ c <> "0"%char.
Proof.
  unfold JS.Z_toString.
  cbn [Z.to_int NilZero.string_of_int].
  pose proof (DecimalPos.Unsigned.to_uint_nonnil p) as Hnil.
  pose proof (DecimalPos.Unsigned.to_of (Pos.to_uint p)) as Hto.
  rewrite DecimalPos.Unsigned.of_to in Hto. cbn [N.to_uint] in Hto.
  assert (Hnz : forall d', Pos.to_uint p <> Decimal.D0 d').
  { intros d' E.
    destruct (Decimal.nzhead (Pos.to_uint p)) eqn:Hz;
      [apply DecimalFacts.unorm_0 in Hz; apply (DecimalPos.Unsigned.to_uint_nonzero p); congruence|..];
      apply (DecimalFacts.nzhead_nonzero (Pos.to_uint p) d');
      rewrite <- DecimalFacts.unorm_nzhead by congruence; congruence. }
  destruct (Pos.to_uint p) eqn:E; [congruence | exfalso; eapply Hnz; reflexivity | ..];
    cbn [NilZero.string_of_uint NilEmpty.string_of_uint];
    eexists _, _; (split; [reflexivity | discriminate]).
Qed.

Lemma digits_value_zeros (k : nat) (s : string) :
  JS.digits_value 0 (JS.zeros k +:+ s) = JS.digits_value 0 s.
Proof. induction k as [|k IH]; [reflexivity | exact IH]. Qed.

(** [toFixed]'s digits for two decimals denote the number of hundredths,
    and the integer part has no leading zeros. *)
Lemma fixed_digits_value (n : Z) :
  (0 <= n)%Z ->
  exists a d1 d2,
    JS.fixed_digits n 2 = a +:+ "." +:+ String d1 (String d2 "") /\
    Spec.digits_only (a +:+ String d1 (String d2 "")) = true /\
    JS.digits_value 0 (a +:+ String d1 (String d2 "")) = n /\
    (a = "0" \/ exists c r, a = String c r /\ c <> "0"%char) /\
    a <> "" /\ Spec.digits_only a = true /\
    JS.is_digit d1 = true /\ JS.is_digit d2 = true.
Proof.
  intros Hn. destruct (Z_toString_digits n Hn) as [Hd Hne].
  pose proof (digits_value_Z_toString n Hn) as Hv.
  unfold JS.fixed_digits.
  set (m := JS.Z_toString n) in *.
  set (m' := JS.zeros (3 - String.length m) +:+ m).
  assert (Hm' : Spec.digits_only m' = true).
  { unfold m'. now rewrite digits_only_append, digits_only_zeros, Hd. }
  assert (Hlen : (3 <= String.length m')%nat).
  { unfold m'. rewrite length_append, zeros_length. lia. }
  destruct (two_chars (JS.drop (String.length m' - 2) m')) as (d1 & d2 & Hb).
  { rewrite drop_length. lia. }
  exists (JS.take (String.length m' - 2) m'), d1, d2.
  rewrite Hb.
  assert (Hsplit : JS.take (String.length m' - 2) m' +:+ String d1 (String d2 "") = m')
    by (rewrite <- Hb; apply take_drop).
  pose proof (digits_only_drop (String.length m' - 2) m' Hm') as Hdd.
  rewrite Hb in Hdd. cbn in Hdd.
  apply andb_true_iff in Hdd as [H1 H2]. rewrite andb_true_r in H2.
  split; [reflexivity|]. rewrite Hsplit.
  split; [exact Hm'|].
  split; [unfold m'; now rewrite digits_value_zeros|].
  split.
  - destruct (Nat.le_gt_cases 3 (String.length m)) as [Hl|Hl].
    + right. unfold m'.
      replace (3 - String.length m)%nat with O by lia. cbn [JS.zeros append].
      destruct n as [|p|p]; [cbn in Hl; lia| |lia].
      destruct (Z_toString_head p) as (c & r & Em & Hc). fold m in Em.
      rewrite Em in Hl |- *. cbn [String.length] in Hl |- *.
      destruct (String.length r - 1)%nat eqn:Er; [lia|].
      replace (S (String.length r) - 2)%nat with (S n) by lia.
      cbn [JS.take]. eauto.
    + left. assert (Hl3 : String.length m' = 3%nat).
      { unfold m'. rewrite length_append, zeros_length. lia. }
      rewrite Hl3. unfold m'.
      destruct (3 - String.length m)%nat eqn:Ez; [lia|]. reflexivity.
  - repeat split; auto using digits_only_take.
    intros Ht. apply (f_equal String.length) in Ht.
    rewrite take_length in Ht by lia. cbn in Ht. lia.
Qed.

(** The digits [toFixed] prints below 10^21, once the separators are in,
    show the amount. *)
Lemma format_amount (neg : bool) (n : Z) :
  (0 <= n)%Z ->
  Spec.amount_text neg n
    ("₦" +:+ JS.replace_thousands None
               ((if neg then "-" else "") +:+ JS.fixed_digits n 2)).
Proof.
  intros Hn.
  destruct (fixed_digits_value n Hn)
    as (a & d1 & d2 & -> & Hall & Hv & Hhead & Hne & Ha & H1 & H2).
  assert (Hr : JS.digit_run ("." +:+ String d1 (String d2 "")) = O) by reflexivity.
  assert (Hsep : forall prev, JS.is_word_at prev = false ->
            exists out, Spec.grouped a out /\
              JS.replace_thousands prev (a +:+ "." +:+ String d1 (String d2 "")) =
              out +:+ "." +:+ String d1 (String d2 "")).
  { intros prev Hprev.
    destruct (separators_spec prev a _ Hprev Hne Ha Hr) as (out & Hg & ->).
    exists out. split; [exact Hg|].
    rewrite no_comma_in_decimals; auto.
    apply is_digit_word, last_char_digit; auto. }
  destruct neg.
  - destruct (Hsep (Some "-"%char) eq_refl) as (out & Hg & E).
    exists a, out, d1, d2.
    split; [|auto].
    change ("-" +:+ a +:+ "." +:+ String d1 (String d2 ""))
      with (String "-"%char (a +:+ "." +:+ String d1 (String d2 ""))).
    cbn [JS.replace_thousands].
    assert (Hno : JS.not_word_boundary None
                    (String "-"%char (a +:+ "." +:+ String d1 (String d2 ""))) &&
                  JS.groups_of_three_ahead
                    (String "-"%char (a +:+ "." +:+ String d1 (String d2 ""))) = false)
      by reflexivity.
    rewrite Hno, E. reflexivity.
  - destruct (Hsep None eq_refl) as (out & Hg & E).
    exists a, out, d1, d2.
    split; [|auto].
    change ("" +:+ a +:+ "." +:+ String d1 (String d2 ""))
      with (a +:+ "." +:+ String d1 (String d2 "")).
    now rewrite E.
Qed.

(** Text of that kind has the shape of an amount. *)
Lemma amount_text_shape (neg : bool) (n : Z) (s : string) :
  Spec.amount_text neg n s -> Spec.currency_shape s.
Proof.
  intros (ds & out & d1 & d2 & -> & Hall & _ & Hhead & Hg).
  rewrite digits_only_append in Hall. apply andb_true_iff in Hall as [Hds Hdd].
  cbn in Hdd. apply andb_true_iff in Hdd as [H1 H2]. rewrite andb_true_r in H2.
  exists neg, ds, out, d1, d2. repeat split; auto.
  destruct Hhead as [->|(c & r & -> & _)]; discriminate.
Qed.

(** A finite number is below 0 exactly when its sign is set. *)
Lemma ltb_zero_sign (x : float) (s : bool) (m : positive) (e : Z) :
  Prim2SF x = S754_finite s m e -> PrimFloat.ltb x PrimFloat.zero = s.
Proof.
  intros E. rewrite FloatAxioms.ltb_spec, E.
  change (Prim2SF PrimFloat.zero) with (S754_zero false).
  destruct s; reflexivity.
Qed.

(** Below 10^21, [toFixed(2)] prints a minus sign for a number below 0 and
    the digits of the nearest number of hundredths. *)
Lemma toFixed_hundredths (x : float) :
  PrimFloat.ltb (PrimFloat.abs x) 1e21 = true ->
  exists n : Z,
    (0 <= n)%Z /\ Spec.hundredths x n /\
    JS.toFixed x 2 =
      (if PrimFloat.ltb x PrimFloat.zero then "-" else "") +:+ JS.fixed_digits n 2.
Proof.
  intros H. unfold JS.toFixed, Spec.hundredths.
  destruct (Prim2SF x) as [s|s| |s m e] eqn:E.
  - exists 0%Z. split; [lia|]. split; [reflexivity|].
    assert (Hz : PrimFloat.ltb x PrimFloat.zero = false).
    { rewrite FloatAxioms.ltb_spec, E.
      change (Prim2SF PrimFloat.zero) with (S754_zero false).
      destruct s; reflexivity. }
    now rewrite Hz.
  - rewrite FloatAxioms.ltb_spec, FloatAxioms.abs_spec, E in H. discriminate.
  - rewrite FloatAxioms.ltb_spec, FloatAxioms.abs_spec, E in H. discriminate.
  - pose proof (below_1e21_exact x s m e E H) as Hb.
    pose proof (exact_positive m e) as [Hnum Hden].
    rewrite (ltb_zero_sign x s m e E).
    unfold JS.exact in *.
    destruct (Z.leb_spec 0 e) as [He|He]; cbn [fst snd] in *.
    + destruct (Z.leb_spec (10 ^ 21 * 1) (Z.pos m * 2 ^ e)) as [Hge|_]; [lia|].
      exists ((2 * (Z.pos m * 2 ^ e) * 10 ^ Z.of_nat 2 + 1) / (2 * 1))%Z.
      change (10 ^ Z.of_nat 2)%Z with 100%Z.
      split; [apply Z.div_pos; lia|]. split; [|reflexivity].
      set (v := (Z.pos m * 2 ^ e)%Z) in *.
      replace (200 * Z.pos m * 2 ^ e)%Z with (200 * v)%Z by (unfold v; lia).
      clearbody v. Z.div_mod_to_equations. lia.
    + set (D := (2 ^ (- e))%Z) in *.
      destruct (Z.leb_spec (10 ^ 21 * D) (Z.pos m)) as [Hge|_]; [lia|].
      exists ((2 * Z.pos m * 10 ^ Z.of_nat 2 + D) / (2 * D))%Z.
      change (10 ^ Z.of_nat 2)%Z with 100%Z.
      split; [apply Z.div_pos; lia|]. split; [|reflexivity].
      clearbody D. clear Hb H E.
      pose proof (Z.div_mod (2 * Z.pos m * 100 + D) (2 * D) ltac:(lia)) as Hdm.
      pose proof (Z.mod_pos_bound (2 * Z.pos m * 100 + D) (2 * D) ltac:(lia)) as Hmb.
      set (q := ((2 * Z.pos m * 100 + D) / (2 * D))%Z) in *.
      set (r := ((2 * Z.pos m * 100 + D) mod (2 * D))%Z) in *.
      clearbody q r. nia.
Qed.

End FormatFacts.

(** C10, as the code has it: [formatCurrency] is total on the values of
    [JS.value] and every result begins with the naira sign.  A number that
    is finite and below 10^21 in magnitude is rendered as an amount: a minus
    sign if the number is below 0, then the integer nearest to 100 times its
    magnitude (the larger one on a tie) written in decimal with thousands
    separators before its last two digits, a point and those two digits.  A
    number that is NaN is rendered "₦NaN", and the infinities "₦Infinity"
    and "₦-Infinity"; a value that is no number is read with [parseFloat],
    and if that gives no number the result is "₦0.00". *)
Theorem formatCurrency_renders (amount : JS.value) :
  (exists rest, Utils.formatCurrency amount = "₦" +:+ rest) /\
  (forall x, amount = JS.Num x ->
     PrimFloat.ltb (PrimFloat.abs x) 1e21 = true ->
     Spec.currency_shape (Utils.formatCurrency amount) /\
     exists n : Z,
       Spec.hundredths x n /\
       Spec.amount_text (PrimFloat.ltb x PrimFloat.zero) n
         (Utils.formatCurrency amount)) /\
  (forall x, amount = JS.Num x -> PrimFloat.is_nan x = true ->
     Utils.formatCurrency amount = "₦NaN") /\
  Utils.formatCurrency (JS.Num PrimFloat.infinity) = "₦Infinity" /\
  Utils.formatCurrency (JS.Num PrimFloat.neg_infinity) = "₦-Infinity" /\
  ((forall x, amount <> JS.Num x) ->
   PrimFloat.is_nan (JS.parseFloat (JS.ToString amount)) = true ->
   Utils.formatCurrency amount = "₦0.00").
Proof.
  split; [|split; [|split; [|split; [|split]]]].
  - unfold Utils.formatCurrency. eauto.
  - intros x -> Hx. rewrite formatCurrency_number.
    destruct (toFixed_hundredths x Hx) as (n & Hn & Hh & ->).
    pose proof (format_amount (PrimFloat.ltb x PrimFloat.zero) n Hn) as Ha.
    split; [exact (amount_text_shape _ _ _ Ha) | eauto].
  - intros x -> Hx. rewrite formatCurrency_number.
    unfold JS.toFixed. now rewrite (is_nan_spec x Hx).
  - vm_compute. reflexivity.
  - vm_compute. reflexivity.
  - intros Hno Hnan. rewrite (formatCurrency_other amount Hno).
    unfold JS.or_default, JS.truthy_number. rewrite Hnan, orb_true_r.
    cbn [negb]. vm_compute. reflexivity.
Qed.

(** -1234.565 is rendered "₦-1,234.57", as the amount of 123457 hundredths
    below 0, and the text "abc" as "₦0.00". *)
Lemma formatCurrency_renders_witness :
  Utils.formatCurrency (JS.Num (-1234.565)) = "₦-1,234.57" /\
  (exists n : Z,
     Spec.hundredths (-1234.565) n /\
     Spec.amount_text true n (Utils.formatCurrency (JS.Num (-1234.565)))) /\
  Utils.formatCurrency (JS.Str "abc") = "₦0.00".
Proof.
  split; [vm_compute; reflexivity|]. split.
  - apply (proj1 (proj2 (formatCurrency_renders (JS.Num (-1234.565))))
             (-1234.565)%float); reflexivity.
  - apply (proj2 (proj2 (proj2 (proj2 (proj2
             (formatCurrency_renders (JS.Str "abc"))))))).
    + intros x. discriminate.
    + reflexivity.
Defined.

(** The number of hundredths and the sign fix the text. *)
Example scenario_hundredths :
  Spec.hundredths 1234.5 123450 /\ Spec.hundredths (-0.005) 1 /\
  Spec.hundredths 0.004 0 /\
  Utils.formatCurrency (JS.Num (-0.005)) = "₦-0.01" /\
  Utils.formatCurrency (JS.Num (-0.004)) = "₦-0.00" /\
  Utils.formatCurrency (JS.Num 1234567.891) = "₦1,234,567.89".
Proof. repeat split; vm_compute; try reflexivity; intros; discriminate. Qed.

(** Every amount of that shape has a decimal point. *)
Lemma currency_shape_has_point (s : string) :
  Spec.currency_shape s -> JS.includes s "." = true.
Proof.
  intros (neg & ds & out & d1 & d2 & -> & _).
  apply includes_spec.
  exists ("₦" +:+ (if neg then "-" else "") +:+ out), (String d1 (String d2 "")).
  now rewrite !append_assoc.
Qed.

(** C10 as stated fails on numbers: NaN is a number and is rendered "₦NaN",
    and 10^21 is rendered "₦1e+21"; neither has two decimal places. *)
Lemma formatCurrency_counterexample :
  Utils.formatCurrency (JS.Num PrimFloat.nan) = "₦NaN" /\
  ~ Spec.currency_shape (Utils.formatCurrency (JS.Num PrimFloat.nan)) /\
  Utils.formatCurrency (JS.Num 1e21) = "₦1e+21" /\
  ~ Spec.currency_shape (Utils.formatCurrency (JS.Num 1e21)).
Proof.
  assert (E1 : Utils.formatCurrency (JS.Num PrimFloat.nan) = "₦NaN")
    by (vm_compute; reflexivity).
  assert (E2 : Utils.formatCurrency (JS.Num 1e21) = "₦1e+21")
    by (vm_compute; reflexivity).
  rewrite E1, E2. repeat split.
  - intros H%currency_shape_has_point. vm_compute in H. discriminate.
  - intros H%currency_shape_has_point. vm_compute in H. discriminate.
Qed.

(** *** Reading back what [JSON.stringify] writes *)

Section JSONFacts.




(** **** Strings *)



(** **** Numbers *)









(** **** Integers *)



End JSONFacts.

Section JSONRoundTrip.










End JSONRoundTrip.




(** Thresholds as they are typed into the alert form read back from the
    store as they are; [-0] comes back as [0], and the largest and the
    smallest number come back as they are. *)
Example scenario_thresholds :
  Forall JSON.reads_back
    [1000; 300; 0.5; 49.99; 1234567.891; 1e21; 1e-7; 5e-324;
     1.7976931348623157e308; (-12.5)]%float /\
  JSON.number_value (JS.Number_toString (-0)%float) = Some 0%float /\
  JSON.number (PrimFloat.infinity) = "null" /\
  JSON.number (PrimFloat.nan) = "null".
Proof.
  split.
  - repeat (apply List.Forall_cons; [vm_compute; reflexivity|]).
    apply List.Forall_nil.
  - repeat split; vm_compute; reflexivity.
Qed.

(** Texts that are no JSON numbers are not read as numbers. *)
Example scenario_number_grammar :
  map JSON.is_number ["0"; "-0"; "10"; "1.5"; "1e5"; "1E+5"; "-1.25e-3"] =
    [true; true; true; true; true; true; true] /\
  map JSON.is_number [""; "-"; "01"; "1."; ".5"; "+1"; "1e"; "1e+"; "Infinity";
                      "NaN"; "1.5.2"; "0x10"] =
    [false; false; false; false; false; false; false; false; false; false;
     false; false].
Proof. split; vm_compute; reflexivity. Qed.

(** *** The filters and the search in ordinary use *)

(** Category 1, a price between 1000 and 2000, "campus" in the retailer and
    "AKOKA" in the location: the record of Mama Gold rice passes, a record
    without retailer or location does not. *)
Example scenario_filters :
  UserDashboard.applyFilters Sample.rice_filter
    [Sample.rice 1500; Sample.mama_gold_rice; Sample.rice 500]
  = [Sample.mama_gold_rice] /\
  Spec.filter_match (Spec.criteria Sample.rice_filter) Sample.mama_gold_rice.
Proof.
  split; [vm_compute; reflexivity|].
  split; [right; reflexivity|]. split; [|split].
  - exists 1500%float. repeat split; vm_compute; reflexivity.
  - right. exists "Campus Mart". split; [reflexivity|].
    exists "", "Campus", " Mart". split; reflexivity.
  - right. exists "Akoka". split; [reflexivity|].
    exists "", "Akoka", "". split; reflexivity.
Qed.

(** The search trims the query and ignores case; at most six rows are
    shown. *)
Example scenario_search :
  UserDashboard.search [Sample.mama_gold_rice; Sample.rice 500] "  CAMPUS " =
    [Sample.mama_gold_rice] /\
  length (UserDashboard.search_shown (repeat (Sample.rice 500) 9) "rice") = 6%nat.
Proof. split; vm_compute; reflexivity. Qed.

(** Amounts as the dashboards show them. *)
Example scenario_amounts :
  map Utils.formatCurrency
    [JS.Num 1234.5; JS.Num 0.125; JS.Num (-1234567.891); JS.Str "12.5kg";
     JS.Null; JS.Undefined] =
  ["₦1,234.50"; "₦0.13"; "₦-1,234,567.89"; "₦12.50"; "₦0.00"; "₦0.00"].
Proof. vm_compute. reflexivity. Qed.

(** The built-ins on some familiar values. *)
Example scenario_builtins :
  map JS.Number_toString [0.1; 1e21; 1e-7; 123456789012345680000; 0.5]%float =
    ["0.1"; "1e+21"; "1e-7"; "123456789012345680000"; "0.5"] /\
  map JS.parseFloat ["12.5abc"; ".5e1"; "1e3"; "  7"] = [12.5; 5; 1000; 7]%float /\
  map (fun s => PrimFloat.is_nan (JS.parseFloat s)) [""; "abc"; "."; "-"] =
    [true; true; true; true] /\
  Utils.hashPassword "password" = "1216985755".
Proof. repeat split; vm_compute; reflexivity. Qed.

(** ** Further properties of the code *)

(** *** Sessions *)

Section SessionFacts.
Context {J : Type}.
Variable JSON_parse : string -> option J.
Variable JSON_stringify : J -> string.

Lemma same_spec (a b : option string) : Host.same a b = true <-> a = b.
Proof.
  destruct a as [x|], b as [y|]; simpl; try (split; congruence).
  rewrite String.eqb_eq. split; congruence.
Qed.

(** A conditional [setItem], read back. *)
Lemma lookup_put_eq (b : bool) (k v : string) (m : gmap string string) :
  (if b then <[k := v]> m else m) !! k = if b then Some v else m !! k.
Proof. destruct b; [apply lookup_insert_eq | reflexivity]. Qed.

Lemma lookup_put_ne (b : bool) (k k' v : string) (m : gmap string string) :
  k <> k' -> (if b then <[k := v]> m else m) !! k' = m !! k'.
Proof. intros H. destruct b; [now apply lookup_insert_ne | reflexivity]. Qed.

End SessionFacts.

(** X1: [clearSession] removes the five session keys and nothing else: the
    session read back afterwards is empty, and every other key of the store,
    the alert rules among them, keeps its value. *)
Theorem clearSession_forgets_only_the_session
  {J : Type} (JSON_parse : string -> option J) (ls : gmap string string) :
  Session.getSession JSON_parse (Session.clearSession ls) =
    {| Session.s_id := None; Session.s_name := None; Session.s_role := None;
       Session.s_token := None; Session.s_userData := None |} /\
  (forall k, ~ In k Session.SESSION_KEYS ->
     Host.getItem k (Session.clearSession ls) = Host.getItem k ls) /\
  Host.getItem "priceAlerts" (Session.clearSession ls) =
    Host.getItem "priceAlerts" ls.
Proof.
  unfold Session.clearSession, Session.getSession, Host.getItem, Host.removeItem.
  cbn [fold_left Session.SESSION_KEYS].
  split; [|split].
  - f_equal.
    all: repeat first [ rewrite lookup_delete_ne by discriminate | rewrite lookup_delete_eq ].
    all: reflexivity.
  - intros k Hk. cbn [In Session.SESSION_KEYS] in Hk.
    rewrite !lookup_delete_ne by (intros E; apply Hk; rewrite <- E; auto 10). reflexivity.
  - rewrite !lookup_delete_ne by discriminate. reflexivity.
Qed.

(** X2: reading the session back after [saveSession] gives each of the id,
    the name, the role and the token as the text of the value passed in when
    that value is truthy; a falsy or missing value leaves the stored one in
    place, except that a missing role is stored as "user".  No key outside
    the session keys changes. *)
Theorem saveSession_then_getSession
  {J : Type} (JSON_parse : string -> option J) (JSON_stringify : J -> string)
  (a : Session.SessionArgs) (ls : gmap string string) :
  let before := Session.getSession JSON_parse ls in
  let after := Session.getSession JSON_parse (Session.saveSession JSON_stringify a ls) in
  Session.s_id after =
    (if Host.truthy (Session.id a) then Some (JS.ToString (Session.id a))
     else Session.s_id before) /\
  Session.s_name after =
    (if Host.truthy (Session.username a)
     then Some (JS.ToString (Session.username a))
     else Session.s_name before) /\
  Session.s_role after =
    match Session.role a with
    | JS.Undefined => Some "user"
    | r => if Host.truthy r then Some (JS.ToString r) else Session.s_role before
    end /\
  Session.s_token after =
    (if Host.truthy (Session.token a) then Some (JS.ToString (Session.token a))
     else Session.s_token before) /\
  (forall k, ~ In k Session.SESSION_KEYS ->
     Host.getItem k (Session.saveSession JSON_stringify a ls) = Host.getItem k ls).
Proof.
  cbv zeta.
  unfold Session.saveSession, Session.getSession, Host.getItem, Host.setItem.
  cbn [Session.s_id Session.s_name Session.s_role Session.s_token].
  set (r := match Session.role a with JS.Undefined => JS.Str "user" | r => r end).
  assert (Hu : forall k (m : gmap string string),
             match Session.extra_userData a with
             | Some d => <["userData" := JSON_stringify d]> m
             | None => m
             end !! k =
             if decide (k = "userData")
             then match Session.extra_userData a with
                  | Some d => Some (JSON_stringify d)
                  | None => m !! k
                  end
             else m !! k).
  { intros k m. destruct (Session.extra_userData a), (decide (k = "userData")) as [->|];
      rewrite ?lookup_insert_eq, ?lookup_insert_ne by congruence; reflexivity. }
  repeat split.
  - rewrite Hu, decide_False by discriminate.
    rewrite !lookup_put_ne by discriminate. apply lookup_put_eq.
  - rewrite Hu, decide_False by discriminate.
    rewrite !lookup_put_ne by discriminate.
    rewrite lookup_put_eq, lookup_put_ne by discriminate. reflexivity.
  - rewrite Hu, decide_False by discriminate.
    rewrite !lookup_put_ne by discriminate.
    rewrite lookup_put_eq, !lookup_put_ne by discriminate.
    subst r. destruct (Session.role a); reflexivity.
  - rewrite Hu, decide_False by discriminate.
    rewrite lookup_put_eq, !lookup_put_ne by discriminate. reflexivity.
  - intros k Hk. cbn [In Session.SESSION_KEYS] in Hk.
    rewrite Hu, decide_False by (intros E; apply Hk; rewrite E; auto 10).
    rewrite !lookup_put_ne by (intros E; apply Hk; rewrite <- E; auto 10).
    reflexivity.
Qed.

Lemma truthy_field_spec (f : option string) :
  JS.truthy_field f = true <-> exists s, f = Some s /\ s <> "".
Proof.
  destruct f as [[|c s]|]; simpl.
  - split; [discriminate|]. intros (s & E & H). inversion E; subst. now destruct H.
  - split; [|reflexivity]. intros _. eexists. split; [reflexivity | discriminate].
  - split; [discriminate|]. intros (s & E & _). discriminate.
Qed.

Lemma appPath_dashboards_differ (p : string) :
  Session.appPath p "admin-dashboard.html" <> Session.appPath p "user-dashboard.html".
Proof.
  unfold Session.appPath. destruct (JS.includes p "/Frontend/"); simpl; discriminate.
Qed.

(** X3: the login page sends the browser to the user dashboard and the guard
    of the user dashboard sends it back to the login page exactly for a
    stored session with a token and a role that is neither "user" nor
    "admin"; neither of the two writes to the store. *)
Theorem unknown_role_is_sent_back_and_forth
  {J : Type} (JSON_parse : string -> option J) (p p' : string)
  (ls : gmap string string) :
  (Session.autoRedirectIfLogged JSON_parse p ls =
     Some (Session.appPath p "user-dashboard.html") /\
   Session.guardAccess JSON_parse p' ls =
     Some (Session.appPath p' "login.html"))
  <->
  (exists role token,
     Host.getItem "userRole" ls = Some role /\
     Host.getItem "loginToken" ls = Some token /\
     role <> "" /\ token <> "" /\ role <> "user" /\ role <> "admin").
Proof.
  unfold Session.autoRedirectIfLogged, Session.guardAccess, Session.getSession.
  cbn [Session.s_role Session.s_token].
  destruct (JS.truthy_field (Host.getItem "userRole" ls)) eqn:Hr;
    destruct (JS.truthy_field (Host.getItem "loginToken" ls)) eqn:Ht;
    cbn [andb negb orb].
  - apply truthy_field_spec in Hr as (role & Er & Nr).
    apply truthy_field_spec in Ht as (token & Et & Nt).
    rewrite Er, Et. cbn [Host.same].
    destruct (String.eqb_spec role "admin") as [Ea|Na];
      destruct (String.eqb_spec role "user") as [Eu|Nu]; cbn [negb orb].
    + subst role. discriminate.
    + split.
      * intros [H _]. exfalso. apply (appPath_dashboards_differ p). congruence.
      * intros (r & t & E1 & _ & _ & _ & _ & N). congruence.
    + split.
      * intros [_ H]. discriminate.
      * intros (r & t & E1 & _ & _ & _ & N & _). congruence.
    + split.
      * intros _. exists role, token. auto 10.
      * intros _. split; reflexivity.
  - split.
    + intros [H _]. discriminate.
    + intros (r & t & _ & E2 & _ & N & _).
      assert (JS.truthy_field (Host.getItem "loginToken" ls) = true)
        by (apply truthy_field_spec; eauto).
      congruence.
  - split.
    + intros [H _]. discriminate.
    + intros (r & t & E1 & _ & N & _).
      assert (JS.truthy_field (Host.getItem "userRole" ls) = true)
        by (apply truthy_field_spec; eauto).
      congruence.
  - split.
    + intros [H _]. discriminate.
    + intros (r & t & E1 & _ & N & _).
      assert (JS.truthy_field (Host.getItem "userRole" ls) = true)
        by (apply truthy_field_spec; eauto).
      congruence.
Qed.

(** X4: [registerUser] calls the server exactly when the trimmed username
    is not empty, the two passwords are equal and the password has at least
    four characters; the request then carries the trimmed username and the
    password as typed.  When it does not call the server, the store is left
    as it was and the browser is not sent anywhere. *)
Theorem registerUser_validates
  (regUsername regPassword regPasswordConfirm : string)
  (server : string -> string -> Session.reply) (pathname : string)
  (ls : gmap string string) :
  let out := Session.registerUser regUsername regPassword regPasswordConfirm
               server pathname ls in
  (Session.request out = Some (JS.trim regUsername, regPassword) <->
   JS.trim regUsername <> "" /\ regPassword = regPasswordConfirm /\
   (4 <= String.length regPassword)%nat) /\
  (Session.request out = None \/
   Session.request out = Some (JS.trim regUsername, regPassword)) /\
  (Session.request out = None ->
   Session.stored out = ls /\ Session.redirect out = None).
Proof.
  cbv zeta. unfold Session.registerUser.
  destruct (JS.truthy_string (JS.trim regUsername)) eqn:Hu; cbn [negb orb].
  2:{ cbn [Session.request Session.stored Session.redirect].
      apply truthy_string_false in Hu.
      split; [|auto]. split; [discriminate|]. intros [H _]. contradiction. }
  apply truthy_string_true in Hu.
  destruct (JS.truthy_string regPassword) eqn:Hp; cbn [negb orb].
  2:{ cbn [Session.request Session.stored Session.redirect].
      apply truthy_string_false in Hp. subst regPassword.
      split; [|auto]. split; [discriminate|]. intros (_ & _ & H).
      simpl in H. lia. }
  destruct (JS.truthy_string regPasswordConfirm) eqn:Hc; cbn [negb orb].
  2:{ cbn [Session.request Session.stored Session.redirect].
      apply truthy_string_false in Hc. subst regPasswordConfirm.
      split; [|auto]. split; [discriminate|]. intros (_ & -> & H).
      simpl in H. lia. }
  destruct (String.eqb_spec regPassword regPasswordConfirm) as [E|N];
    cbn [negb].
  2:{ cbn [Session.request Session.stored Session.redirect].
      split; [|auto]. split; [discriminate|]. intros (_ & H & _). contradiction. }
  destruct (Nat.ltb_spec (String.length regPassword) 4) as [L|L].
  { cbn [Session.request Session.stored Session.redirect].
    split; [|auto]. split; [discriminate|]. intros (_ & _ & H). lia. }
  destruct (server (JS.trim regUsername) regPassword) as [m|[] d];
    cbn [negb Session.request Session.stored Session.redirect];
    (split; [split; auto | split; [auto | discriminate]]).
Qed.

(** X5: when the server accepts and its reply carries a truthy id, name, role
    and token, registration and login of the same user leave the same store
    and both send the browser to the user dashboard. *)
Theorem register_and_login_store_alike
  {J : Type} (JSON_stringify : J -> string)
  (username password : string) (server : string -> string -> Session.reply)
  (data : Session.AuthData) (pathname : string) (ls : gmap string string) :
  JS.trim username <> "" -> (4 <= String.length password)%nat ->
  server (JS.trim username) password = Session.Response true data ->
  Host.truthy (Session.user_id data) = true ->
  Host.truthy (Session.user_name data) = true ->
  Host.truthy (Session.user_role data) = true ->
  Host.truthy (Session.login_token data) = true ->
  let registered :=
    Session.registerUser username password password server pathname ls in
  let logged := Session.loginUser JSON_stringify username password server pathname ls in
  Session.stored registered = Session.stored logged /\
  Session.redirect registered = Some (Session.appPath pathname "user-dashboard.html") /\
  Session.redirect logged = Some (Session.appPath pathname "user-dashboard.html").
Proof.
  intros Hu Hp Hs Hi Hn Hr Ht. cbv zeta.
  unfold Session.registerUser, Session.loginUser.
  apply truthy_string_true in Hu. rewrite Hu.
  assert (Hp' : JS.truthy_string password = true).
  { destruct password; [simpl in Hp; lia | reflexivity]. }
  rewrite Hp', String.eqb_refl, Hs.
  destruct (Nat.ltb_spec (String.length password) 4) as [L|_]; [lia|].
  cbn [negb orb Session.stored Session.redirect].
  split; [|split; reflexivity].
  unfold Session.saveSession.
  cbn [Session.id Session.username Session.role Session.token
       Session.extra_userData].
  rewrite Hi, Hn, Ht.
  destruct (Session.user_role data); try discriminate; cbn [Host.truthy] in Hr |- *;
    rewrite ?Hr; reflexivity.
Qed.

Lemma register_and_login_store_alike_witness :
  let data :=
    {| Session.detail := JS.Undefined; Session.user_id := JS.Num 7;
       Session.user_name := JS.Str "ada"; Session.user_role := JS.Str "user";
       Session.login_token := JS.Str "tok"; Session.admin_id := JS.Undefined;
       Session.admin_name := JS.Undefined |} in
  let server := fun _ _ : string => Session.Response true data in
  Session.stored (Session.registerUser " ada " "secret" "secret" server "/" ∅) =
  Session.stored (Session.loginUser (fun _ : unit => "") " ada " "secret" server "/" ∅).
Proof.
  intros data server.
  refine (proj1 (register_and_login_store_alike (fun _ : unit => "")
                   " ada " "secret" server data "/" ∅ _ _ eq_refl
                   eq_refl eq_refl eq_refl eq_refl)).
  - vm_compute. discriminate.
  - vm_compute. lia.
Defined.

(** X6: a registration that the server accepts with the role "user" and no
    token leaves a session that the guard of the user dashboard admits, the
    token being stored as the text "undefined"; the same reply to a login on
    an empty store leaves a session that the guard sends back to the login
    page. *)
Theorem registration_without_token_is_admitted
  {J : Type} (JSON_parse : string -> option J) (JSON_stringify : J -> string)
  (username password : string) (server : string -> string -> Session.reply)
  (data : Session.AuthData) (pathname p : string) (ls : gmap string string) :
  JS.trim username <> "" -> (4 <= String.length password)%nat ->
  server (JS.trim username) password = Session.Response true data ->
  Session.user_role data = JS.Str "user" ->
  Session.login_token data = JS.Undefined ->
  let registered :=
    Session.registerUser username password password server pathname ls in
  let logged := Session.loginUser JSON_stringify username password server pathname ∅ in
  Host.getItem "loginToken" (Session.stored registered) = Some "undefined" /\
  Session.guardAccess JSON_parse p (Session.stored registered) = None /\
  Session.guardAccess JSON_parse p (Session.stored logged) =
    Some (Session.appPath p "login.html").
Proof.
  intros Hu Hp Hs Hr Ht. cbv zeta.
  unfold Session.registerUser, Session.loginUser.
  apply truthy_string_true in Hu. rewrite Hu.
  assert (Hp' : JS.truthy_string password = true).
  { destruct password; [simpl in Hp; lia | reflexivity]. }
  rewrite Hp', String.eqb_refl, Hs.
  destruct (Nat.ltb_spec (String.length password) 4) as [L|_]; [lia|].
  cbn [negb orb Session.stored].
  unfold Session.guardAccess, Session.getSession, Session.saveSession,
    Host.getItem, Host.setItem.
  cbn [Session.s_role Session.s_token Session.id Session.username Session.role
       Session.token Session.extra_userData].
  rewrite Hr, Ht.
  cbn [Host.truthy JS.truthy_string JS.ToString].
  split; [|split].
  - apply lookup_insert_eq.
  - rewrite lookup_insert_eq.
    rewrite lookup_insert_ne, lookup_insert_eq by discriminate. reflexivity.
  - rewrite lookup_insert_eq.
    rewrite lookup_insert_ne, !lookup_put_ne by discriminate.
    rewrite lookup_empty. reflexivity.
Qed.

Lemma registration_without_token_is_admitted_witness :
  let data :=
    {| Session.detail := JS.Undefined; Session.user_id := JS.Num 7;
       Session.user_name := JS.Str "ada"; Session.user_role := JS.Str "user";
       Session.login_token := JS.Undefined; Session.admin_id := JS.Undefined;
       Session.admin_name := JS.Undefined |} in
  let server := fun _ _ : string => Session.Response true data in
  Session.guardAccess (fun _ => @None unit) "/"
    (Session.stored (Session.registerUser "ada" "secret" "secret" server "/" ∅)) =
  None.
Proof.
  intros data server.
  refine (proj1 (proj2 (registration_without_token_is_admitted
                   (fun _ => @None unit) (fun _ : unit => "")
                   "ada" "secret" server data "/" "/" ∅ _ _ eq_refl eq_refl eq_refl))).
  - vm_compute. discriminate.
  - vm_compute. lia.
Defined.

Lemma Z_toString_nonempty (z : Z) : JS.Z_toString z <> "".
Proof.
  unfold JS.Z_toString. destruct z as [|q|q].
  - cbn. discriminate.
  - cbn [Z.to_int NilZero.string_of_int NilZero.string_of_uint].
    destruct (Pos.to_uint q); discriminate.
  - cbn [Z.to_int NilZero.string_of_int]. discriminate.
Qed.

Lemma append_nonempty_l (a b : string) : a <> "" -> a +:+ b <> "".
Proof. destruct a; [congruence | simpl; discriminate]. Qed.

Lemma append_nonempty_r (a b : string) : b <> "" -> a +:+ b <> "".
Proof. destruct a; simpl; [auto | discriminate]. Qed.

Lemma toString_pos_nonempty (x : float) (m : positive) (e : Z) :
  JS.toString_pos x m e <> "".
Proof.
  unfold JS.toString_pos.
  destruct (JS.exact m e) as [num den].
  destruct (JS.shortest_from _ _ _ _ _ _) as [s n].
  repeat match goal with |- context [if ?c then _ else _] => destruct c end.
  all: first [ apply append_nonempty_l, Z_toString_nonempty
             | apply append_nonempty_r; simpl; discriminate
             | simpl; discriminate ].
Qed.

Lemma Number_toString_nonempty (x : float) : JS.Number_toString x <> "".
Proof.
  unfold JS.Number_toString.
  destruct (Prim2SF x) as [[]|[]| |[] m e]; try discriminate.
  apply toString_pos_nonempty.
Qed.

(** The text of a truthy value is not empty. *)
Lemma truthy_ToString_nonempty (v : JS.value) :
  Host.truthy v = true -> JS.ToString v <> "".
Proof.
  destruct v as [| |[]|x|s]; cbn [Host.truthy JS.ToString]; try discriminate.
  - intros _. apply Number_toString_nonempty.
  - intros H. now apply truthy_string_true.
Qed.

(** X7: whatever the fields of the reply, an admin login that the server
    accepts leaves a session with the role "admin" and a token: the guard of
    the admin dashboard admits it without touching the store, and the login
    page sends it to the admin dashboard. *)
Theorem admin_login_is_admitted
  {J : Type} (JSON_parse : string -> option J) (JSON_stringify : J -> string)
  (username key : string) (server : string -> string -> Session.reply)
  (data : Session.AuthData) (now1 now2 : float) (pathname p : string)
  (ls : gmap string string) :
  JS.trim username <> "" -> JS.trim key <> "" ->
  server (JS.trim username) (JS.trim key) = Session.Response true data ->
  let out := Session.loginAdmin JSON_stringify username key server now1 now2
               pathname ls in
  Session.admin_guardAccess (Session.stored out) =
    {| Session.store := Session.stored out; Session.href := None;
       Session.shown := [] |} /\
  Session.autoRedirectIfLogged JSON_parse p (Session.stored out) =
    Some (Session.appPath p "admin-dashboard.html") /\
  Session.redirect out = Some (Session.appPath pathname "admin-dashboard.html").
Proof.
  intros Hu Hk Hs. cbv zeta.
  unfold Session.loginAdmin.
  apply truthy_string_true in Hu, Hk. rewrite Hu, Hk, Hs.
  cbn [negb orb Session.stored Session.redirect].
  unfold Session.admin_guardAccess, Session.autoRedirectIfLogged,
    Session.getSession, Session.saveSession, Host.getItem, Host.setItem.
  cbn [Session.s_role Session.s_token Session.id Session.username Session.role
       Session.token Session.extra_userData].
  assert (Ht : Host.truthy (Session.or_text (Session.login_token data)
                              ("adm_" +:+ JS.Number_toString now2)) = true).
  { unfold Session.or_text.
    destruct (Host.truthy (Session.login_token data)) eqn:E; [exact E|].
    reflexivity. }
  rewrite Ht. cbn [Host.truthy JS.truthy_string JS.ToString].
  rewrite lookup_insert_eq.
  rewrite lookup_insert_ne, lookup_insert_eq by discriminate.
  cbn [Host.same JS.truthy_field JS.truthy_string negb andb String.eqb Ascii.eqb Bool.eqb].
  split; [reflexivity|].
  split; [|reflexivity].
  destruct (JS.ToString _) eqn:E; [|reflexivity].
  exfalso. revert E. now apply truthy_ToString_nonempty.
Qed.

Lemma admin_login_is_admitted_witness :
  let data :=
    {| Session.detail := JS.Undefined; Session.user_id := JS.Undefined;
       Session.user_name := JS.Undefined; Session.user_role := JS.Undefined;
       Session.login_token := JS.Undefined; Session.admin_id := JS.Undefined;
       Session.admin_name := JS.Undefined |} in
  let server := fun _ _ : string => Session.Response true data in
  Session.autoRedirectIfLogged (fun _ => @None unit) "/"
    (Session.stored (Session.loginAdmin (fun _ : unit => "") "root" "key" server
                       1700000000000 1700000000000 "/" ∅)) =
  Some (Session.appPath "/" "admin-dashboard.html").
Proof.
  intros data server.
  refine (proj1 (proj2 (admin_login_is_admitted
                   (fun _ => @None unit) (fun _ : unit => "")
                   "root" "key" server data 1700000000000 1700000000000
                   "/" "/" ∅ _ _ eq_refl))).
  - vm_compute. discriminate.
  - vm_compute. discriminate.
Defined.

(** X8: when the stored role is not "admin", the guard of the admin dashboard
    empties the whole store, the alert rules and the session of a logged-in
    user included, and sends the browser to the login page; afterwards the
    login page does not redirect and the guard of the user dashboard refuses.
    The logout action leaves the store in the same state. *)
Theorem refused_admin_visit_clears_the_store
  {J : Type} (JSON_parse : string -> option J) (p : string)
  (ls : gmap string string) :
  Host.getItem "userRole" ls <> Some "admin" ->
  let after := Session.admin_guardAccess ls in
  Session.store after = Session.store (Session.logout p ls) /\
  Session.href after = Some "login.html" /\
  (forall k, Host.getItem k (Session.store after) = None) /\
  Session.autoRedirectIfLogged JSON_parse p (Session.store after) = None /\
  Session.guardAccess JSON_parse p (Session.store after) =
    Some (Session.appPath p "login.html").
Proof.
  intros Hr. cbv zeta. unfold Session.admin_guardAccess.
  destruct (Host.same (Host.getItem "userRole" ls) (Some "admin")) eqn:E.
  - apply same_spec in E. contradiction.
  - cbn [negb Session.store Session.href Session.logout Host.clear].
    split; [reflexivity|]. split; [reflexivity|].
    split; [intros k; apply lookup_empty|].
    split; reflexivity.
Qed.

Lemma refused_admin_visit_clears_the_store_witness :
  Session.store
    (Session.admin_guardAccess
       (<["userRole" := "user"]> (<["priceAlerts" := "[]"]> ∅))) =
  Session.store
    (Session.logout "/" (<["userRole" := "user"]> (<["priceAlerts" := "[]"]> ∅))).
Proof.
  refine (proj1 (refused_admin_visit_clears_the_store (fun _ => @None unit) "/"
                   (<["userRole" := "user"]> (<["priceAlerts" := "[]"]> ∅)) _)).
  unfold Host.getItem. rewrite lookup_insert_eq. discriminate.
Defined.

(** *** Relative times *)

Section DateFacts.
Local Open Scope Z_scope.

Lemma first_interval_skip (seconds size : Z) (unit : string)
  (rest : list (string * Z)) :
  0 < size -> seconds < size ->
  Dates.first_interval seconds ((unit, size) :: rest) =
  Dates.first_interval seconds rest.
Proof.
  intros Hs Hlt. cbn [Dates.first_interval].
  destruct (Z.leb_spec 1 (seconds / size)) as [H|H]; [|reflexivity].
  exfalso. Z.div_mod_to_equations. nia.
Qed.

Lemma first_interval_hit (seconds size : Z) (unit : string)
  (rest : list (string * Z)) :
  0 < size -> size <= seconds ->
  Dates.first_interval seconds ((unit, size) :: rest) =
  Some (JS.Z_toString (seconds / size) +:+ " " +:+ unit +:+
        (if 1 <? seconds / size then "s" else "") +:+ " ago").
Proof.
  intros Hs Hle. cbn [Dates.first_interval].
  destruct (Z.leb_spec 1 (seconds / size)) as [H|H]; [reflexivity|].
  exfalso. Z.div_mod_to_equations. nia.
Qed.

End DateFacts.

(** X9: [timeAgo] names the largest unit of which at least one fits into the
    whole seconds elapsed, with the number of such units, which is at least
    1, and an "s" when that number is above 1: minutes below an hour, hours
    below a day, days below a week, weeks below 30 days, months (of 30
    days) below 365 days, years (of 365 days) from there on.  Below one
    minute, and for any date in the future, the text is "just now". *)
Theorem timeAgo_names_the_largest_unit (now time : Z) :
  let seconds := ((now - time) / 1000)%Z in
  let shown (n : Z) (unit : string) :=
    JS.Z_toString n +:+ " " +:+ unit +:+ (if (1 <? n)%Z then "s" else "") +:+
    " ago" in
  ((seconds < 60)%Z -> Dates.timeAgo now (Dates.At time) = "just now") /\
  ((60 <= seconds < 3600)%Z ->
     Dates.timeAgo now (Dates.At time) = shown (seconds / 60)%Z "minute" /\
     (1 <= seconds / 60 <= 59)%Z) /\
  ((3600 <= seconds < 86400)%Z ->
     Dates.timeAgo now (Dates.At time) = shown (seconds / 3600)%Z "hour" /\
     (1 <= seconds / 3600 <= 23)%Z) /\
  ((86400 <= seconds < 604800)%Z ->
     Dates.timeAgo now (Dates.At time) = shown (seconds / 86400)%Z "day" /\
     (1 <= seconds / 86400 <= 6)%Z) /\
  ((604800 <= seconds < 2592000)%Z ->
     Dates.timeAgo now (Dates.At time) = shown (seconds / 604800)%Z "week" /\
     (1 <= seconds / 604800 <= 4)%Z) /\
  ((2592000 <= seconds < 31536000)%Z ->
     Dates.timeAgo now (Dates.At time) = shown (seconds / 2592000)%Z "month" /\
     (1 <= seconds / 2592000 <= 12)%Z) /\
  ((31536000 <= seconds)%Z ->
     Dates.timeAgo now (Dates.At time) = shown (seconds / 31536000)%Z "year" /\
     (1 <= seconds / 31536000)%Z).
Proof.
  cbv zeta. unfold Dates.timeAgo.
  set (seconds := ((now - time) / 1000)%Z). clearbody seconds.
  unfold Dates.intervals.
  split; [|split; [|split; [|split; [|split; [|split]]]]]; intros H.
  - rewrite !first_interval_skip by lia. reflexivity.
  - rewrite !first_interval_skip by lia.
    rewrite first_interval_hit by lia.
    split; [reflexivity|]. Z.div_mod_to_equations. lia.
  - rewrite !first_interval_skip by lia.
    rewrite first_interval_hit by lia.
    split; [reflexivity|]. Z.div_mod_to_equations. lia.
  - rewrite !first_interval_skip by lia.
    rewrite first_interval_hit by lia.
    split; [reflexivity|]. Z.div_mod_to_equations. lia.
  - rewrite !first_interval_skip by lia.
    rewrite first_interval_hit by lia.
    split; [reflexivity|]. Z.div_mod_to_equations. lia.
  - rewrite !first_interval_skip by lia.
    rewrite first_interval_hit by lia.
    split; [reflexivity|]. Z.div_mod_to_equations. lia.
  - rewrite first_interval_hit by lia.
    split; [reflexivity|]. Z.div_mod_to_equations. lia.
Qed.

(** *** Fetching with retries *)

Section FetchFacts.
Context {J E : Type}.
Variable detail : J -> E + option string.
Variable server : nat -> @Fetch.reply J E.
Variable retries : Z.

(** The delays waited for before turn [i + j], from turn [i] on. *)
Lemma turns_first_success (data : J) (j : nat) :
  forall (i fuel : nat),
    (j < fuel)%nat ->
    (forall n, (i <= n < i + j)%nat ->
       (Z.of_nat n <> retries - 1)%Z /\
       exists t, Fetch.attempt detail (server n) = inl t) ->
    Fetch.attempt detail (server (i + j)) = inr data ->
    Fetch.turns detail server retries fuel i =
      (Fetch.Returns (Some data),
       map (fun n => (2 ^ Z.of_nat n * 1000)%Z) (seq i j)).
Proof.
  induction j as [|j IH]; intros i fuel Hf Hfail Hok.
  - destruct fuel as [|fuel]; [lia|].
    cbn [Fetch.turns seq map]. rewrite Nat.add_0_r in Hok. now rewrite Hok.
  - destruct fuel as [|fuel]; [lia|].
    cbn [Fetch.turns seq map].
    destruct (Hfail i ltac:(lia)) as (Hne & t & Ht). rewrite Ht.
    destruct (Z.eqb_spec (Z.of_nat i) (retries - 1)) as [E'|_]; [contradiction|].
    rewrite (IH (S i) fuel); [reflexivity|lia| |].
    + intros n Hn. apply Hfail. lia.
    + now replace (S i + j)%nat with (i + S j)%nat by lia.
Qed.

Lemma turns_all_fail (errors : nat -> @Fetch.thrown E) :
  forall (fuel i : nat),
    (Z.of_nat i + Z.of_nat fuel = retries)%Z ->
    (forall n, (i <= n < i + fuel)%nat ->
       Fetch.attempt detail (server n) = inl (errors n)) ->
    Fetch.turns detail server retries fuel i =
      (match fuel with
       | O => Fetch.Returns None
       | S _ => Fetch.Throws (errors (i + fuel - 1)%nat)
       end,
       map (fun n => (2 ^ Z.of_nat n * 1000)%Z) (seq i (fuel - 1))).
Proof.
  induction fuel as [|fuel IH]; intros i Hsum Hfail.
  - reflexivity.
  - cbn [Fetch.turns]. rewrite (Hfail i) by lia.
    destruct (Z.eqb_spec (Z.of_nat i) (retries - 1)) as [E'|N].
    + assert (fuel = O) by lia. subst fuel.
      replace (i + 1 - 1)%nat with i by lia. reflexivity.
    + destruct fuel as [|fuel]; [lia|].
      rewrite (IH (S i)) by (try lia; intros n Hn; apply Hfail; lia).
      replace (S i + S fuel - 1)%nat with (i + S (S fuel) - 1)%nat by lia.
      replace (S (S fuel) - 1)%nat with (S fuel) by lia.
      replace (S fuel - 1)%nat with fuel by lia.
      reflexivity.
Qed.

Lemma sum_of_waits (k : nat) :
  fold_right Z.add 0%Z (map (fun n => (2 ^ Z.of_nat n * 1000)%Z) (seq 0 k)) =
  ((2 ^ Z.of_nat k - 1) * 1000)%Z.
Proof.
  induction k as [|k IH]; [reflexivity|].
  rewrite seq_S, map_app, fold_right_app. cbn [map fold_right Nat.add].
  assert (G : forall (l : list Z) (a : Z),
             fold_right Z.add a l = (fold_right Z.add 0 l + a)%Z).
  { induction l as [|x l IHl]; intros a; cbn [fold_right]; [lia|].
    rewrite IHl. lia. }
  rewrite G, IH. rewrite Nat2Z.inj_succ, Z.pow_succ_r by lia. lia.
Qed.

End FetchFacts.

(** X10: when the first [k] calls of [fetch] fail and call [k], with
    [k < retries], succeeds, [safeFetch] returns the data of that call after
    waiting 1000, 2000, ..., [2^(k-1) * 1000] ms between the calls, which is
    [(2^k - 1) * 1000] ms in all. *)
Theorem safeFetch_returns_first_success
  {J E : Type} (detail : J -> E + option string)
  (server : nat -> @Fetch.reply J E) (retries : Z) (k : nat) (data : J) :
  (Z.of_nat k < retries)%Z ->
  (forall n, (n < k)%nat -> exists t, Fetch.attempt detail (server n) = inl t) ->
  Fetch.attempt detail (server k) = inr data ->
  let '(result, waits) := Fetch.safeFetch detail server retries in
  result = Fetch.Returns (Some data) /\
  waits = map (fun n => (2 ^ Z.of_nat n * 1000)%Z) (seq 0 k) /\
  fold_right Z.add 0%Z waits = ((2 ^ Z.of_nat k - 1) * 1000)%Z.
Proof.
  intros Hk Hfail Hok. unfold Fetch.safeFetch.
  rewrite (turns_first_success detail server retries data k 0 (Z.to_nat retries));
    [|lia| |exact Hok].
  - split; [reflexivity|]. split; [reflexivity|]. apply sum_of_waits.
  - intros n Hn. split; [lia|]. apply Hfail. lia.
Qed.

Lemma safeFetch_returns_first_success_witness :
  Fetch.safeFetch (fun _ : unit => inr None)
    (fun n => if (n <? 2)%nat then Fetch.Rejects "offline"
              else Fetch.Responds true 200 (inr tt)) 3 =
  (Fetch.Returns (Some tt), [1000; 2000]%Z).
Proof.
  pose proof (safeFetch_returns_first_success
                (fun _ : unit => @inr string _ None)
                (fun n => if (n <? 2)%nat then Fetch.Rejects "offline"
                          else Fetch.Responds true 200 (inr tt)) 3 2 tt) as H.
  destruct (Fetch.safeFetch _ _ 3) as [result waits].
  destruct H as (-> & -> & _).
  - lia.
  - intros n Hn. destruct n as [|[|n]]; [eexists; reflexivity ..|lia].
  - reflexivity.
  - reflexivity.
Defined.

(** X11: when every call of [fetch] fails, [safeFetch] makes [retries] calls,
    waits 1000, 2000, ... ms between them (not after the last) and throws
    what the last call threw; with [retries] at or below 0 it makes no call
    and returns [undefined]. *)
Theorem safeFetch_throws_the_last_error
  {J E : Type} (detail : J -> E + option string)
  (server : nat -> @Fetch.reply J E) (retries : Z)
  (errors : nat -> @Fetch.thrown E) :
  (forall n, (Z.of_nat n < retries)%Z ->
     Fetch.attempt detail (server n) = inl (errors n)) ->
  Fetch.safeFetch detail server retries =
    (if (0 <? retries)%Z then Fetch.Throws (errors (Z.to_nat (retries - 1)))
     else Fetch.Returns None,
     map (fun n => (2 ^ Z.of_nat n * 1000)%Z) (seq 0 (Z.to_nat (retries - 1)))).
Proof.
  intros Hfail. unfold Fetch.safeFetch.
  destruct (Z.ltb_spec 0 retries) as [Hp|Hn].
  - rewrite (turns_all_fail detail server retries errors);
      [|lia|intros n Hn; apply Hfail; lia].
    destruct (Z.to_nat retries) as [|m] eqn:Em; [lia|].
    replace (0 + S m - 1)%nat with (Z.to_nat (retries - 1)) by lia.
    replace (S m - 1)%nat with (Z.to_nat (retries - 1)) by lia.
    reflexivity.
  - replace (Z.to_nat retries) with O by lia.
    replace (Z.to_nat (retries - 1)) with O by lia. reflexivity.
Qed.

Lemma safeFetch_throws_the_last_error_witness :
  Fetch.safeFetch (fun _ : unit => inr None)
    (fun n => Fetch.Responds false (500 + Z.of_nat n) (inl "no body")) 3 =
  (Fetch.Throws (Fetch.HttpError "HTTP error! status: 502"), [1000; 2000]%Z).
Proof.
  refine (safeFetch_throws_the_last_error
            (fun _ : unit => @inr string _ None)
            (fun n => Fetch.Responds false (500 + Z.of_nat n) (inl "no body")) 3
            (fun n => Fetch.HttpError
                        ("HTTP error! status: " +:+
                         JS.Z_toString (500 + Z.of_nat n))) _).
  intros n _. reflexivity.
Defined.

(** *** The storage wrapper *)

(** X12: with a working store, what [safeLocalStorage] sets under a key is
    what it gets back under that key, as text: a value left out reads back
    as the text "null".  Other keys are not affected, and after a remove or
    a clear the key reads as [null] again.  When the store throws, each of
    the four operations returns [null], leaves the store as it was and shows
    one warning. *)
Theorem safeLocalStorage_round_trips
  (key : string) (value : JS.value) (ls : gmap string string) :
  let get k s := SafeStorage.safeLocalStorage false "get" k JS.Undefined s in
  let '(r1, ls1, t1) := SafeStorage.safeLocalStorage false "set" key value ls in
  let '(r2, ls2, t2) := SafeStorage.safeLocalStorage false "remove" key JS.Undefined ls1 in
  let '(r3, ls3, t3) := SafeStorage.safeLocalStorage false "clear" key JS.Undefined ls1 in
  (r1, t1) = (SafeStorage.RTrue, []) /\
  get key ls1 =
    (SafeStorage.RText
       (match value with JS.Undefined => "null" | v => JS.ToString v end),
     ls1, []) /\
  (forall k, k <> key -> fst (fst (get k ls1)) = fst (fst (get k ls))) /\
  (r2, t2) = (SafeStorage.RTrue, []) /\
  get key ls2 = (SafeStorage.RNull, ls2, []) /\
  (r3, t3) = (SafeStorage.RTrue, []) /\
  (forall k, get k ls3 = (SafeStorage.RNull, ls3, [])) /\
  (forall op, In op ["get"; "set"; "remove"; "clear"] ->
     SafeStorage.safeLocalStorage true op key value ls =
       (SafeStorage.RNull, ls, [SafeStorage.unavailable])).
Proof.
  cbv zeta. unfold SafeStorage.safeLocalStorage.
  cbn [String.eqb Ascii.eqb Bool.eqb].
  unfold Host.getItem, Host.setItem, Host.removeItem, Host.clear.
  repeat lazymatch goal with |- _ /\ _ => split end.
  - reflexivity.
  - rewrite lookup_insert_eq. destruct value; reflexivity.
  - intros k Hk. cbn [fst]. now rewrite lookup_insert_ne by congruence.
  - reflexivity.
  - now rewrite lookup_delete_eq.
  - reflexivity.
  - intros k. now rewrite lookup_empty.
  - intros op Hop. cbn [In] in Hop.
    destruct Hop as [<-|[<-|[<-|[<-|[]]]]]; reflexivity.
Qed.

(** *** The address of the API *)

(** X13: unless [window.APP_API_URL] is set, which then is the address, the
    API is taken to be at [/api] on the page's own origin in every case but
    one: a page served from localhost, 127.0.0.1 or 0.0.0.0 on a port that
    is given and is not 8000 uses http://localhost:8000/api.  The tests for
    the Vercel and Render host names change nothing. *)
Theorem API_URL_is_same_origin_but_for_local_development (w : Config.Window) :
  let local :=
    String.eqb (Config.hostname w) "localhost" ||
    String.eqb (Config.hostname w) "127.0.0.1" ||
    String.eqb (Config.hostname w) "0.0.0.0" in
  Config.API_URL w =
    match Config.APP_API_URL w with
    | Some (String c u) => String c u
    | _ =>
        if local && negb (String.eqb (Config.port w) "8000") &&
           negb (String.eqb (Config.port w) "")
        then "http://localhost:8000/api"
        else Config.origin w +:+ "/api"
    end.
Proof.
  cbv zeta. unfold Config.API_URL.
  destruct w as [hostname origin port [[|c u]|]];
    cbn [Config.hostname Config.origin Config.port Config.APP_API_URL
         JS.truthy_field JS.truthy_string]; [|reflexivity|].
  all: assert (Hport : negb (JS.truthy_string port) = String.eqb port "")
         by (destruct port; reflexivity);
       rewrite Hport;
       destruct (String.eqb_spec hostname "localhost") as [->|_];
       [destruct (port =? "8000")%string, (port =? "")%string; reflexivity|];
       destruct (String.eqb_spec hostname "127.0.0.1") as [->|_];
       [destruct (port =? "8000")%string, (port =? "")%string; reflexivity|];
       destruct (String.eqb_spec hostname "0.0.0.0") as [->|_];
       [destruct (port =? "8000")%string, (port =? "")%string; reflexivity|];
       cbn [orb andb];
       destruct (JS.includes hostname "vercel.app" || JS.includes hostname "vercel.com");
       [reflexivity|];
       destruct (JS.includes hostname "render.com" || JS.includes hostname "onrender.com");
       reflexivity.
Qed.

(** *** Regular expressions *)

Section RegexFacts.
Import Regex.

Lemma append_eq_nil (a b : string) : a +:+ b = "" -> a = "" /\ b = "".
Proof. destruct a; simpl; [auto | discriminate]. Qed.

Lemma matches_seq_inv (r1 r2 : regex) (s : string) :
  matches (Seq r1 r2) s <->
  exists s1 s2, s = s1 +:+ s2 /\ matches r1 s1 /\ matches r2 s2.
Proof.
  split.
  - inversion 1; subst. eauto.
  - intros (s1 & s2 & -> & H1 & H2). now constructor.
Qed.

Lemma nullable_spec (r : regex) : nullable r = true <-> matches r "".
Proof.
  induction r as [| |p|r1 IH1 r2 IH2|r1 IH1 r2 IH2|r IH]; cbn [nullable].
  - split; [discriminate | inversion 1].
  - split; [constructor | reflexivity].
  - split; [discriminate | inversion 1].
  - rewrite andb_true_iff, IH1, IH2. split.
    + intros [H1 H2]. change (matches (Seq r1 r2) ("" +:+ "")). now constructor.
    + intros H. apply matches_seq_inv in H as (s1 & s2 & E & H1 & H2).
      symmetry in E. apply append_eq_nil in E as [-> ->]. auto.
  - rewrite orb_true_iff, IH1, IH2. split.
    + intros [H|H]; [now apply matches_alt_l | now apply matches_alt_r].
    + inversion 1; subst; auto.
  - split; [constructor | reflexivity].
Qed.

(** A non-empty string matched by a repetition starts with a non-empty
    string matched by the body. *)
Lemma matches_star_cons (r : regex) (s : string) :
  matches (Star r) s ->
  forall c t, s = String c t ->
  exists t1 t2, t = t1 +:+ t2 /\ matches r (String c t1) /\ matches (Star r) t2.
Proof.
  intros H. remember (Star r) as r' eqn:Er.
  induction H as [| | | | | r0 | r0 s1 s2 H1 IH1 H2 IH2]; try discriminate.
  inversion Er; subst r0. intros c t E.
  destruct s1 as [|c1 s1].
  - simpl in E. now apply IH2.
  - simpl in E. inversion E; subst. exists s1, s2. auto.
Qed.

Lemma derive_spec (r : regex) :
  forall c s, matches (derive c r) s <-> matches r (String c s).
Proof.
  induction r as [| |p|r1 IH1 r2 IH2|r1 IH1 r2 IH2|r IH]; intros c s;
    cbn [derive].
  - split; inversion 1.
  - split; inversion 1.
  - destruct (p c) eqn:Hp.
    + split.
      * inversion 1; subst. now constructor.
      * inversion 1; subst. constructor.
    + split; [inversion 1|]. inversion 1; subst. congruence.
  - assert (Hseq : matches (Seq (derive c r1) r2) s ->
                   matches (Seq r1 r2) (String c s)).
    { intros H. apply matches_seq_inv in H as (s1 & s2 & -> & H1 & H2).
      apply IH1 in H1. change (matches (Seq r1 r2) (String c s1 +:+ s2)).
      now constructor. }
    assert (Hback : matches (Seq r1 r2) (String c s) ->
                    matches (Seq (derive c r1) r2) s \/
                    (matches r1 "" /\ matches (derive c r2) s)).
    { intros H. apply matches_seq_inv in H as (s1 & s2 & E & H1 & H2).
      destruct s1 as [|c1 s1]; simpl in E.
      - subst s2. right. split; [assumption | now apply IH2].
      - inversion E; subst. left. constructor; [now apply IH1 | assumption]. }
    destruct (nullable r1) eqn:Hn.
    + split.
      * inversion 1; subst; [auto|].
        change (matches (Seq r1 r2) ("" +:+ String c s)).
        constructor; [now apply nullable_spec | now apply IH2].
      * intros H. destruct (Hback H) as [H'|[_ H']];
          [now apply matches_alt_l | now apply matches_alt_r].
    + split; [exact Hseq|].
      intros H. destruct (Hback H) as [H'|[H' _]]; [assumption|].
      apply nullable_spec in H'. congruence.
  - split.
    + inversion 1; subst;
        [apply matches_alt_l; now apply IH1 | apply matches_alt_r; now apply IH2].
    + inversion 1; subst;
        [apply matches_alt_l; now apply IH1 | apply matches_alt_r; now apply IH2].
  - split.
    + intros H. apply matches_seq_inv in H as (s1 & s2 & -> & H1 & H2).
      apply IH in H1. change (matches (Star r) (String c s1 +:+ s2)).
      now constructor.
    + intros H.
      destruct (matches_star_cons r _ H c s eq_refl) as (t1 & t2 & -> & H1 & H2).
      constructor; [now apply IH | assumption].
Qed.

(** The test by derivatives decides the meaning of the expression. *)
Lemma test_spec (s : string) : forall r, test r s = true <-> matches r s.
Proof.
  induction s as [|c s IH]; intros r; cbn [test].
  - apply nullable_spec.
  - rewrite IH. apply derive_spec.
Qed.

Lemma every_append (p : ascii -> bool) (a b : string) :
  every p (a +:+ b) = every p a && every p b.
Proof.
  induction a as [|c a IH]; simpl; [reflexivity|]. now rewrite IH, andb_assoc.
Qed.

Lemma matches_star_class (p : ascii -> bool) (s : string) :
  matches (Star (Class p)) s <-> every p s = true.
Proof.
  split.
  - intros H. remember (Star (Class p)) as r eqn:Er.
    induction H as [| | | | | r0 | r0 s1 s2 H1 IH1 H2 IH2]; try discriminate.
    + reflexivity.
    + inversion Er; subst r0. inversion H1 as [|? c Hc| | | | |]; subst.
      simpl. rewrite IH2 by reflexivity. now rewrite Hc.
  - induction s as [|c s IH]; simpl.
    + constructor.
    + rewrite andb_true_iff. intros [Hc Hs].
      change (matches (Star (Class p)) (String c "" +:+ s)).
      constructor; [now constructor | auto].
Qed.

Lemma matches_plus_class (p : ascii -> bool) (s : string) :
  matches (Plus (Class p)) s <-> s <> "" /\ every p s = true.
Proof.
  unfold Plus. split.
  - intros H. apply matches_seq_inv in H as (s1 & s2 & -> & H1 & H2).
    inversion H1 as [|? c Hc| | | | |]; subst. apply matches_star_class in H2.
    simpl. split; [discriminate|]. now rewrite Hc, H2.
  - intros [Hn He]. destruct s as [|c s]; [contradiction|].
    simpl in He. apply andb_true_iff in He as [Hc Hs].
    change (matches (Seq (Class p) (Star (Class p))) (String c "" +:+ s)).
    constructor; [now constructor | now apply matches_star_class].
Qed.

Lemma matches_char_seq (a : ascii) (r : regex) (s : string) :
  matches (Seq (Class (Ascii.eqb a)) r) s <-> exists t, s = String a t /\ matches r t.
Proof.
  split.
  - intros H. apply matches_seq_inv in H as (s1 & s2 & -> & H1 & H2).
    inversion H1 as [|? c Hc| | | | |]; subst. apply Ascii.eqb_eq in Hc.
    subst. simpl. eauto.
  - intros (t & -> & H).
    change (matches (Seq (Class (Ascii.eqb a)) r) (String a "" +:+ t)).
    constructor; [|assumption]. constructor. apply Ascii.eqb_refl.
Qed.

End RegexFacts.

(** X14: [isValidEmail] accepts exactly the strings made of a non-empty part
    before an "@" and a part after it, neither containing white space or a
    further "@", where the part after the "@" has a "." with at least one
    character on either side. *)
Theorem isValidEmail_accepts (email : string) :
  Validation.isValidEmail email = true <->
  exists name domain,
    email = name +:+ "@" +:+ domain /\
    name <> "" /\
    Regex.every Validation.not_space_or_at name = true /\
    Regex.every Validation.not_space_or_at domain = true /\
    exists before after,
      domain = before +:+ "." +:+ after /\ before <> "" /\ after <> "".
Proof.
  unfold Validation.isValidEmail, Validation.re.
  rewrite test_spec, matches_seq_inv.
  split.
  - intros (name & rest & -> & Hname & Hrest).
    apply matches_plus_class in Hname as [Hn He].
    apply matches_char_seq in Hrest as (domain & -> & Hd).
    apply matches_seq_inv in Hd as (before & rest & -> & Hb & Hrest).
    apply matches_plus_class in Hb as [Hbn Hbe].
    apply matches_char_seq in Hrest as (after & -> & Ha).
    apply matches_plus_class in Ha as [Han Hae].
    exists name, (before +:+ "." +:+ after).
    split; [reflexivity|]. split; [assumption|]. split; [assumption|].
    split.
    + rewrite every_append, Hbe. simpl. now rewrite Hae.
    + exists before, after. auto.
  - intros (name & domain & -> & Hn & He & Hd & before & after & -> & Hb & Ha).
    rewrite every_append in Hd. apply andb_true_iff in Hd as [Hbe Hae].
    simpl in Hae.
    exists name, ("@" +:+ before +:+ "." +:+ after).
    split; [reflexivity|]. split; [now apply matches_plus_class|].
    apply matches_char_seq. eexists. split; [reflexivity|].
    apply matches_seq_inv. exists before, ("." +:+ after).
    split; [reflexivity|]. split; [now apply matches_plus_class|].
    apply matches_char_seq. eexists. split; [reflexivity|].
    now apply matches_plus_class.
Qed.

(** *** Form validation *)

Lemma ltb_nan_l (x y : float) :
  PrimFloat.is_nan x = true -> PrimFloat.ltb x y = false.
Proof.
  intros H%is_nan_spec. rewrite FloatAxioms.ltb_spec, H. reflexivity.
Qed.

Lemma ltb_nan_r (x y : float) :
  PrimFloat.is_nan y = true -> PrimFloat.ltb x y = false.
Proof.
  intros H%is_nan_spec. rewrite FloatAxioms.ltb_spec, H.
  destruct (Prim2SF x); reflexivity.
Qed.

(** X15: the [min] and [max] rules never reject a value that [parseFloat]
    does not read as a number (text, the empty string, a missing value):
    [validateField] then reports what it reports with the two rules
    removed. *)
Theorem validateField_bounds_pass_what_is_no_number
  (value : option string) (rules : Validation.Rules) :
  PrimFloat.is_nan (JS.parseFloat (Validation.text value)) = true ->
  Validation.validateField value rules =
  Validation.validateField value
    {| Validation.required := Validation.required rules;
       Validation.minLength := Validation.minLength rules;
       Validation.maxLength := Validation.maxLength rules;
       Validation.pattern := Validation.pattern rules;
       Validation.patternMessage := Validation.patternMessage rules;
       Validation.min := None;
       Validation.max := None;
       Validation.email := Validation.email rules |}.
Proof.
  intros Hnan. unfold Validation.validateField.
  cbn [Validation.required Validation.minLength Validation.maxLength
       Validation.pattern Validation.patternMessage Validation.min
       Validation.max Validation.email].
  destruct (Validation.min rules) as [lo|], (Validation.max rules) as [hi|];
    rewrite ?(ltb_nan_l _ _ Hnan), ?(ltb_nan_r _ _ Hnan); reflexivity.
Qed.

Lemma validateField_bounds_pass_what_is_no_number_witness :
  Validation.validateField (Some "abc")
    {| Validation.required := true; Validation.minLength := None;
       Validation.maxLength := None; Validation.pattern := None;
       Validation.patternMessage := None; Validation.min := Some 10%float;
       Validation.max := Some 20%float; Validation.email := false |} = [].
Proof.
  rewrite validateField_bounds_pass_what_is_no_number; reflexivity.
Defined.

(** *** [debounce] in general *)

Section DebounceInGeneral.
Context {A U : Type} (func : A -> U -> U) (wait : Z).
Local Open Scope Z_scope.

(** A call once the pending timer is due: the timer fires first, then the
    call arms a new one. *)
Lemma step_call_fires (d : @Utils.debounced A U) (due : Z)
  (args : A) (u : U) (t : Z) (args' : A) :
  Spec.armed_call d due args u -> EventLoop.clock (Utils.loop d) <= t ->
  due <= t ->
  Spec.armed_call (Utils.step func wait d (Utils.Call t args')) (t + wait) args'
    (func args u) /\
  EventLoop.clock (Utils.loop (Utils.step func wait d (Utils.Call t args'))) = t.
Proof.
  intros (h & Hp & Hto & Hu) Hc Hle. cbn [Utils.step].
  unfold Utils.advance. rewrite Hp. cbn [length Utils.run_due].
  unfold EventLoop.next_due. rewrite Hp. cbn [EventLoop.earliest EventLoop.due].
  destruct (Z.leb_spec due t); [|lia].
  unfold Utils.later.
  cbn [Utils.loop Utils.timeout Utils.target EventLoop.callback].
  rewrite Hto. unfold EventLoop.clearTimeout, EventLoop.fire.
  cbn [EventLoop.pending EventLoop.handle EventLoop.clock EventLoop.next_handle].
  rewrite Hu, Hp, without_self.
  unfold Utils.executedFunction.
  cbn [Utils.loop Utils.timeout Utils.target EventLoop.settle
       EventLoop.clearTimeout EventLoop.setTimeout EventLoop.pending
       EventLoop.clock EventLoop.next_handle EventLoop.without List.filter app].
  cbn [EventLoop.due].
  replace (Z.max (Z.max (EventLoop.clock (Utils.loop d)) due) t) with t by lia.
  split; [|reflexivity].
  eexists. split; [|split]; reflexivity.
Qed.

Lemma run_calls_unsuperseded (rest : list (Z * A)) :
  forall (d : @Utils.debounced A U) (t : Z) (args : A) (u : U) (T : Z),
    Spec.armed_call d (t + wait) args u ->
    EventLoop.clock (Utils.loop d) = t ->
    Timing.ascending t rest ->
    fst (List.last rest (t, args)) + wait <= T ->
    Utils.target (Utils.run func wait (Spec.calls rest ++ [Utils.Idle T]) d) =
    fold_left (fun u a => func a u) (Timing.unsuperseded wait ((t, args) :: rest)) u.
Proof.
  induction rest as [|[t' a'] rest IH]; intros d t args u T Ha Hc Hasc HT.
  - cbn [Spec.calls map app Utils.run fold_left Utils.step Timing.unsuperseded].
    cbn [List.last fst] in HT.
    now apply (debounced_advance_fires func d (t + wait) args u T Ha).
  - destruct Hasc as [Ht Hasc].
    rewrite last_cons_default in HT.
    cbn [Spec.calls map app Utils.run fold_left fst snd].
    change (Timing.unsuperseded wait ((t, args) :: (t', a') :: rest))
      with (if t' <? t + wait
            then Timing.unsuperseded wait ((t', a') :: rest)
            else args :: Timing.unsuperseded wait ((t', a') :: rest)).
    destruct (Z.ltb_spec t' (t + wait)) as [Hin|Hout].
    + destruct (step_call_armed func wait d (t + wait) args u t' a' Ha)
        as [Ha' Hc']; [lia|].
      exact (IH _ t' a' u T Ha' Hc' Hasc HT).
    + destruct (step_call_fires d (t + wait) args u t' a' Ha) as [Ha' Hc'];
        [lia|lia|].
      cbn [fold_left].
      exact (IH _ t' a' (func args u) T Ha' Hc' Hasc HT).
Qed.

End DebounceInGeneral.

(** X16: a function made by [debounce(func, wait)], called at times that do
    not decrease and then left alone for [wait] ms or more, has run [func]
    once for each call that no other call followed within [wait] ms, with
    the arguments of that call and in the order of the calls; the calls
    that were followed within [wait] ms have run nothing. *)
Theorem debounce_runs_the_calls_followed_by_a_pause
  {A U : Type} (func : A -> U -> U) (wait : Z) (u : U)
  (t0 : Z) (a0 : A) (more : list (Z * A)) (T : Z) :
  (0 <= t0)%Z ->
  Timing.ascending t0 more ->
  (fst (List.last more (t0, a0)) + wait <= T)%Z ->
  Utils.target
    (Utils.run func wait (Spec.calls ((t0, a0) :: more) ++ [Utils.Idle T])
       (Utils.start u)) =
  fold_left (fun u a => func a u) (Timing.unsuperseded wait ((t0, a0) :: more)) u.
Proof.
  intros H0 Hasc HT.
  change (Spec.calls ((t0, a0) :: more) ++ [Utils.Idle T])
    with (Utils.Call t0 a0 :: (Spec.calls more ++ [Utils.Idle T])).
  unfold Utils.run at 1. cbn [fold_left].
  apply (run_calls_unsuperseded func wait more); [|  |exact Hasc|exact HT].
  - cbn. replace (Z.max 0 t0) with t0 by lia.
    eexists. repeat split; eauto.
  - cbn. lia.
Qed.

Lemma debounce_runs_the_calls_followed_by_a_pause_witness :
  Utils.target
    (Utils.run (fun (a : string) (log : list string) => log ++ [a]) 300
       (Spec.calls [(0, "a"); (100, "ap"); (500, "app"); (900, "appl")]%Z ++
        [Utils.Idle 2000])
       (Utils.start [])) =
  ["ap"; "app"; "appl"].
Proof.
  refine (debounce_runs_the_calls_followed_by_a_pause
            (fun (a : string) (log : list string) => log ++ [a]) 300 []
            0 "a" [(100, "ap"); (500, "app"); (900, "appl")]%Z 2000 _ _ _).
  - lia.
  - cbn. lia.
  - cbn. lia.
Defined.

(** *** Filters with nothing set *)

Lemma leb_zero_infinity (x : float) :
  PrimFloat.leb PrimFloat.zero x = true -> PrimFloat.leb x PrimFloat.infinity = true.
Proof.
  rewrite !FloatAxioms.leb_spec.
  change (Prim2SF PrimFloat.zero) with (S754_zero false).
  change (Prim2SF PrimFloat.infinity) with (S754_infinity false).
  destruct (Prim2SF x) as [s|[]| |[] m e]; cbn; congruence.
Qed.

(** X17: with all five filter controls empty, [applyFilters] shows exactly
    the records whose price is a number at or above 0, in the order of the
    snapshot: a record with a missing, null, [NaN] or negative price is
    left out although no filter is set. *)
Theorem applyFilters_with_nothing_set (allPrices : list PriceRecord) :
  UserDashboard.applyFilters
    {| UserDashboard.filterCategory := ""; UserDashboard.filterMinPrice := "";
       UserDashboard.filterMaxPrice := ""; UserDashboard.filterRetailer := "";
       UserDashboard.filterLocation := "" |} allPrices =
  List.filter (fun p => match price p with
                        | PNum x => PrimFloat.leb PrimFloat.zero x
                        | _ => false
                        end) allPrices.
Proof.
  unfold UserDashboard.applyFilters.
  cbn [UserDashboard.filterCategory UserDashboard.filterMinPrice
       UserDashboard.filterMaxPrice UserDashboard.filterRetailer
       UserDashboard.filterLocation].
  change (JS.toLowerCase "") with "".
  change (JS.parseFloat "") with PrimFloat.nan.
  change (JS.or_default PrimFloat.nan PrimFloat.zero) with PrimFloat.zero.
  change (JS.or_default PrimFloat.nan PrimFloat.infinity) with PrimFloat.infinity.
  cbn [JS.truthy_string negb orb andb].
  induction allPrices as [|p l IH]; [reflexivity|].
  cbn [List.filter]. rewrite IH.
  destruct (price p) as [x| |]; cbn [is_number price_number andb];
    [|reflexivity|reflexivity].
  destruct (PrimFloat.leb PrimFloat.zero x) eqn:Hx.
  - rewrite (leb_zero_infinity x Hx). reflexivity.
  - reflexivity.
Qed.

(** *** The two evaluations of the alert rules *)

(** [find] gives a record exactly when [existsb] says there is one. *)
Lemma find_existsb {A : Type} (f : A -> bool) (l : list A) :
  existsb f l = match find f l with Some _ => true | None => false end.
Proof.
  induction l as [|x l IH]; [reflexivity|].
  cbn [existsb find]. destruct (f x); [reflexivity | exact IH].
Qed.

(** The callback of the other dashboard: the rule changes as on the user
    dashboard; when it is triggered the counter goes up by one and the toast
    for it replaces those on the page. *)
Lemma admin_check_alert_effects (prices : list PriceRecord) (a : AlertRule)
  (n : nat) (st : State) :
  AdminDashboard.check_alert prices a (n, st) =
    (Spec.rule_after prices a,
     if Spec.newly_triggered prices a
     then (S n, Spec.showing (Spec.admin_notified prices a) st)
     else (n, st)) /\
  (Spec.newly_triggered prices a = true ->
   length (Spec.admin_notified prices a) = 1%nat /\
   length (Spec.notified prices a) = 1%nat) /\
  (Spec.newly_triggered prices a = false -> Spec.notified prices a = []).
Proof.
  unfold Spec.rule_after, Spec.notified, Spec.admin_notified,
    Spec.newly_triggered.
  unfold AdminDashboard.check_alert, UserDashboard.check_alert.
  rewrite find_existsb.
  destruct (triggered a); cbn [negb andb].
  - repeat split; try discriminate; reflexivity.
  - destruct (find (UserDashboard.alert_hit a) prices) as [hit|].
    + repeat split; try discriminate; reflexivity.
    + repeat split; try discriminate; reflexivity.
Qed.

Lemma admin_forEach_effects (prices : list PriceRecord) (l : list AlertRule) :
  forall (n : nat) (st : State),
    let fresh := List.filter (Spec.newly_triggered prices) l in
    forEach (AdminDashboard.check_alert prices) l (n, st) =
      (map (Spec.rule_after prices) l,
       ((n + length fresh)%nat,
        match rev fresh with
        | [] => st
        | a :: _ => Spec.showing (Spec.admin_notified prices a) st
        end)).
Proof.
  induction l as [|a l IH]; intros n st; cbv zeta; cbn [forEach map List.filter].
  - cbn. now rewrite Nat.add_0_r.
  - destruct (admin_check_alert_effects prices a n st) as (-> & _ & _).
    destruct (Spec.newly_triggered prices a).
    + rewrite IH. cbv zeta. cbn [length rev].
      replace (S n + length (List.filter (Spec.newly_triggered prices) l))%nat
        with (n + S (length (List.filter (Spec.newly_triggered prices) l)))%nat
        by lia.
      destruct (rev (List.filter (Spec.newly_triggered prices) l)) as [|b r];
        reflexivity.
    + rewrite IH. reflexivity.
Qed.

Lemma notified_count (prices : list PriceRecord) (l : list AlertRule) :
  length (flat_map (Spec.notified prices) l) =
  length (List.filter (Spec.newly_triggered prices) l).
Proof.
  induction l as [|a l IH]; [reflexivity|].
  cbn [flat_map List.filter]. rewrite length_app, IH.
  destruct (admin_check_alert_effects prices a O Spec.blank) as (_ & H1 & H0).
  destruct (Spec.newly_triggered prices a).
  - destruct (H1 eq_refl) as [_ ->]. reflexivity.
  - now rewrite (H0 eq_refl).
Qed.

(** X18: evaluated against the same snapshot, [checkPriceAlerts] of the user
    dashboard and that of the other dashboard leave the same rules, with the
    same flags.  The user dashboard adds one toast to the page for each rule
    the evaluation triggers; the other dashboard, whose [showToast] removes
    the toasts on the page first, ends with one toast, that of the last rule
    triggered, and leaves the page as it was when no rule is triggered.  The
    other dashboard writes the rules to the store only when some rule has
    just been triggered, and then writes what the user dashboard writes. *)
Theorem checkPriceAlerts_versions_agree (prices : list PriceRecord) (st : State) :
  let user := UserDashboard.checkPriceAlerts prices st in
  let other := AdminDashboard.checkPriceAlerts prices st in
  let fresh := List.filter (Spec.newly_triggered prices) (priceAlerts st) in
  priceAlerts user = priceAlerts other /\
  length (toasts user) = (length (toasts st) + length fresh)%nat /\
  toasts other =
    match rev fresh with
    | [] => toasts st
    | a :: _ => Spec.admin_notified prices a
    end /\
  Forall (fun a => length (Spec.admin_notified prices a) = 1%nat) fresh /\
  localStorage other =
    match fresh with
    | [] => localStorage st
    | _ => localStorage user
    end.
Proof.
  cbv zeta.
  pose proof (checkPriceAlerts_fields prices st) as (Ha & Hl & Ht & _).
  cbv zeta in Ha, Hl, Ht.
  rewrite Ha, Ht, Hl, admin_checkPriceAlerts_rules, length_app, notified_count.
  split; [reflexivity|]. split; [reflexivity|].
  unfold AdminDashboard.checkPriceAlerts.
  rewrite (admin_forEach_effects prices (priceAlerts st) O st). cbv zeta.
  cbn [Nat.add].
  assert (HF : Forall (fun a => length (Spec.admin_notified prices a) = 1%nat)
                 (List.filter (Spec.newly_triggered prices) (priceAlerts st))).
  { apply List.Forall_forall. intros a Hin. apply filter_In in Hin as [_ Hn].
    now apply (admin_check_alert_effects prices a O Spec.blank). }
  destruct (List.filter (Spec.newly_triggered prices) (priceAlerts st))
    as [|a fresh] eqn:Hf.
  - cbn. auto.
  - cbn [length].
    destruct (rev (a :: fresh)) as [|b r] eqn:Hr.
    + apply (f_equal (@length _)) in Hr. rewrite length_rev in Hr. discriminate.
    + cbn. auto.
Qed.

(** Two rules triggered by one evaluation: the user dashboard shows two
    toasts, the other dashboard only the one for the second rule. *)
Example scenario_two_alerts :
  let rules :=
    {| priceAlerts := [Sample.rice_rule;
                       {| alert_id := 2; itemName := "RICE"; threshold := 2000;
                          triggered := false; createdAt := None |}];
       localStorage := ∅; toasts := ["Alert set for RICE"]; dialogs := [];
       badge := "2"; alertModalOpen := false |} in
  toasts (UserDashboard.checkPriceAlerts Sample.snapshot rules) =
    ["Alert set for RICE"; "Price alert: rice is now ₦500.00";
     "Price alert: RICE is now ₦500.00"] /\
  toasts (AdminDashboard.checkPriceAlerts Sample.snapshot rules) =
    ["🔔 Price Alert: RICE is now ₦500.00!"].
Proof. split; vm_compute; reflexivity. Qed.

(** *** Submitting a price *)

(** For a number, [!x || x <= 0] says that [x] is not above 0. *)
Lemma not_positive (x : float) :
  PrimFloat.is_nan x = false ->
  negb (JS.truthy_number x) || PrimFloat.leb x PrimFloat.zero =
  negb (PrimFloat.ltb PrimFloat.zero x).
Proof.
  unfold JS.truthy_number, PrimFloat.is_zero, PrimFloat.is_nan.
  rewrite !FloatAxioms.eqb_spec, FloatAxioms.leb_spec, FloatAxioms.ltb_spec.
  change (Prim2SF PrimFloat.zero) with (S754_zero false).
  destruct (Prim2SF x) as [s|s| |s m e]; cbn.
  - reflexivity.
  - destruct s; reflexivity.
  - discriminate.
  - unfold SFeqb, SFcompare. rewrite Z.compare_refl, Pos.compare_cont_refl.
    destruct s; reflexivity.
Qed.

(** X19: the two dashboards build the same request from the same form.  What
    the user dashboard refuses, the other one refuses too; what the user
    dashboard sends, the other one sends as well when the price is above 0
    and refuses otherwise - so a price of 0 or below is sent by the user
    dashboard alone. *)
Theorem submitPrice_refuses_what_is_not_positive
  (f : Submission.Form) (session_id : option string) :
  match Submission.onSubmitPrice f session_id with
  | inl _ => exists message, Submission.submitPrice f session_id = inl message
  | inr p =>
      p = Submission.payload f session_id /\
      Submission.submitPrice f session_id =
        if PrimFloat.ltb PrimFloat.zero (Submission.p_price p)
        then inr p else inl "Please enter a valid price"
  end.
Proof.
  unfold Submission.onSubmitPrice, Submission.submitPrice.
  set (p := Submission.payload f session_id).
  destruct (Submission.some_number (Submission.p_category_id p));
    cbn [negb orb]; [|eauto].
  destruct (JS.truthy_string (Submission.p_name p)); cbn [negb orb]; [|eauto].
  destruct (PrimFloat.is_nan (Submission.p_price p)) eqn:Hn.
  - unfold JS.truthy_number. rewrite Hn, orb_true_r. cbn [negb orb]. eauto.
  - split; [reflexivity|]. rewrite (not_positive _ Hn).
    now destruct (PrimFloat.ltb _ _).
Qed.

(** A form with a negative price goes out from the user dashboard and is
    refused by the other one. *)
Example scenario_negative_price :
  let f := {| Submission.category := "3"; Submission.itemName := " Rice ";
              Submission.brand := ""; Submission.packSize := "";
              Submission.packUnit := ""; Submission.price := "-5";
              Submission.pricePerUnit := ""; Submission.retailer := "";
              Submission.location := "" |} in
  Submission.onSubmitPrice f (Some "12") = inr (Submission.payload f (Some "12")) /\
  Submission.p_price (Submission.payload f (Some "12")) = (-5)%float /\
  Submission.p_name (Submission.payload f (Some "12")) = "Rice" /\
  Submission.p_category_id (Submission.payload f (Some "12")) = Some 3%float /\
  Submission.submitPrice f (Some "12") = inl "Please enter a valid price".
Proof. vm_compute. repeat split; reflexivity. Qed.

(** *** Loading the prices *)

(** Against an empty snapshot no rule changes and nothing is notified. *)
Lemma rules_after_empty_snapshot (l : list AlertRule) :
  map (Spec.rule_after []) l = l /\ flat_map (Spec.notified []) l = [].
Proof.
  induction l as [|a l [IH1 IH2]]; [auto|].
  cbn [map flat_map]. rewrite IH1, IH2.
  unfold Spec.rule_after, Spec.notified, UserDashboard.check_alert.
  destruct (triggered a); auto.
Qed.

(** X20: when the request for the prices throws, [loadPrices] of the user
    dashboard leaves the page as it was.  When a body arrives that is not an
    array, whatever the status of the response, the snapshot and the
    rendered list become empty, the counters show 0 prices and an average
    of ₦0.00, and the alert rules keep their flags, show no toast and are
    written to the store.  On the other dashboard a request that throws or a
    response that is not ok empties the snapshot and the rendered list and
    leaves the counters and the alert state as they were, so the counters
    keep the figures of the previous snapshot. *)
Theorem loadPrices_on_failure (ok : bool) (b : Loading.body) (pg : Loading.Page) :
  Loading.loadPrices Loading.Throws pg = pg /\
  (let pg' := Loading.loadPrices (Loading.Arrives ok Loading.Other) pg in
   Loading.allPrices pg' = [] /\
   Loading.rendered pg' = [] /\
   Loading.counters pg' =
     Some {| UserDashboard.totalPrices := "0"; UserDashboard.avgPrice := "₦0.00";
             UserDashboard.totalLocations := "0";
             UserDashboard.totalRetailers := "0" |} /\
   priceAlerts (Loading.alerts pg') = priceAlerts (Loading.alerts pg) /\
   toasts (Loading.alerts pg') = toasts (Loading.alerts pg) /\
   localStorage (Loading.alerts pg') =
     <["priceAlerts" := JSON.stringify (priceAlerts (Loading.alerts pg))]>
       (localStorage (Loading.alerts pg))) /\
  (let thrown := Loading.fixed_loadPrices Loading.Throws pg in
   let refused := Loading.fixed_loadPrices (Loading.Arrives false b) pg in
   thrown = refused /\
   Loading.allPrices thrown = [] /\
   Loading.rendered thrown = [] /\
   Loading.counters thrown = Loading.counters pg /\
   Loading.alerts thrown = Loading.alerts pg).
Proof.
  split; [reflexivity|]. split; [|cbv zeta; cbn; auto]. cbv zeta.
  unfold Loading.loadPrices.
  cbn [Loading.array_or_empty Loading.allPrices Loading.rendered
       Loading.counters Loading.alerts Loading.displayPrices].
  pose proof (checkPriceAlerts_fields [] (Loading.alerts pg)) as (Ha & Hl & Ht & _).
  cbv zeta in Ha, Hl, Ht.
  destruct (rules_after_empty_snapshot (priceAlerts (Loading.alerts pg))) as [Hid Hno].
  rewrite Hid in Ha, Hl. rewrite Hno, app_nil_r in Ht.
  repeat split; try assumption; reflexivity.
Qed.

(** *** The dark mode switch *)

Lemma click_look (key : string) (l : DarkMode.Look) :
  let before := Host.same (Host.getItem key (DarkMode.store l)) (Some "true") in
  DarkMode.dark (DarkMode.click key l) = negb before /\
  Host.getItem key (DarkMode.store (DarkMode.click key l)) =
    Some (if negb before then "true" else "false") /\
  DarkMode.button (DarkMode.click key l) = (if negb before then "☀️" else "🌙").
Proof.
  cbv zeta. unfold DarkMode.click, DarkMode.applyPref, Host.getItem, Host.setItem.
  cbn [DarkMode.store DarkMode.dark DarkMode.button].
  rewrite lookup_insert_eq.
  destruct (Host.same (DarkMode.store l !! key) (Some "true")); cbn; auto.
Qed.

(** X21: after the page has applied the stored preference, each click on the
    dark mode button switches the look: after [n] clicks the page is dark
    exactly when it was dark at first and [n] is even, or was light and [n]
    is odd.  The look always is the one a reload would show, and after a
    click the store holds the text "true" or "false" accordingly. *)
Theorem dark_mode_clicks_toggle (key : string) (n : nat) (l : DarkMode.Look) :
  let first := Host.same (Host.getItem key (DarkMode.store l)) (Some "true") in
  let l' := DarkMode.clicks key n (DarkMode.applyPref key l) in
  DarkMode.dark l' = xorb first (Nat.odd n) /\
  DarkMode.applyPref key l' = l' /\
  (n <> O ->
   Host.getItem key (DarkMode.store l') =
     Some (if DarkMode.dark l' then "true" else "false")).
Proof.
  cbv zeta. induction n as [|n (IHd & IHr & IHs)].
  - cbn [DarkMode.clicks Nat.odd]. rewrite xorb_false_r.
    split; [reflexivity|]. split; [reflexivity|]. congruence.
  - cbn [DarkMode.clicks].
    set (l' := DarkMode.clicks key n (DarkMode.applyPref key l)) in *.
    destruct (click_look key l') as (Hd & Hs & Hb). cbv zeta in Hd, Hs, Hb.
    assert (Hsame : Host.same (Host.getItem key (DarkMode.store l')) (Some "true")
                    = DarkMode.dark l').
    { rewrite <- IHr at 2. reflexivity. }
    rewrite Hsame in Hd, Hs.
    split; [|split].
    + rewrite Hd, IHd, Nat.odd_succ, <- Nat.negb_odd.
      destruct (Host.same _ _), (Nat.odd n); reflexivity.
    + unfold DarkMode.click at 1. unfold DarkMode.applyPref at 1 2.
      cbn [DarkMode.store DarkMode.dark DarkMode.button].
      reflexivity.
    + intros _. rewrite Hs, Hd. reflexivity.
Qed.

(** *** The overview of the admin dashboard *)



(** *** The subscribers of the price feed *)

Section SubscriberFacts.
Context {C : Type} `{EqDecision C}.
Import PriceUpdater.
Implicit Types (m : @Subscribers C) (s : list C) (i k : Z) (cb : C).

Lemma get_set_eq m i s : get i (set i s m) = Some s.
Proof.
  induction m as [|[k s'] m IH]; cbn [set get].
  - now rewrite Z.eqb_refl.
  - destruct (Z.eqb_spec k i) as [->|N]; cbn [get].
    + now rewrite Z.eqb_refl.
    + destruct (Z.eqb_spec k i); [contradiction | exact IH].
Qed.

Lemma get_set_ne m i k s : i <> k -> get k (set i s m) = get k m.
Proof.
  intros N. induction m as [|[j s'] m IH]; cbn [set get].
  - destruct (Z.eqb_spec i k); [contradiction | reflexivity].
  - destruct (Z.eqb_spec j i) as [->|Nj]; cbn [get].
    + destruct (Z.eqb_spec i k); [contradiction | reflexivity].
    + destruct (Z.eqb_spec j k); [reflexivity | exact IH].
Qed.

Lemma set_set m i s s' : set i s (set i s' m) = set i s m.
Proof.
  induction m as [|[k s0] m IH]; cbn [set].
  - now rewrite Z.eqb_refl.
  - destruct (Z.eqb_spec k i) as [->|N]; cbn [set].
    + now rewrite Z.eqb_refl.
    + destruct (Z.eqb_spec k i); [contradiction | now rewrite IH].
Qed.

Lemma set_get m i s : get i m = Some s -> set i s m = m.
Proof.
  induction m as [|[k s0] m IH]; cbn [set get]; [discriminate|].
  destruct (Z.eqb_spec k i) as [->|N].
  - now intros [= ->].
  - intros E. now rewrite IH.
Qed.

Lemma delete_set_absent m i s : get i m = None -> delete_key i (set i s m) = m.
Proof.
  induction m as [|[k s0] m IH]; cbn [set get delete_key].
  - now rewrite Z.eqb_refl.
  - destruct (Z.eqb_spec k i) as [->|N]; [discriminate|].
    intros E. cbn [delete_key].
    destruct (Z.eqb_spec k i); [contradiction | now rewrite IH].
Qed.

Lemma get_delete_eq m i : NoDup (map fst m) -> get i (delete_key i m) = None.
Proof.
  induction m as [|[k s0] m IH]; cbn [delete_key get map fst]; [reflexivity|].
  intros Hnd. apply NoDup_cons in Hnd as [Hk Hnd].
  destruct (Z.eqb_spec k i) as [->|N]; cbn [get].
  - clear IH. induction m as [|[j s1] m IH]; [reflexivity|].
    cbn [get]. destruct (Z.eqb_spec j i) as [->|Nj].
    + exfalso. apply Hk. cbn. now left.
    + apply IH.
      * intros Hin. apply Hk. cbn. now right.
      * cbn in Hnd. now apply NoDup_cons in Hnd as [_ Hnd].
  - destruct (Z.eqb_spec k i); [contradiction | now apply IH].
Qed.

Lemma get_delete_ne m i k : i <> k -> get k (delete_key i m) = get k m.
Proof.
  intros N. induction m as [|[j s0] m IH]; cbn [delete_key get]; [reflexivity|].
  destruct (Z.eqb_spec j i) as [->|Nj]; cbn [get].
  - destruct (Z.eqb_spec i k); [contradiction | reflexivity].
  - destruct (Z.eqb_spec j k); [reflexivity | exact IH].
Qed.

Lemma remove_absent cb s : cb ∉ s -> remove cb s = s.
Proof.
  intros Hn. unfold remove. induction s as [|c s IH]; [reflexivity|].
  cbn [List.filter]. rewrite not_elem_of_cons in Hn. destruct Hn as [Hc Hs].
  rewrite bool_decide_eq_false_2 by congruence. cbn [negb]. now rewrite IH.
Qed.

Lemma remove_app cb s t : remove cb (s ++ t) = remove cb s ++ remove cb t.
Proof. unfold remove. apply List.filter_app. Qed.

Lemma remove_gone cb s : cb ∉ remove cb s.
Proof.
  unfold remove. intros Hin. apply list_elem_of_In, List.filter_In in Hin.
  destruct Hin as [_ Hb]. rewrite bool_decide_eq_true_2 in Hb by reflexivity.
  discriminate.
Qed.

Lemma keys_set m i s :
  map fst (set i s m) = if has i m then map fst m else map fst m ++ [i].
Proof.
  unfold has. induction m as [|[k s0] m IH]; cbn [set get map fst]; [reflexivity|].
  destruct (Z.eqb_spec k i) as [->|N]; [reflexivity|].
  cbn [map fst]. rewrite IH. now destruct (get i m).
Qed.

Lemma get_None_keys m i : get i m = None <-> ~ In i (map fst m).
Proof.
  induction m as [|[k s0] m IH]; cbn [get map fst In]; [tauto|].
  destruct (Z.eqb_spec k i) as [->|N].
  - split; [discriminate | tauto].
  - rewrite IH. tauto.
Qed.

Lemma Forall_set (P : Z * list C -> Prop) m i s :
  Forall P m -> P (i, s) -> Forall P (set i s m).
Proof.
  intros Hm Hs. induction Hm as [|[k s0] m Hk Hm IH]; cbn [set].
  - now constructor.
  - destruct (Z.eqb_spec k i) as [->|N]; constructor; auto.
Qed.

Lemma Forall_delete (P : Z * list C -> Prop) m i :
  Forall P m -> Forall P (delete_key i m).
Proof.
  intros Hm. induction Hm as [|[k s0] m Hk Hm IH]; cbn [delete_key].
  - constructor.
  - destruct (k =? i)%Z; [assumption | now constructor].
Qed.

Lemma keys_delete_sub m i k :
  k ∈ map fst (delete_key i m) -> k ∈ map fst m.
Proof.
  induction m as [|[j s1] m IH]; cbn [delete_key map fst]; [auto|].
  destruct (j =? i)%Z.
  - intros Hin. now apply list_elem_of_further.
  - cbn [map fst]. rewrite !elem_of_cons. intros [->|Hin]; auto.
Qed.

Lemma keys_delete m i : NoDup (map fst m) -> NoDup (map fst (delete_key i m)).
Proof.
  induction m as [|[k s0] m IH]; cbn [delete_key map fst]; [auto|].
  intros Hnd. apply NoDup_cons in Hnd as [Hk Hnd].
  destruct (k =? i)%Z; [assumption|].
  cbn [map fst]. apply NoDup_cons. split; [|auto].
  intros Hin. apply Hk. now apply keys_delete_sub in Hin.
Qed.

Lemma tidy_get m i s : tidy m -> get i m = Some s -> s <> [] /\ NoDup s.
Proof.
  intros [_ Hall]. induction Hall as [|[k s0] m Hk Hm IH]; cbn [get]; [discriminate|].
  destruct (k =? i)%Z; [|assumption]. now intros [= <-].
Qed.

Lemma tidy_set m i s : tidy m -> s <> [] -> NoDup s -> tidy (set i s m).
Proof.
  intros [Hk Hall] Hs Hnd. split.
  - rewrite keys_set. unfold has. destruct (get i m) eqn:E; [assumption|].
    apply get_None_keys in E.
    apply NoDup_app. split; [assumption|]. split; [|apply NoDup_singleton].
    intros x Hx Hi. apply list_elem_of_singleton in Hi. subst x.
    apply E. now apply list_elem_of_In.
  - now apply Forall_set.
Qed.

Lemma NoDup_add cb s : NoDup s -> NoDup (add cb s).
Proof.
  intros Hnd. unfold add. destruct (bool_decide_reflect (cb ∈ s)) as [Hin|Hn];
    [assumption|].
  apply NoDup_app. split; [assumption|]. split; [|apply NoDup_singleton].
  intros x Hx Hi. apply list_elem_of_singleton in Hi. now subst x.
Qed.

Lemma add_nonempty cb s : add cb s <> [].
Proof.
  unfold add. destruct (bool_decide_reflect (cb ∈ s)) as [Hin|Hn].
  - intros ->. now apply elem_of_nil in Hin.
  - destruct s; discriminate.
Qed.

Lemma add_nil cb : add cb [] = [cb].
Proof.
  unfold add. now rewrite bool_decide_eq_false_2 by apply not_elem_of_nil.
Qed.

Lemma remove_singleton cb : remove cb [cb] = [].
Proof.
  unfold remove. cbn [List.filter].
  now rewrite bool_decide_eq_true_2 by reflexivity.
Qed.

Lemma NoDup_remove cb s : NoDup s -> NoDup (remove cb s).
Proof.
  intros Hnd. unfold remove.
  apply NoDup_ListNoDup, List.NoDup_filter, NoDup_ListNoDup, Hnd.
Qed.

Lemma tidy_subscribe m i cb : tidy m -> tidy (subscribe i cb m).
Proof.
  intros Ht. unfold subscribe, has.
  destruct (get i m) as [s|] eqn:E; cbn [negb].
  - rewrite E. destruct (tidy_get m i s Ht E) as [_ Hnd].
    apply tidy_set; [assumption | apply add_nonempty | now apply NoDup_add].
  - rewrite get_set_eq, set_set.
    apply tidy_set; [assumption | apply add_nonempty | apply NoDup_add, NoDup_nil_2].
Qed.

Lemma tidy_unsubscribe m i cb : tidy m -> tidy (unsubscribe i cb m).
Proof.
  intros Ht. unfold unsubscribe.
  destruct (get i m) as [s|] eqn:E; [|assumption].
  destruct (tidy_get m i s Ht E) as [_ Hnd].
  destruct (remove cb s) as [|c r] eqn:Er.
  - destruct Ht as [Hk Hall]. split.
    + apply keys_delete. rewrite keys_set. unfold has. now rewrite E.
    + clear E. induction Hall as [|[k s0] m Hk0 Hm IH]; cbn [set delete_key].
      * rewrite Z.eqb_refl. constructor.
      * cbn [map fst] in Hk. apply NoDup_cons in Hk as [_ Hk].
        destruct (Z.eqb_spec k i) as [->|N]; cbn [delete_key].
        -- rewrite Z.eqb_refl. assumption.
        -- destruct (Z.eqb_spec k i); [contradiction|]. constructor; auto.
  - apply tidy_set; [assumption|discriminate|].
    rewrite <- Er. now apply NoDup_remove.
Qed.

Lemma subscribed_spec m i cb :
  subscribed i cb m = true <-> exists s, get i m = Some s /\ cb ∈ s.
Proof.
  unfold subscribed. destruct (get i m) as [s|].
  - rewrite bool_decide_eq_true. split; [eauto|]. now intros (s' & [= <-] & H).
  - split; [discriminate|]. now intros (s' & [=] & _).
Qed.

(** A callback of a [Set] is called once when the [Set] is gone through. *)
Lemma times_called_in_set (data : Update) cb s :
  NoDup s ->
  times_called cb (map (fun callback => (callback, data)) s) =
  if bool_decide (cb ∈ s) then 1%nat else 0%nat.
Proof.
  unfold times_called. induction s as [|c s IH]; intros Hnd.
  - reflexivity.
  - apply NoDup_cons in Hnd as [Hc Hnd]. cbn [map List.filter fst].
    destruct (bool_decide_reflect (c = cb)) as [->|N].
    + cbn [length]. rewrite IH by assumption.
      rewrite (bool_decide_eq_false_2 (cb ∈ s)) by assumption.
      rewrite bool_decide_eq_true_2 by apply list_elem_of_here. reflexivity.
    + rewrite IH by assumption.
      destruct (bool_decide_reflect (cb ∈ s)) as [Hin|Hn].
      * rewrite bool_decide_eq_true_2 by now apply list_elem_of_further.
        reflexivity.
      * rewrite bool_decide_eq_false_2; [reflexivity|].
        rewrite not_elem_of_cons. split; congruence.
Qed.

Lemma times_called_app cb (a b : list (C * Update)) :
  times_called cb (a ++ b) = (times_called cb a + times_called cb b)%nat.
Proof. unfold times_called. now rewrite List.filter_app, length_app. Qed.

End SubscriberFacts.

(** X23: as long as no key of [subscribers] occurs twice, no [Set] is empty
    and no callback occurs twice in a [Set] - the state of a new updater -
    [subscribe] and the function it returns keep it so.  The function
    returned undoes the subscription exactly when the callback was not
    subscribed to that item before; when it was, [subscribe] changes nothing
    and the function returned removes the earlier subscription. *)
Theorem unsubscribe_undoes_subscribe
  {C : Type} `{EqDecision C} (m : @PriceUpdater.Subscribers C)
  (itemId : Z) (callback : C) :
  PriceUpdater.tidy m ->
  let m' := PriceUpdater.subscribe itemId callback m in
  PriceUpdater.tidy m' /\
  PriceUpdater.tidy (PriceUpdater.unsubscribe itemId callback m) /\
  PriceUpdater.subscribed itemId callback m' = true /\
  PriceUpdater.subscribed itemId callback
    (PriceUpdater.unsubscribe itemId callback m') = false /\
  if PriceUpdater.subscribed itemId callback m
  then m' = m
  else PriceUpdater.unsubscribe itemId callback m' = m.
Proof.
  intros Ht. cbv zeta.
  split; [now apply tidy_subscribe|]. split; [now apply tidy_unsubscribe|].
  assert (Hsub : forall m0, PriceUpdater.tidy m0 ->
            PriceUpdater.subscribed itemId callback
              (PriceUpdater.unsubscribe itemId callback m0) = false).
  { intros m0 [Hk0 Hall0]. unfold PriceUpdater.unsubscribe, PriceUpdater.subscribed.
    destruct (PriceUpdater.get itemId m0) as [s|] eqn:E; [|now rewrite E].
    destruct (PriceUpdater.remove callback s) as [|c r] eqn:Er.
    - rewrite get_delete_eq; [reflexivity|].
      rewrite keys_set. unfold PriceUpdater.has. now rewrite E.
    - rewrite get_set_eq, <- Er. apply bool_decide_eq_false_2, remove_gone. }
  split; [|split].
  - unfold PriceUpdater.subscribe, PriceUpdater.has, PriceUpdater.subscribed.
    destruct (PriceUpdater.get itemId m) as [s|] eqn:E; cbn [negb].
    + rewrite E, get_set_eq. unfold PriceUpdater.add.
      destruct (bool_decide_reflect (callback ∈ s)) as [Hin|Hn].
      * now apply bool_decide_eq_true_2.
      * apply bool_decide_eq_true_2, elem_of_app. right. apply list_elem_of_here.
    + rewrite get_set_eq, get_set_eq, add_nil.
      apply bool_decide_eq_true_2, list_elem_of_here.
  - apply Hsub. now apply tidy_subscribe.
  - unfold PriceUpdater.subscribed, PriceUpdater.subscribe, PriceUpdater.has.
    destruct (PriceUpdater.get itemId m) as [s|] eqn:E; cbn [negb].
    + rewrite E. unfold PriceUpdater.add.
      destruct (tidy_get m itemId s Ht E) as [Hne Hnd].
      destruct (bool_decide_reflect (callback ∈ s)) as [Hin|Hn].
      * now apply set_get.
      * unfold PriceUpdater.unsubscribe. rewrite get_set_eq, set_set.
        rewrite remove_app, (remove_absent callback s Hn), remove_singleton.
        rewrite app_nil_r. rewrite (set_get m itemId s E).
        destruct s; [contradiction | reflexivity].
    + rewrite get_set_eq, set_set.
      unfold PriceUpdater.unsubscribe. rewrite get_set_eq, set_set.
      rewrite add_nil, remove_singleton.
      now apply delete_set_absent.
Qed.

Lemma unsubscribe_undoes_subscribe_witness :
  PriceUpdater.unsubscribe 7 "show"
    (PriceUpdater.subscribe 7 "show" [(0%Z, ["log"])]) = [(0%Z, ["log"])].
Proof.
  refine (proj2 (proj2 (proj2 (proj2
            (unsubscribe_undoes_subscribe [(0%Z, ["log"])] 7 "show" _))))).
  split.
  - cbn. apply NoDup_singleton.
  - constructor; [|constructor].
    cbn. split; [discriminate | apply NoDup_singleton].
Defined.

(** X24: for each message, [handlePriceUpdate] calls a callback once if it is
    subscribed to the item of the message, and once more if it is subscribed
    to item 0, the subscription to all items; every call is handed the data
    of the message.  So for a message about item 0 itself each subscriber to
    all items is called twice. *)
Theorem handlePriceUpdate_calls
  {C : Type} `{EqDecision C} (m : @PriceUpdater.Subscribers C)
  (data : PriceUpdater.Update) (callback : C) :
  PriceUpdater.tidy m ->
  let calls := PriceUpdater.handlePriceUpdate data m in
  PriceUpdater.times_called callback calls =
    ((if PriceUpdater.subscribed (PriceUpdater.item_id data) callback m
      then 1 else 0) +
     (if PriceUpdater.subscribed 0 callback m then 1 else 0))%nat /\
  Forall (fun call => snd call = data) calls.
Proof.
  intros Ht. cbv zeta. unfold PriceUpdater.handlePriceUpdate. split.
  - rewrite times_called_app. unfold PriceUpdater.subscribed. f_equal.
    + destruct (PriceUpdater.get (PriceUpdater.item_id data) m) as [s|] eqn:E;
        [|reflexivity].
      apply times_called_in_set. now apply (tidy_get m _ s Ht E).
    + destruct (PriceUpdater.get 0 m) as [s|] eqn:E; [|reflexivity].
      apply times_called_in_set. now apply (tidy_get m _ s Ht E).
  - apply Forall_app. split.
    + destruct (PriceUpdater.get (PriceUpdater.item_id data) m) as [s|];
        [|constructor].
      apply List.Forall_forall. intros call Hin.
      apply List.in_map_iff in Hin as (c & <- & _). reflexivity.
    + destruct (PriceUpdater.get 0 m) as [s|]; [|constructor].
      apply List.Forall_forall. intros call Hin.
      apply List.in_map_iff in Hin as (c & <- & _). reflexivity.
Qed.

Lemma handlePriceUpdate_calls_witness :
  let data := {| PriceUpdater.item_id := 0; PriceUpdater.item_name := "Rice";
                 PriceUpdater.store_name := "Campus Mart";
                 PriceUpdater.price := 1500;
                 PriceUpdater.timestamp := "2025-01-01T00:00:00Z" |} in
  PriceUpdater.times_called "log"
    (PriceUpdater.handlePriceUpdate data [(0%Z, ["log"])]) = 2%nat.
Proof.
  intros data.
  refine (proj1 (handlePriceUpdate_calls [(0%Z, ["log"])] data "log" _)).
  split.
  - cbn. apply NoDup_singleton.
  - constructor; [|constructor].
    cbn. split; [discriminate | apply NoDup_singleton].
Defined.

(** *** Reconnecting *)

Section ReconnectFacts.
Import PriceUpdater.

Lemma failed_attempts_S (n : nat) (c : Connection) :
  failed_attempts (S n) c = timer_fires false (onclose (failed_attempts n c)).
Proof. reflexivity. Qed.

(** The state after [n] failed attempts, for [n] up to the maximum. *)
Lemma failed_attempts_within (n : nat) :
  (n <= maxReconnectAttempts)%nat ->
  failed_attempts n (connect false fresh) =
    {| ws := Some n; isConnecting := true; reconnectAttempts := n;
       sockets_made := S n;
       delays := map (fun i => (2 ^ Z.of_nat i * 1000)%Z) (seq 0 n);
       timers_pending := 0 |}.
Proof.
  induction n as [|n IH]; intros Hn.
  - reflexivity.
  - rewrite failed_attempts_S, IH by lia.
    unfold onclose, attemptReconnect.
    cbn [reconnectAttempts ws isConnecting sockets_made delays timers_pending].
    destruct (Nat.leb_spec maxReconnectAttempts n) as [H|_]; [lia|].
    unfold timer_fires, connect.
    cbn [reconnectAttempts ws isConnecting sockets_made delays timers_pending].
    rewrite seq_S, map_app. reflexivity.
Qed.

(** Once the maximum is reached, a further failure changes nothing. *)
Lemma failure_after_giving_up (l : list Z) :
  timer_fires false
    (onclose {| ws := None; isConnecting := false; reconnectAttempts := 5;
                sockets_made := 6; delays := l; timers_pending := 0 |}) =
  {| ws := None; isConnecting := false; reconnectAttempts := 5;
     sockets_made := 6; delays := l; timers_pending := 0 |}.
Proof. reflexivity. Qed.

Lemma sixth_failure (l : list Z) :
  timer_fires false
    (onclose {| ws := Some 5%nat; isConnecting := true; reconnectAttempts := 5;
                sockets_made := 6; delays := l; timers_pending := 0 |}) =
  {| ws := None; isConnecting := false; reconnectAttempts := 5;
     sockets_made := 6; delays := l; timers_pending := 0 |}.
Proof. reflexivity. Qed.

(** One failure more than the maximum, and any number after that. *)
Lemma failed_attempts_beyond (n : nat) :
  failed_attempts (n + 6) (connect false fresh) =
    {| ws := None; isConnecting := false; reconnectAttempts := 5;
       sockets_made := 6;
       delays := map (fun i => (2 ^ Z.of_nat i * 1000)%Z) (seq 0 5);
       timers_pending := 0 |}.
Proof.
  induction n as [|n IH].
  - change (0 + 6)%nat with (S 5).
    rewrite failed_attempts_S.
    rewrite (failed_attempts_within 5) by (unfold maxReconnectAttempts; lia).
    apply sixth_failure.
  - change (S n + 6)%nat with (S (n + 6)).
    rewrite failed_attempts_S, IH. apply failure_after_giving_up.
Qed.

End ReconnectFacts.

(** X25: when the socket of a new updater closes before it has opened, again
    and again, the updater reconnects after 1000, 2000, 4000, 8000 and
    16000 ms and then gives up: after [n] failures in a row it has made
    [n + 1] sockets if [n] is at most 5, and from the sixth failure on it
    holds no socket, has no timer pending and has made six sockets in
    all. *)
Theorem reconnecting_gives_up_after_five_attempts (n : nat) :
  let c := PriceUpdater.failed_attempts n
             (PriceUpdater.connect false PriceUpdater.fresh) in
  PriceUpdater.delays c =
    map (fun i => (2 ^ Z.of_nat i * 1000)%Z) (seq 0 (Nat.min n 5)) /\
  PriceUpdater.sockets_made c = S (Nat.min n 5) /\
  PriceUpdater.timers_pending c = O /\
  PriceUpdater.ws c = (if (n <=? 5)%nat then Some n else None).
Proof.
  cbv zeta. destruct (Nat.leb_spec n 5) as [Hle|Hgt].
  - rewrite failed_attempts_within by exact Hle.
    cbn [PriceUpdater.delays PriceUpdater.sockets_made
         PriceUpdater.timers_pending PriceUpdater.ws].
    now rewrite Nat.min_l by exact Hle.
  - rewrite Nat.min_r by lia.
    replace n with (n - 6 + 6)%nat by lia.
    rewrite failed_attempts_beyond.
    cbn [PriceUpdater.delays PriceUpdater.sockets_made
         PriceUpdater.timers_pending PriceUpdater.ws].
    auto.
Qed.

(** X26: [disconnect()] does not end the connection for good.  When the
    updater holds an open socket and has used fewer than five reconnection
    attempts, then after [disconnect()], once the close event of the socket
    has been handled and the timer it sets has fired, the updater holds a
    new socket. *)
Theorem disconnect_is_followed_by_a_reconnection
  (c : PriceUpdater.Connection) (socket : nat) :
  PriceUpdater.ws c = Some socket ->
  PriceUpdater.isConnecting c = false ->
  (PriceUpdater.reconnectAttempts c < PriceUpdater.maxReconnectAttempts)%nat ->
  let closed := PriceUpdater.onclose (PriceUpdater.disconnect c) in
  let c' := PriceUpdater.timer_fires false closed in
  PriceUpdater.ws (PriceUpdater.disconnect c) = None /\
  PriceUpdater.delays closed =
    PriceUpdater.delays c ++
    [(2 ^ Z.of_nat (PriceUpdater.reconnectAttempts c) * 1000)%Z] /\
  PriceUpdater.ws c' = Some (PriceUpdater.sockets_made c) /\
  PriceUpdater.sockets_made c' = S (PriceUpdater.sockets_made c).
Proof.
  intros Hws Hc Hn. cbv zeta.
  unfold PriceUpdater.disconnect. rewrite Hws.
  unfold PriceUpdater.onclose, PriceUpdater.attemptReconnect.
  cbn [PriceUpdater.reconnectAttempts PriceUpdater.ws PriceUpdater.isConnecting
       PriceUpdater.sockets_made PriceUpdater.delays PriceUpdater.timers_pending].
  destruct (Nat.leb_spec PriceUpdater.maxReconnectAttempts
              (PriceUpdater.reconnectAttempts c)) as [H|_]; [lia|].
  unfold PriceUpdater.timer_fires, PriceUpdater.connect.
  cbn [PriceUpdater.reconnectAttempts PriceUpdater.ws PriceUpdater.isConnecting
       PriceUpdater.sockets_made PriceUpdater.delays PriceUpdater.timers_pending].
  auto.
Qed.

Lemma disconnect_is_followed_by_a_reconnection_witness :
  let c := PriceUpdater.onopen (PriceUpdater.connect false PriceUpdater.fresh) in
  PriceUpdater.ws
    (PriceUpdater.timer_fires false
       (PriceUpdater.onclose (PriceUpdater.disconnect c))) = Some 1%nat.
Proof.
  intros c.
  refine (proj1 (proj2 (proj2
            (disconnect_is_followed_by_a_reconnection c 0 eq_refl eq_refl _)))).
  cbn. unfold PriceUpdater.maxReconnectAttempts. lia.
Defined.

(** *** The search box in general *)

Section SearchInGeneral.
Local Open Scope Z_scope.

(** An input once the pending timer is due: the search runs first, on what
    the box read until now, then the input arms a new timer. *)
Lemma step_input_fires (pg : UserDashboard.page) (d : Z) (v : string)
  (E : list (string * list PriceRecord)) (P : list PriceRecord) (t : Z)
  (v' : string) :
  Spec.armed pg d v E P -> EventLoop.clock (UserDashboard.loop pg) <= t ->
  d <= t ->
  Spec.armed (UserDashboard.step pg (UserDashboard.Input t v')) (t + 200) v'
    (E ++ [(JS.toLowerCase (JS.trim v), UserDashboard.search P v)]) P /\
  EventLoop.clock (UserDashboard.loop (UserDashboard.step pg (UserDashboard.Input t v'))) = t.
Proof.
  intros (h & Hp & Hto & Hv & HE & HP) Hc Hle. cbn [UserDashboard.step].
  unfold UserDashboard.advance. rewrite Hp. cbn [length UserDashboard.run_due].
  unfold EventLoop.next_due. rewrite Hp. cbn [EventLoop.earliest EventLoop.due].
  destruct (Z.leb_spec d t); [|lia].
  unfold UserDashboard.search_callback, EventLoop.fire.
  cbn [UserDashboard.loop UserDashboard.timeout UserDashboard.searchInput
       UserDashboard.allPrices UserDashboard.evaluations
       EventLoop.pending EventLoop.handle EventLoop.clock EventLoop.next_handle
       EventLoop.due].
  rewrite Hp, without_self, Hv, HE, HP.
  unfold UserDashboard.on_input.
  cbn [UserDashboard.loop UserDashboard.timeout UserDashboard.searchInput
       UserDashboard.allPrices UserDashboard.evaluations EventLoop.settle
       EventLoop.pending EventLoop.clock EventLoop.next_handle].
  rewrite Hto.
  unfold EventLoop.settle, EventLoop.clearTimeout, EventLoop.setTimeout,
    EventLoop.without.
  cbn [EventLoop.pending EventLoop.clock EventLoop.next_handle List.filter app
       UserDashboard.loop UserDashboard.timeout UserDashboard.searchInput
       UserDashboard.allPrices UserDashboard.evaluations fst snd].
  replace (Z.max (Z.max (EventLoop.clock (UserDashboard.loop pg)) d) t) with t by lia.
  split; [|reflexivity].
  eexists. repeat split; reflexivity.
Qed.

Lemma run_inputs_unsuperseded (rest : list (Z * string)) :
  forall (pg : UserDashboard.page) (t : Z) (v : string)
         (E : list (string * list PriceRecord)) (P : list PriceRecord) (T : Z),
    Spec.armed pg (t + 200) v E P ->
    EventLoop.clock (UserDashboard.loop pg) = t ->
    Timing.ascending t rest ->
    fst (List.last rest (t, v)) + 200 <= T ->
    UserDashboard.evaluations
      (UserDashboard.run (Spec.inputs rest ++ [UserDashboard.Idle T]) pg) =
    E ++ map (fun v => (JS.toLowerCase (JS.trim v), UserDashboard.search P v))
             (Timing.unsuperseded 200 ((t, v) :: rest)).
Proof.
  induction rest as [|[t' v'] rest IH]; intros pg t v E P T Ha Hc Hasc HT.
  - cbn [Spec.inputs map app UserDashboard.run fold_left UserDashboard.step
         Timing.unsuperseded].
    cbn [List.last fst] in HT.
    now apply (advance_fires pg (t + 200) v E P T Ha).
  - destruct Hasc as [Ht Hasc].
    rewrite last_cons_default in HT.
    cbn [Spec.inputs map app UserDashboard.run fold_left fst snd].
    change (Timing.unsuperseded 200 ((t, v) :: (t', v') :: rest))
      with (if t' <? t + 200
            then Timing.unsuperseded 200 ((t', v') :: rest)
            else v :: Timing.unsuperseded 200 ((t', v') :: rest)).
    destruct (Z.ltb_spec t' (t + 200)) as [Hin|Hout].
    + destruct (step_input_armed pg (t + 200) v E P t' v' Ha) as [Ha' Hc'];
        [lia|].
      exact (IH _ t' v' E P T Ha' Hc' Hasc HT).
    + destruct (step_input_fires pg (t + 200) v E P t' v' Ha) as [Ha' Hc'];
        [lia|lia|].
      cbn [map].
      refine (eq_trans (IH _ t' v' _ P T Ha' Hc' Hasc HT) _).
      now rewrite <- app_assoc.
Qed.

End SearchInGeneral.

(** X27: the search box of the user dashboard runs one search for each input
    event that no other input event follows within 200 ms, on the text that
    event left in the box, in the order of the events; an input event that
    is followed by another within 200 ms runs no search. *)
Theorem search_runs_for_the_inputs_followed_by_a_pause
  (prices : list PriceRecord) (t0 : Z) (v0 : string)
  (more : list (Z * string)) (T : Z) :
  (0 <= t0)%Z ->
  Timing.ascending t0 more ->
  (fst (List.last more (t0, v0)) + 200 <= T)%Z ->
  UserDashboard.evaluations
    (UserDashboard.run (Spec.inputs ((t0, v0) :: more) ++ [UserDashboard.Idle T])
       (UserDashboard.start prices)) =
  map (fun v => (JS.toLowerCase (JS.trim v), UserDashboard.search prices v))
      (Timing.unsuperseded 200 ((t0, v0) :: more)).
Proof.
  intros H0 Hasc HT.
  change (Spec.inputs ((t0, v0) :: more) ++ [UserDashboard.Idle T])
    with (UserDashboard.Input t0 v0 :: (Spec.inputs more ++ [UserDashboard.Idle T])).
  unfold UserDashboard.run at 1. cbn [fold_left].
  apply (run_inputs_unsuperseded more _ t0 v0 [] prices T); [| |exact Hasc|exact HT].
  - cbn. replace (Z.max 0 t0) with t0 by lia.
    eexists. repeat split; eauto.
  - cbn. lia.
Qed.

Lemma search_runs_for_the_inputs_followed_by_a_pause_witness :
  map fst
    (UserDashboard.evaluations
       (UserDashboard.run
          (Spec.inputs [(0, "r"); (100, "ri"); (400, "rice"); (450, "")]%Z ++
           [UserDashboard.Idle 1000])
          (UserDashboard.start Sample.snapshot))) =
  ["ri"; ""].
Proof.
  rewrite (search_runs_for_the_inputs_followed_by_a_pause Sample.snapshot
             0 "r" [(100, "ri"); (400, "rice"); (450, "")]%Z 1000).
  - reflexivity.
  - lia.
  - cbn. lia.
  - cbn. lia.
Defined.

(** *** Passwords with the same hash *)

Section CollisionFacts.
Local Open Scope Z_scope.

Lemma ToInt32_lift (z : Z) : exists k, JS.ToInt32 z = z + k * 2 ^ 32.
Proof.
  exists (- ((z + 2 ^ 31) / 2 ^ 32)). unfold JS.ToInt32.
  change (2 ^ 32) with 4294967296. change (2 ^ 31) with 2147483648.
  Z.div_mod_to_equations. lia.
Qed.

(** Two turns of the loop, on "A" then "a" and on "B" then "B". *)
Lemma hash_steps_collide (h : Z) :
  Utils.hash_step (Utils.hash_step h 65) 97 =
  Utils.hash_step (Utils.hash_step h 66) 66.
Proof.
  rewrite !hash_step_rolling, <- !ToInt32_signed32.
  apply ToInt32_congr.
  destruct (ToInt32_lift (h * 2 ^ 5 - h + 65)) as [k1 ->].
  destruct (ToInt32_lift (h * 2 ^ 5 - h + 66)) as [k2 ->].
  replace ((h * 2 ^ 5 - h + 65 + k1 * 2 ^ 32) * 2 ^ 5 -
           (h * 2 ^ 5 - h + 65 + k1 * 2 ^ 32) + 97)
    with (961 * h + 2112 + (31 * k1) * 2 ^ 32) by ring.
  replace ((h * 2 ^ 5 - h + 66 + k2 * 2 ^ 32) * 2 ^ 5 -
           (h * 2 ^ 5 - h + 66 + k2 * 2 ^ 32) + 66)
    with (961 * h + 2112 + (31 * k2) * 2 ^ 32) by ring.
  now rewrite !Z_mod_plus_full.
Qed.

Lemma charCodes_append (a b : string) :
  JS.charCodes (a +:+ b) = JS.charCodes a ++ JS.charCodes b.
Proof.
  unfold JS.charCodes. induction a as [|c a IH]; [reflexivity|].
  cbn [String.append list_ascii_of_string map app]. now rewrite IH.
Qed.

End CollisionFacts.

(** X28: [hashPassword] gives different passwords the same hash: wherever a
    password contains "Aa", the password with "BB" in its place hashes to
    the same string. *)
Theorem hashPassword_collides (before after : string) :
  before +:+ "Aa" +:+ after <> before +:+ "BB" +:+ after /\
  Utils.hashPassword (before +:+ "Aa" +:+ after) =
  Utils.hashPassword (before +:+ "BB" +:+ after).
Proof.
  split.
  - induction before as [|c b IH]; cbn [String.append].
    + discriminate.
    + intros [= E]. now apply IH.
  - unfold Utils.hashPassword, Utils.hash_units.
    rewrite !charCodes_append, !fold_left_app. f_equal. f_equal.
    change (JS.charCodes "Aa") with [65; 97]%Z.
    change (JS.charCodes "BB") with [66; 66]%Z.
    rewrite !fold_left_cons. cbn [fold_left].
    apply hash_steps_collide.
Qed.

(** *** Creating an alert on the two dashboards *)

(** X29: both dashboards create the same rule from the same inputs, apart
    from the creation time that only one of them records.  The user
    dashboard creates it when the trimmed item name is not empty and the
    threshold is a number; the other dashboard asks in addition that the
    threshold be above 0, so a threshold of 0 or below makes a rule on the
    user dashboard alone. *)
Theorem savePriceAlert_versions
  (now : Z) (nowISO alertItemName alertThreshold : string) (st : State) :
  let rule c :=
    {| alert_id := now; itemName := JS.trim alertItemName;
       threshold := JS.parseFloat alertThreshold; triggered := false;
       createdAt := c |} in
  let given :=
    JS.truthy_string (JS.trim alertItemName) &&
    negb (PrimFloat.is_nan (JS.parseFloat alertThreshold)) in
  priceAlerts (UserDashboard.savePriceAlert now alertItemName alertThreshold st) =
    priceAlerts st ++ (if given then [rule None] else []) /\
  priceAlerts (AdminDashboard.savePriceAlert now nowISO alertItemName
                 alertThreshold st) =
    priceAlerts st ++
    (if given && PrimFloat.ltb PrimFloat.zero (JS.parseFloat alertThreshold)
     then [rule (Some nowISO)] else []).
Proof.
  cbv zeta.
  unfold UserDashboard.savePriceAlert, AdminDashboard.savePriceAlert.
  destruct (JS.truthy_string (JS.trim alertItemName)); cbn [negb orb andb].
  2:{ unfold window_alert, showToast. cbn [priceAlerts].
      now rewrite app_nil_r. }
  destruct (PrimFloat.is_nan (JS.parseFloat alertThreshold)) eqn:Hn;
    cbn [negb orb andb].
  { unfold window_alert, showToast. cbn [priceAlerts]. now rewrite app_nil_r. }
  split; [reflexivity|].
  pose proof (not_positive (JS.parseFloat alertThreshold) Hn) as Hp.
  destruct (PrimFloat.ltb PrimFloat.zero (JS.parseFloat alertThreshold)).
  - assert (Hl : PrimFloat.leb (JS.parseFloat alertThreshold) PrimFloat.zero = false).
    { destruct (PrimFloat.leb _ _); [|reflexivity].
      rewrite orb_true_r in Hp. discriminate. }
    rewrite Hl. reflexivity.
  - assert (Hl : PrimFloat.leb (JS.parseFloat alertThreshold) PrimFloat.zero = true).
    { destruct (PrimFloat.leb _ _) eqn:E; [reflexivity|].
      rewrite orb_false_r in Hp. cbn [negb] in Hp.
      unfold JS.truthy_number in Hp.
      rewrite Hn, orb_false_r, negb_involutive in Hp.
      rewrite (leb_zero_l _ PrimFloat.zero Hp) in E. discriminate. }
    rewrite Hl. unfold showToast. cbn [priceAlerts]. now rewrite app_nil_r.
Qed.

(** *** The search box of the other dashboard *)

Section GlobalSearchFacts.
Local Open Scope Z_scope.

Lemma advance_waiting (pg : GlobalSearch.page) (o : option (Z * string))
  (E : list (string * list PriceRecord)) (P : list PriceRecord) (t : Z) :
  SearchSpec.waiting pg o E P ->
  SearchSpec.waiting (GlobalSearch.advance t pg) (fst (SearchSpec.later t o E P)) (snd (SearchSpec.later t o E P)) P /\
  EventLoop.clock (GlobalSearch.loop (GlobalSearch.advance t pg)) =
    Z.max (EventLoop.clock (GlobalSearch.loop pg)) t.
Proof.
  intros (HE & HP & Ho). unfold GlobalSearch.advance, SearchSpec.later.
  destruct o as [[d q]|].
  - destruct Ho as (h & Hp & Hto). rewrite Hp.
    cbn [length GlobalSearch.run_due].
    unfold EventLoop.next_due. rewrite Hp. cbn [EventLoop.earliest EventLoop.due].
    destruct (Z.leb_spec d t) as [Hle|Hlt]; cbn [fst snd].
    + unfold GlobalSearch.search_callback, EventLoop.fire, EventLoop.settle.
      cbn [GlobalSearch.loop GlobalSearch.searchTimeout GlobalSearch.allPrices
           GlobalSearch.evaluations EventLoop.pending EventLoop.handle
           EventLoop.clock EventLoop.next_handle EventLoop.due
           EventLoop.callback].
      rewrite Hp, without_self, HE, HP.
      split; [|lia]. repeat split.
    + unfold EventLoop.settle.
      cbn [GlobalSearch.loop GlobalSearch.searchTimeout GlobalSearch.allPrices
           GlobalSearch.evaluations EventLoop.pending EventLoop.clock].
      split; [|reflexivity]. split; [exact HE|]. split; [exact HP|].
      exists h. split; assumption.
  - rewrite Ho. cbn [length GlobalSearch.run_due fst snd].
    unfold EventLoop.settle.
    cbn [GlobalSearch.loop GlobalSearch.searchTimeout GlobalSearch.allPrices
         GlobalSearch.evaluations EventLoop.pending EventLoop.clock].
    split; [|reflexivity]. split; [exact HE|]. split; [exact HP|exact Ho].
Qed.

Lemma clearTimeout_waiting (pg : GlobalSearch.page) (o : option (Z * string))
  (E : list (string * list PriceRecord)) (P : list PriceRecord) :
  SearchSpec.waiting pg o E P ->
  EventLoop.pending
    (EventLoop.clearTimeout (GlobalSearch.searchTimeout pg) (GlobalSearch.loop pg)) = [] /\
  EventLoop.clock
    (EventLoop.clearTimeout (GlobalSearch.searchTimeout pg) (GlobalSearch.loop pg)) =
    EventLoop.clock (GlobalSearch.loop pg).
Proof.
  intros (HE & HP & Ho). destruct o as [[d q]|].
  - destruct Ho as (h & Hp & Hto). rewrite Hto.
    cbn [EventLoop.clearTimeout EventLoop.pending EventLoop.clock].
    rewrite Hp, without_self. split; reflexivity.
  - destruct (GlobalSearch.searchTimeout pg) as [h|];
      cbn [EventLoop.clearTimeout EventLoop.pending EventLoop.clock];
      rewrite ?Ho; split; reflexivity.
Qed.

(** An input event: an empty query shows the snapshot at once and leaves no
    timer; another one replaces the pending timer by one due 300 ms
    later. *)
Lemma on_input_waiting (pg : GlobalSearch.page) (o : option (Z * string))
  (E : list (string * list PriceRecord)) (P : list PriceRecord) (v : string) :
  SearchSpec.waiting pg o E P ->
  let q := JS.toLowerCase (JS.trim v) in
  (if GlobalSearch.clears v
   then SearchSpec.waiting (GlobalSearch.on_input v pg) None (E ++ [(q, P)]) P
   else SearchSpec.waiting (GlobalSearch.on_input v pg)
          (Some (EventLoop.clock (GlobalSearch.loop pg) + 300, q)) E P) /\
  EventLoop.clock (GlobalSearch.loop (GlobalSearch.on_input v pg)) =
    EventLoop.clock (GlobalSearch.loop pg).
Proof.
  intros Hw. cbv zeta.
  destruct (clearTimeout_waiting pg o E P Hw) as [Hp Hc].
  destruct Hw as (HE & HP & _).
  unfold GlobalSearch.on_input, GlobalSearch.clears.
  destruct (negb (JS.truthy_string (JS.toLowerCase (JS.trim v)))).
  - cbn [GlobalSearch.loop GlobalSearch.searchTimeout GlobalSearch.allPrices
         GlobalSearch.evaluations].
    rewrite HE, HP. split; [|exact Hc]. repeat split. exact Hp.
  - unfold EventLoop.setTimeout.
    cbn [GlobalSearch.loop GlobalSearch.searchTimeout GlobalSearch.allPrices
         GlobalSearch.evaluations EventLoop.pending EventLoop.clock].
    rewrite Hp, Hc. split; [|reflexivity].
    split; [exact HE|]. split; [exact HP|].
    eexists. split; reflexivity.
Qed.

Lemma run_inputs_waiting (rest : list (Z * string)) :
  forall (pg : GlobalSearch.page) (t : Z) (o : option (Z * string))
         (E : list (string * list PriceRecord)) (P : list PriceRecord) (T : Z),
    SearchSpec.waiting pg o E P ->
    EventLoop.clock (GlobalSearch.loop pg) = t ->
    match o with Some (d, _) => d = t + 300 | None => True end ->
    Timing.ascending t rest ->
    List.last (map fst rest) t + 300 <= T ->
    GlobalSearch.evaluations
      (GlobalSearch.run (GlobalSearch.inputs rest ++ [GlobalSearch.Idle T]) pg) =
    E ++ SearchSpec.still P o (match rest with [] => None | (t', _) :: _ => Some t' end) ++
    SearchSpec.shown P rest.
Proof.
  induction rest as [|[t' v'] rest IH]; intros pg t o E P T Hw Hc Hd Hasc HT.
  - cbn [GlobalSearch.inputs map app GlobalSearch.run fold_left GlobalSearch.step
         SearchSpec.shown].
    cbn [map List.last] in HT.
    destruct (advance_waiting pg o E P T Hw) as [(HE' & _) _].
    rewrite HE'. unfold SearchSpec.later, SearchSpec.still.
    destruct o as [[d q]|]; cbn [snd]; [|now rewrite !app_nil_r].
    subst d. destruct (Z.leb_spec (t + 300) T); [|lia].
    cbn [snd]. now rewrite app_nil_r.
  - destruct Hasc as [Ht Hasc].
    cbn [GlobalSearch.inputs map app GlobalSearch.run fold_left fst snd].
    change (fold_left GlobalSearch.step
              (map (fun tv => GlobalSearch.Input (fst tv) (snd tv)) rest ++
               [GlobalSearch.Idle T])
              (GlobalSearch.step pg (GlobalSearch.Input t' v')))
      with (GlobalSearch.run (GlobalSearch.inputs rest ++ [GlobalSearch.Idle T])
              (GlobalSearch.step pg (GlobalSearch.Input t' v'))).
    cbn [GlobalSearch.step].
    destruct (advance_waiting pg o E P t' Hw) as [Hw1 Hc1].
    rewrite Hc in Hc1. replace (Z.max t t') with t' in Hc1 by lia.
    destruct (on_input_waiting _ _ _ P v' Hw1) as [Hw2 Hc2]. cbv zeta in Hw2.
    rewrite Hc1 in Hc2, Hw2.
    assert (HT' : List.last (map fst rest) t' + 300 <= T).
    { cbn [map fst] in HT. now rewrite last_cons_default in HT. }
    assert (Hl : snd (SearchSpec.later t' o E P) = E ++ SearchSpec.still P o (Some t')).
    { unfold SearchSpec.later, SearchSpec.still. destruct o as [[d q]|]; cbn [snd];
        [|now rewrite app_nil_r].
      destruct (Z.leb_spec d t'), (Z.ltb_spec t' d); cbn [snd]; try lia;
        [reflexivity | now rewrite app_nil_r]. }
    rewrite Hl in Hw2.
    cbn [SearchSpec.shown]. unfold SearchSpec.at_once.
    destruct (GlobalSearch.clears v').
    + refine (eq_trans (IH _ t' None _ P T Hw2 Hc2 I Hasc HT') _).
      cbn [SearchSpec.still app]. now rewrite <- !app_assoc.
    + refine (eq_trans (IH _ t' _ _ P T Hw2 Hc2 eq_refl Hasc HT') _).
      cbn [app]. now rewrite <- !app_assoc.
Qed.

(** What the inputs show is what the calls that take effect show. *)
Lemma shown_effective (P : list PriceRecord) (rest : list (Z * string)) :
  SearchSpec.shown P rest =
  map (fun v => (JS.toLowerCase (JS.trim v), AdminDashboard.search P v))
      (Timing.effective GlobalSearch.clears 300 rest).
Proof.
  induction rest as [|[t v] rest IH]; [reflexivity|].
  cbn [SearchSpec.shown Timing.effective]. unfold SearchSpec.at_once, SearchSpec.still.
  assert (Hs : AdminDashboard.search P v =
               if GlobalSearch.clears v then P
               else List.filter
                      (AdminDashboard.search_match (JS.toLowerCase (JS.trim v))) P)
    by reflexivity.
  destruct (GlobalSearch.clears v) eqn:Hcl.
  - cbn [app map]. now rewrite IH, Hs.
  - cbn [app]. destruct rest as [|[t' v'] rest'].
    + cbn [map app SearchSpec.shown]. unfold SearchSpec.found. now rewrite Hs.
    + destruct (Z.ltb_spec t' (t + 300)).
      * cbn [app]. exact IH.
      * cbn [app map]. rewrite IH. unfold SearchSpec.found. now rewrite Hs.
Qed.

End GlobalSearchFacts.

(** X30: on the other dashboard, an input event that empties the search box
    shows the whole snapshot at once and cancels a pending search; any other
    input event runs a search 300 ms later, with the query as it was at the
    event, unless another input event follows within 300 ms.  What is shown
    comes in the order of the events. *)
Theorem global_search_clears_at_once
  (prices : list PriceRecord) (typed : list (Z * string)) (T : Z) :
  Timing.ascending 0 typed ->
  (List.last (map fst typed) 0 + 300 <= T)%Z ->
  GlobalSearch.evaluations
    (GlobalSearch.run (GlobalSearch.inputs typed ++ [GlobalSearch.Idle T])
       (GlobalSearch.start prices)) =
  map (fun v => (JS.toLowerCase (JS.trim v), AdminDashboard.search prices v))
      (Timing.effective GlobalSearch.clears 300 typed).
Proof.
  intros Hasc HT.
  rewrite (run_inputs_waiting typed (GlobalSearch.start prices) 0 None []
             prices T); [|repeat split|reflexivity|exact I|exact Hasc|exact HT].
  cbn [SearchSpec.still app]. apply shown_effective.
Qed.

Lemma global_search_clears_at_once_witness :
  map fst
    (GlobalSearch.evaluations
       (GlobalSearch.run
          (GlobalSearch.inputs [(0, "r"); (100, "ri"); (150, ""); (500, "Rice");
                                (900, " ")]%Z ++
           [GlobalSearch.Idle 1300])
          (GlobalSearch.start Sample.snapshot))) =
  [""; "rice"; ""].
Proof.
  rewrite (global_search_clears_at_once Sample.snapshot
             [(0, "r"); (100, "ri"); (150, ""); (500, "Rice"); (900, " ")]%Z 1300).
  - reflexivity.
  - cbn. lia.
  - cbn. lia.
Defined.

(** *** Scenarios *)

(** Addresses [isValidEmail] accepts and refuses. *)
Example scenario_emails :
  map Validation.isValidEmail
    ["ada@unilag.edu.ng"; "a@b.c"; "ada@unilag"; "@unilag.edu"; "ada@.ng";
     "ada@unilag."; "a da@unilag.edu"; "ada@uni@lag.edu"; ""] =
  [true; true; false; false; false; false; false; false; false].
Proof. vm_compute. reflexivity. Qed.

(** What [validateField] reports for a required price between 1 and 1000. *)
Example scenario_validateField :
  let rules :=
    {| Validation.required := true; Validation.minLength := None;
       Validation.maxLength := Some 6%float; Validation.pattern := None;
       Validation.patternMessage := None; Validation.min := Some 1%float;
       Validation.max := Some 1000%float; Validation.email := false |} in
  map (fun v => Validation.validateField v rules)
    [Some "250"; Some "0.5"; Some "   "; Some "12345678"; Some "cheap"; None] =
  [ [];
    ["Minimum value is 1"];
    ["This field is required"];
    ["Maximum 6 characters allowed"; "Maximum value is 1000"];
    [];
    ["This field is required"] ].
Proof. vm_compute. reflexivity. Qed.

(** [timeAgo] at 90 s, at 2 h, at 45 days, and for a date 5 s ahead. *)
Example scenario_timeAgo :
  map (fun t => Dates.timeAgo 1700000000000 (Dates.At t))
    [1699999910000; 1699992800000; 1696112000000; 1700000005000]%Z =
  ["1 minute ago"; "2 hours ago"; "1 month ago"; "just now"].
Proof. vm_compute. reflexivity. Qed.

(** [parseInt] on the texts a category input or a stored id may hold. *)
Example scenario_parseInt :
  map (fun s => JS.Number_toString (Parse.parseInt s))
    ["3"; " 42px"; "-7.9"; "0x1F"; "0x"; "012"; ""; "abc"; "+5"] =
  ["3"; "42"; "-7"; "31"; "NaN"; "12"; "NaN"; "NaN"; "5"].
Proof. vm_compute. reflexivity. Qed.

(** The address of the API for a page on a development server, on the
    backend itself and on a deployment. *)
Example scenario_API_URL :
  map Config.API_URL
    [ {| Config.hostname := "localhost"; Config.origin := "http://localhost:5500";
         Config.port := "5500"; Config.APP_API_URL := None |};
      {| Config.hostname := "127.0.0.1"; Config.origin := "http://127.0.0.1:8000";
         Config.port := "8000"; Config.APP_API_URL := None |};
      {| Config.hostname := "prices.onrender.com";
         Config.origin := "https://prices.onrender.com";
         Config.port := ""; Config.APP_API_URL := None |};
      {| Config.hostname := "localhost"; Config.origin := "http://localhost:5500";
         Config.port := "5500"; Config.APP_API_URL := Some "https://api.example/v1" |} ] =
  ["http://localhost:8000/api"; "http://127.0.0.1:8000/api";
   "https://prices.onrender.com/api"; "https://api.example/v1"].
Proof. vm_compute. reflexivity. Qed.

(** A subscriber to item 7 and to all items, a message about item 7, and
    the subscribers once the first subscription is undone. *)
Example scenario_subscribers :
  let data := {| PriceUpdater.item_id := 7; PriceUpdater.item_name := "Rice";
                 PriceUpdater.store_name := "Shop"; PriceUpdater.price := 100%float;
                 PriceUpdater.timestamp := "2024-01-01" |} in
  let m := PriceUpdater.subscribe 0 "log"
             (PriceUpdater.subscribe 7 "show" []) in
  map fst (PriceUpdater.handlePriceUpdate data m) = ["show"; "log"] /\
  PriceUpdater.unsubscribe 7 "show" m = [(0%Z, ["log"])].
Proof. vm_compute. split; reflexivity. Qed.
